(** * mittu: field normalisers, three-way join and KPIs

    A shallow embedding of the decision logic of
    [data_cleaning_script.py] (class [DataCleaner]), [join_data.py]
    (class [DataJoiner]) and [data_processor.py], followed by the
    properties established about it.

    Modelling conventions.
    - A Python [str] is a list of characters, each a Latin-1 code point
      (code 0..255), which covers the Portuguese text of the spreadsheets.
      The character classes used below ([isspace], [lower_char], [is_word],
      [strip_accent]) are the restrictions of Python's Unicode classes to
      that range.  Text with other characters is outside the model; in
      particular a combining mark, which [remove_accents] drops wherever
      it stands, does not occur.
    - A spreadsheet cell is a [cell]: [None], a string, an integer or a
      float.  [pd.isna] holds of [None] and of the float NaN.
    - A Python float is represented by the exact decimal it is read from
      ([FDec]: sign, significant digits, position of the decimal point), or
      by NaN or an infinity.  [float_repr] prints it as Python's [repr]
      does.  This is exact for numerals of at most 15 significant digits
      whose magnitude lies in the range of normal doubles and, where the
      value is turned into an integer, below 10^15; the rounding of longer
      numerals and the overflow of [float] to an infinity are outside the
      model.
    - Where the interpreter or a library decides what the code does, both
      behaviours are defined: [standardize_conclusao_on] for Python before
      and from 3.12 ([int.is_integer]), [standardize_date_on] for a C
      library that pads the year of [strftime] and one that does not,
      [clean_custos_raw] for pandas before and from 3 ([astype(str)]).
      [standardize_conclusao] and [standardize_date] are the cases of
      Python 3.12 and of the padded year.
    - Library calls that raise ([int], [float], [datetime.strptime],
      indexing) return a [result]; [try ... except] is [try_except].
    - [print] calls are diagnostics and are left out. *)

From Stdlib Require Import String Ascii List ZArith QArith Bool Lia.
From Stdlib Require Import DecimalString DecimalZ DecimalFacts Permutation.
Import ListNotations.
Open Scope string_scope.
Open Scope list_scope.
Open Scope Z_scope.

(* ================================================================= *)
(** ** Python strings *)

Definition str := list ascii.

Coercion list_ascii_of_string : string >-> list.

(** Lists of string literals. *)
Definition strs (l : list string) : list str := map list_ascii_of_string l.

Definition str_pairs (l : list (string * string)) : list (str * str) :=
  map (fun p => (list_ascii_of_string (fst p), list_ascii_of_string (snd p))) l.

Definition chr (n : nat) : ascii := ascii_of_nat n.

Definition between (lo hi n : nat) : bool := (Nat.leb lo n) && (Nat.leb n hi).

(** [str.isspace] on Latin-1: TAB..CR, FS..US, SPACE, NEL, NBSP.  The
    regular-expression class [\s] is the same set. *)
Definition isspace (c : ascii) : bool :=
  let n := nat_of_ascii c in
  between 9 13 n || between 28 32 n || Nat.eqb n 133 || Nat.eqb n 160.

Definition is_digit (c : ascii) : bool := between 48 57 (nat_of_ascii c).

Definition is_upper (c : ascii) : bool :=
  let n := nat_of_ascii c in
  between 65 90 n || between 192 214 n || between 216 222 n.

(** One character of [str.lower()]. *)
Definition lower_char (c : ascii) : ascii :=
  if is_upper c then chr (nat_of_ascii c + 32) else c.

Definition lower (s : str) : str := map lower_char s.

(** The regular-expression class [\w] on Latin-1: alphanumerics and [_]. *)
Definition is_word (c : ascii) : bool :=
  let n := nat_of_ascii c in
  between 48 57 n || between 65 90 n || between 97 122 n || Nat.eqb n 95
  || Nat.eqb n 170 || between 178 179 n || Nat.eqb n 181
  || between 185 186 n || between 188 190 n
  || between 192 214 n || between 216 246 n || between 248 255 n.

(** [unicodedata.normalize('NFD', c)] with the combining marks dropped:
    the base letter of an accented Latin-1 letter. *)
Definition strip_accent (c : ascii) : ascii :=
  let n := nat_of_ascii c in
  if between 192 197 n then "A"%char
  else if Nat.eqb n 199 then "C"%char
  else if between 200 203 n then "E"%char
  else if between 204 207 n then "I"%char
  else if Nat.eqb n 209 then "N"%char
  else if between 210 214 n then "O"%char
  else if between 217 220 n then "U"%char
  else if Nat.eqb n 221 then "Y"%char
  else if between 224 229 n then "a"%char
  else if Nat.eqb n 231 then "c"%char
  else if between 232 235 n then "e"%char
  else if between 236 239 n then "i"%char
  else if Nat.eqb n 241 then "n"%char
  else if between 242 246 n then "o"%char
  else if between 249 252 n then "u"%char
  else if Nat.eqb n 253 then "y"%char
  else if Nat.eqb n 255 then "y"%char
  else c.

Fixpoint lstrip (s : str) : str :=
  match s with
  | c :: t => if isspace c then lstrip t else s
  | [] => []
  end.

Fixpoint rstrip (s : str) : str :=
  match s with
  | [] => []
  | c :: t =>
      match rstrip t with
      | [] => if isspace c then [] else [c]
      | r => c :: r
      end
  end.

(** [s.strip()] *)
Definition strip (s : str) : str := rstrip (lstrip s).

Fixpoint lstrip_chars (cs : str) (s : str) : str :=
  match s with
  | c :: t => if existsb (Ascii.eqb c) cs then lstrip_chars cs t else s
  | [] => []
  end.

Fixpoint rstrip_chars (cs : str) (s : str) : str :=
  match s with
  | [] => []
  | c :: t =>
      match rstrip_chars cs t with
      | [] => if existsb (Ascii.eqb c) cs then [] else [c]
      | r => c :: r
      end
  end.

(** [s.strip(cs)] *)
Definition strip_chars (cs : str) (s : str) : str :=
  rstrip_chars cs (lstrip_chars cs s).

(** [c in s] for a one-character [c]. *)
Definition char_in (c : ascii) (s : str) : bool := existsb (Ascii.eqb c) s.

Fixpoint str_eqb (s t : str) : bool :=
  match s, t with
  | [], [] => true
  | a :: s', b :: t' => Ascii.eqb a b && str_eqb s' t'
  | _, _ => false
  end.

(** [s in [t1, t2, ...]] *)
Definition str_in (s : str) (l : list str) : bool := existsb (str_eqb s) l.

(** [s.replace(a, b)] for a one-character pattern [a]. *)
Definition replace (a : ascii) (b : str) (s : str) : str :=
  flat_map (fun c => if Ascii.eqb c a then b else [c]) s.

Fixpoint rfind_from (c : ascii) (s : str) (i acc : Z) : Z :=
  match s with
  | [] => acc
  | x :: t => rfind_from c t (i + 1) (if Ascii.eqb x c then i else acc)
  end.

(** [s.rfind(c)]: the highest index of [c], or -1. *)
Definition rfind (c : ascii) (s : str) : Z := rfind_from c s 0 (-1).

(** [s[a:b]] for [0 <= a <= b]. *)
Definition slice (a b : nat) (s : str) : str := firstn (b - a) (skipn a s).

Fixpoint split_on (c : ascii) (s : str) : list str :=
  match s with
  | [] => [[]]
  | x :: t =>
      if Ascii.eqb x c then [] :: split_on c t
      else match split_on c t with
           | p :: ps => (x :: p) :: ps
           | [] => [[x]]
           end
  end.

(** [re.sub(r'\s+', ' ', s)]: every maximal run of whitespace becomes one
    space. *)
Fixpoint collapse_ws (s : str) : str :=
  match s with
  | [] => []
  | c :: t =>
      if isspace c then
        match t with
        | c' :: _ => if isspace c' then collapse_ws t else " "%char :: collapse_ws t
        | [] => [" "%char]
        end
      else c :: collapse_ws t
  end.

(* ================================================================= *)
(** ** Exceptions *)

Inductive exn := ValueError | IndexError | OverflowError | AttributeError.

Inductive result (A : Type) : Type :=
| Ok (a : A)
| Raise (e : exn).

Arguments Ok {A} a.
Arguments Raise {A} e.

Definition bind {A B} (r : result A) (k : A -> result B) : result B :=
  match r with
  | Ok a => k a
  | Raise e => Raise e
  end.

Notation "x <- r ;; k" := (bind r (fun x => k))
  (at level 61, r at next level, right associativity).

Definition exn_eqb (a b : exn) : bool :=
  match a, b with
  | ValueError, ValueError
  | IndexError, IndexError
  | OverflowError, OverflowError
  | AttributeError, AttributeError => true
  | _, _ => false
  end.

(** [try: body  except (e1, e2, ...): handler] *)
Definition try_except {A} (body : result A) (caught : list exn)
  (handler : result A) : result A :=
  match body with
  | Ok a => Ok a
  | Raise e => if existsb (exn_eqb e) caught then handler else Raise e
  end.

(** [s[i]] *)
Definition index (s : str) (i : nat) : result ascii :=
  match nth_error s i with
  | Some c => Ok c
  | None => Raise IndexError
  end.

(* ================================================================= *)
(** ** Python numbers *)

Definition digit_val (c : ascii) : Z := Z.of_nat (nat_of_ascii c) - 48.

(** The value of a string of decimal digits. *)
Definition digits_to_Z (ds : str) : Z :=
  fold_left (fun acc c => 10 * acc + digit_val c) ds 0.

(** [str(z)] for an [int]. *)
Definition int_repr (z : Z) : str :=
  list_ascii_of_string (NilEmpty.string_of_int (Z.to_int z)).

Definition zeros (n : nat) : str := repeat "0"%char n.

(** A float: NaN, an infinity, or the decimal [0.d1d2...dk * 10^decpt]
    with sign; [digits] has neither a leading nor a trailing zero, and zero
    has no digit. *)
Inductive pyfloat :=
| FNan
| FInf (neg : bool)
| FDec (neg : bool) (digits : str) (decpt : Z).

Definition sign_str (neg : bool) : str := if neg then "-" else "".

(** The exponent of the scientific form: sign and at least two digits. *)
Definition exp_repr (e : Z) : str :=
  let d := int_repr (Z.abs e) in
  (if e <? 0 then "-" else "+") ++ (if (length d <? 2)%nat then "0" ++ d else d).

(** [repr(x)] (and [str(x)]) for a float: the shortest digits, positional
    when [-4 < decpt <= 16] and scientific otherwise. *)
Definition float_repr (x : pyfloat) : str :=
  match x with
  | FNan => "nan"
  | FInf neg => sign_str neg ++ "inf"
  | FDec neg [] _ => sign_str neg ++ "0.0"
  | FDec neg ((d :: rest) as ds) p =>
      sign_str neg ++
      (if (-4 <? p) && (p <=? 16) then
         if p <=? 0 then "0." ++ zeros (Z.to_nat (- p)) ++ ds
         else if Z.of_nat (length ds) <=? p
              then ds ++ zeros (Z.to_nat p - length ds) ++ ".0"
              else firstn (Z.to_nat p) ds ++ "." ++ skipn (Z.to_nat p) ds
       else
         d :: (match rest with [] => [] | _ => "." ++ rest end)
           ++ "e" ++ exp_repr (p - 1))
  end.

(** Underscores of a numeral ([1_000]): each must stand between two
    digits; they are removed before the numeral is read. *)
Fixpoint remove_underscores_from (prev : ascii) (s : str) : option str :=
  match s with
  | [] => if Ascii.eqb prev "_" then None else Some []
  | c :: t =>
      if Ascii.eqb c "_" then
        if is_digit prev then remove_underscores_from c t else None
      else if Ascii.eqb prev "_" && negb (is_digit c) then None
      else option_map (cons c) (remove_underscores_from c t)
  end.

Definition remove_underscores (s : str) : option str :=
  remove_underscores_from zero s.

(** An optional sign: whether it is [-], and what follows it. *)
Definition split_sign (s : str) : bool * str :=
  match s with
  | c :: t =>
      if Ascii.eqb c "-" then (true, t)
      else if Ascii.eqb c "+" then (false, t)
      else (false, s)
  | [] => (false, [])
  end.

(** The longest prefix of digits, and the rest. *)
Fixpoint span_digits (s : str) : str * str :=
  match s with
  | c :: t =>
      if is_digit c then let (ds, r) := span_digits t in (c :: ds, r)
      else ([], s)
  | [] => ([], [])
  end.

(** The whitespace [int] and [float] skip around a numeral: TAB..CR and
    SPACE, and NEL and NBSP, which they first turn into spaces.  Unlike
    [str.strip] they keep the separators FS..US (codes 28..31), with which
    the numeral is not valid. *)
Definition numeral_space : str :=
  [chr 9; chr 10; chr 11; chr 12; chr 13; " "%char; chr 133; chr 160].

(** [int(s)] for a string: surrounding whitespace, an optional sign,
    decimal digits. *)
Definition py_int (s : str) : result Z :=
  match remove_underscores (strip_chars numeral_space s) with
  | None => Raise ValueError
  | Some s1 =>
      let (neg, body) := split_sign s1 in
      match span_digits body with
      | ((_ :: _) as ds, []) =>
          Ok (if neg then - digits_to_Z ds else digits_to_Z ds)
      | _ => Raise ValueError
      end
  end.

Fixpoint strip_leading_zeros (ds : str) (p : Z) : str * Z :=
  match ds with
  | c :: t => if Ascii.eqb c "0" then strip_leading_zeros t (p - 1) else (ds, p)
  | [] => ([], p)
  end.

(** The float [0.ds * 10^p] with sign, in normal form. *)
Definition mk_dec (neg : bool) (ds : str) (p : Z) : pyfloat :=
  let (ds1, p1) := strip_leading_zeros ds p in
  match rstrip_chars "0" ds1 with
  | [] => FDec neg [] 0
  | ds2 => FDec neg ds2 p1
  end.

(** The exponent part of a numeral: empty, or [e] or [E], an optional
    sign and at least one digit. *)
Definition parse_exponent (s : str) : option Z :=
  match s with
  | [] => Some 0
  | c :: t =>
      if Ascii.eqb c "e" || Ascii.eqb c "E" then
        let (neg, body) := split_sign t in
        match span_digits body with
        | ((_ :: _) as ds, []) =>
            Some (if neg then - digits_to_Z ds else digits_to_Z ds)
        | _ => None
        end
      else None
  end.

(** An unsigned decimal numeral: digits with an optional point, at least
    one digit in all, and an optional exponent. *)
Definition parse_decimal (neg : bool) (s : str) : option pyfloat :=
  let (ip, r1) := span_digits s in
  let (fp, r2) :=
    match r1 with
    | c :: t => if Ascii.eqb c "." then span_digits t else ([], r1)
    | [] => ([], [])
    end in
  match ip ++ fp with
  | [] => None
  | ds =>
      match parse_exponent r2 with
      | Some e => Some (mk_dec neg ds (Z.of_nat (length ip) + e))
      | None => None
      end
  end.

(** [float(s)] for a string: surrounding whitespace, an optional sign,
    then [inf], [infinity] or [nan] in any case, or a decimal numeral. *)
Definition py_float (s : str) : result pyfloat :=
  match remove_underscores (strip_chars numeral_space s) with
  | None => Raise ValueError
  | Some s1 =>
      let (neg, body) := split_sign s1 in
      let word := lower body in
      if str_eqb word "inf" || str_eqb word "infinity" then Ok (FInf neg)
      else if str_eqb word "nan" then Ok FNan
      else match parse_decimal neg body with
           | Some x => Ok x
           | None => Raise ValueError
           end
  end.

(** [x < 100] *)
Definition float_lt_100 (x : pyfloat) : bool :=
  match x with
  | FNan => false
  | FInf neg => neg
  | FDec _ [] _ => true
  | FDec true _ _ => true
  | FDec false _ p => p <=? 2
  end.

(** [x.is_integer()] *)
Definition float_is_integer (x : pyfloat) : bool :=
  match x with
  | FDec _ ds p => match ds with [] => true | _ => Z.of_nat (length ds) <=? p end
  | _ => false
  end.

(** [int(x)]: truncation towards zero; it raises on NaN and the
    infinities. *)
Definition float_to_int (x : pyfloat) : result Z :=
  match x with
  | FNan => Raise ValueError
  | FInf _ => Raise OverflowError
  | FDec neg ds p =>
      let m :=
        if p <=? 0 then 0
        else if Z.of_nat (length ds) <=? p
             then digits_to_Z ds * 10 ^ (p - Z.of_nat (length ds))
             else digits_to_Z (firstn (Z.to_nat p) ds) in
      Ok (if neg then - m else m)
  end.

(** [f"{z:0wd}"]: zero-padded to width [w], the sign included. *)
Definition format_0d (w : nat) (z : Z) : str :=
  let d := int_repr (Z.abs z) in
  let sgn : str := if z <? 0 then "-" else "" in
  sgn ++ zeros (w - length sgn - length d) ++ d.

(* ================================================================= *)
(** ** Cells *)

Inductive cell :=
| CNone
| CStr (s : str)
| CInt (z : Z)
| CFloat (x : pyfloat).

(** [pd.isna(v)] *)
Definition pd_isna (v : cell) : bool :=
  match v with
  | CNone | CFloat FNan => true
  | _ => false
  end.

(** [str(v)] *)
Definition py_str (v : cell) : str :=
  match v with
  | CNone => "None"
  | CStr s => s
  | CInt z => int_repr z
  | CFloat x => float_repr x
  end.

(** [bool(v)]: the truth value of [v] in a condition. *)
Definition truthy (v : cell) : bool :=
  match v with
  | CNone => false
  | CStr s => match s with [] => false | _ => true end
  | CInt z => negb (z =? 0)
  | CFloat (FDec _ [] _) => false
  | CFloat _ => true
  end.

(** [v == ''] *)
Definition is_empty_str (v : cell) : bool :=
  match v with
  | CStr [] => true
  | _ => false
  end.

(* ================================================================= *)
(** ** datetime *)

Record date := {
  year : Z;
  month : Z;
  day : Z
}.

Definition is_leap (y : Z) : bool :=
  (y mod 4 =? 0) && (negb (y mod 100 =? 0) || (y mod 400 =? 0)).

Definition days_in_month (y m : Z) : Z :=
  if m =? 2 then (if is_leap y then 29 else 28)
  else if (m =? 4) || (m =? 6) || (m =? 9) || (m =? 11) then 30
  else 31.

(** [datetime(y, m, d)]: a date of the calendar, years 1 to 9999. *)
Definition make_date (y m d : Z) : result date :=
  if (1 <=? y) && (y <=? 9999) && (1 <=? m) && (m <=? 12)
     && (1 <=? d) && (d <=? days_in_month y m)
  then Ok {| year := y; month := m; day := d |}
  else Raise ValueError.

(** [date_obj.replace(year=y)] *)
Definition replace_year (d : date) (y : Z) : result date :=
  make_date y (month d) (day d).

(** [date_obj.strftime('%Y-%m-%d')], the year written with four digits. *)
Definition strftime_ymd (d : date) : str :=
  format_0d 4 (year d) ++ "-" ++ format_0d 2 (month d) ++ "-" ++ format_0d 2 (day d).

(** The directives of the formats in use. *)
Inductive directive := Dd | Dm | Dy | DY.

Inductive fmt_item :=
| Dir (d : directive)
| Lit (c : ascii).

(** A format string read into directives and literal characters. *)
Fixpoint parse_format (fmt : str) : list fmt_item :=
  match fmt with
  | [] => []
  | c :: t =>
      if Ascii.eqb c "%" then
        match t with
        | x :: t' =>
            (if Ascii.eqb x "d" then Dir Dd
             else if Ascii.eqb x "m" then Dir Dm
             else if Ascii.eqb x "y" then Dir Dy
             else if Ascii.eqb x "Y" then Dir DY
             else Lit x) :: parse_format t'
        | [] => [Lit c]
        end
      else Lit c :: parse_format t
  end.

Definition in_range (lo hi : ascii) (c : ascii) : bool :=
  between (nat_of_ascii lo) (nat_of_ascii hi) (nat_of_ascii c).

(** The regular expression [strptime] uses for a directive, as its
    alternatives in order, each a sequence of character classes:
    [%d] is [3[0-1]|[1-2]\d|0[1-9]|[1-9]| [1-9]],
    [%m] is [1[0-2]|0[1-9]|[1-9]], [%y] is [\d\d], [%Y] is [\d\d\d\d]. *)
Definition directive_regex (d : directive) : list (list (ascii -> bool)) :=
  match d with
  | Dd => [ [Ascii.eqb "3"; in_range "0" "1"];
            [in_range "1" "2"; is_digit];
            [Ascii.eqb "0"; in_range "1" "9"];
            [in_range "1" "9"];
            [Ascii.eqb " "; in_range "1" "9"] ]
  | Dm => [ [Ascii.eqb "1"; in_range "0" "2"];
            [Ascii.eqb "0"; in_range "1" "9"];
            [in_range "1" "9"] ]
  | Dy => [ [is_digit; is_digit] ]
  | DY => [ [is_digit; is_digit; is_digit; is_digit] ]
  end.

(** A sequence of character classes against the head of [s]: the
    characters matched and the rest. *)
Fixpoint match_classes (cls : list (ascii -> bool)) (s : str) : option (str * str) :=
  match cls with
  | [] => Some ([], s)
  | cl :: cls' =>
      match s with
      | c :: t =>
          if cl c then
            match match_classes cls' t with
            | Some (m, r) => Some (c :: m, r)
            | None => None
            end
          else None
      | [] => None
      end
  end.

(** The alternatives of a group in order, backtracking into the rest of
    the expression [k]. *)
Fixpoint try_alternatives {A} (alts : list (list (ascii -> bool)))
  (k : str -> option A) (s : str) : option (str * A) :=
  match alts with
  | [] => None
  | alt :: alts' =>
      match match_classes alt s with
      | Some (m, r) =>
          match k r with
          | Some a => Some (m, a)
          | None => try_alternatives alts' k s
          end
      | None => try_alternatives alts' k s
      end
  end.

(** [format_regex.match(data_string)]: the text captured by each
    directive, and what is left of the string after the match. *)
Fixpoint regex_match (items : list fmt_item) (s : str)
  : option (list (directive * str) * str) :=
  match items with
  | [] => Some ([], s)
  | Lit c :: items' =>
      match s with
      | x :: t => if Ascii.eqb x c then regex_match items' t else None
      | [] => None
      end
  | Dir d :: items' =>
      match try_alternatives (directive_regex d) (regex_match items') s with
      | Some (m, (caps, r)) => Some ((d, m) :: caps, r)
      | None => None
      end
  end.

Definition directive_eqb (a b : directive) : bool :=
  match a, b with
  | Dd, Dd | Dm, Dm | Dy, Dy | DY, DY => true
  | _, _ => false
  end.

Fixpoint captured (d : directive) (caps : list (directive * str)) : option str :=
  match caps with
  | [] => None
  | (d', m) :: t => if directive_eqb d d' then Some m else captured d t
  end.

(** The value of a captured field, or the default of [strptime]. *)
Definition field (d : directive) (caps : list (directive * str)) (default : Z)
  : result Z :=
  match captured d caps with
  | Some m => py_int m
  | None => Ok default
  end.

(** [datetime.strptime(data_string, fmt)]: the whole string has to match;
    a two-digit year up to 68 is of the 2000s, from 69 on of the 1900s. *)
Definition strptime (data_string fmt : str) : result date :=
  match regex_match (parse_format fmt) data_string with
  | Some (caps, []) =>
      y <- match captured DY caps with
           | Some m => py_int m
           | None =>
               match captured Dy caps with
               | Some m =>
                   yy <- py_int m ;;
                   Ok (if yy <=? 68 then yy + 2000 else yy + 1900)
               | None => Ok 1900
               end
           end ;;
      m <- field Dm caps 1 ;;
      d <- field Dd caps 1 ;;
      make_date y m d
  | _ => Raise ValueError
  end.

(** [s.endswith(suffix)] *)
Definition endswith (s suffix : str) : bool :=
  str_eqb (skipn (length s - length suffix) s) suffix
  && Nat.leb (length suffix) (length s).

(* ================================================================= *)
(** ** data_cleaning_script.py: class DataCleaner *)

Definition null_tokens : list str := strs ["null"; "none"; "nan"; "n/a"].

(** The guard every normaliser starts with:
    [pd.isna(v) or v == '' or str(v).lower() in ['null', 'none', 'nan', 'n/a']]. *)
Definition is_nullish (v : cell) : bool :=
  pd_isna v || is_empty_str v || str_in (lower (py_str v)) null_tokens.

(** [try: x = body  except caught: return ret], then [k x]. *)
Definition try_or_return {A B} (body : result A) (caught : list exn)
  (ret : result B) (k : A -> result B) : result B :=
  match body with
  | Ok a => k a
  | Raise e => if existsb (exn_eqb e) caught then ret else Raise e
  end.

Definition remove_separators (s : str) : str :=
  replace "/" "" (replace "." "" (replace "-" "" s)).

(** The special handling of [YYYY-DD-MM] of [standardize_date]: the date
    string as it is handed to the formats. *)
Definition date_heuristic (date_string : str) : result str :=
  if Nat.eqb (length date_string) 10 then
    c4 <- index date_string 4 ;;
    if char_in c4 "-./" then
      c7 <- index date_string 7 ;;
      if char_in c7 "-./" then
        try_except
          (year <- py_int (slice 0 4 date_string) ;;
           day <- py_int (remove_separators (slice 5 8 date_string)) ;;
           month <- py_int (remove_separators (slice 8 11 date_string)) ;;
           if (day >? 12) && (month <=? 12) then
             Ok (format_0d 4 year ++ "-" ++ format_0d 2 month ++ "-" ++ format_0d 2 day)
           else Ok date_string)
          [ValueError; IndexError]
          (Ok date_string)
      else Ok date_string
    else Ok date_string
  else Ok date_string.

Definition formats_to_try : list str :=
  strs [ "%d/%m/%y"; "%d.%m.%y"; "%d-%m-%y";
         "%Y-%m-%d"; "%d/%m/%Y"; "%d.%m.%Y"; "%d-%m-%Y" ].

(** One turn of the loop over the formats: the body of the [try]. *)
Definition parse_with_format (date_string fmt : str) : result cell :=
  date_obj <- strptime date_string fmt ;;
  date_obj <-
    (if endswith fmt "%y" then
       let year := year date_obj in
       if year <? 100 then
         if year <? 50 then replace_year date_obj (2000 + year)
         else replace_year date_obj (1900 + year)
       else Ok date_obj
     else Ok date_obj) ;;
  Ok (CStr (strftime_ymd date_obj)).

Fixpoint try_formats (fmts : list str) (date_string : str) : result cell :=
  match fmts with
  | [] => Ok (CStr "")
  | fmt :: rest =>
      try_except (parse_with_format date_string fmt) [ValueError]
        (try_formats rest date_string)
  end.

Definition standardize_date (date_string : cell) : result cell :=
  if is_nullish date_string then Ok (CStr "")
  else
    date_string <- date_heuristic (strip (py_str date_string)) ;;
    try_formats formats_to_try date_string.

(** How [strftime] writes [%Y].  The C library decides: with four
    digits, or, as glibc does, without padding, so that the year 26 is
    written [26].  [strftime_ymd] above is the padded case. *)
Inductive year_digits := Padded | Unpadded.

(** [d.strftime('%Y-%m-%d')] with the C library [c]. *)
Definition strftime_ymd_on (c : year_digits) (d : date) : str :=
  match c with
  | Padded => strftime_ymd d
  | Unpadded =>
      int_repr (year d) ++ "-" ++ format_0d 2 (month d) ++ "-" ++ format_0d 2 (day d)
  end.

(** [standardize_date] and its loop with the C library [c]; the
    definitions above are the case [Padded]. *)
Definition parse_with_format_on (c : year_digits) (date_string fmt : str) : result cell :=
  date_obj <- strptime date_string fmt ;;
  date_obj <-
    (if endswith fmt "%y" then
       let year := year date_obj in
       if year <? 100 then
         if year <? 50 then replace_year date_obj (2000 + year)
         else replace_year date_obj (1900 + year)
       else Ok date_obj
     else Ok date_obj) ;;
  Ok (CStr (strftime_ymd_on c date_obj)).

Fixpoint try_formats_on (c : year_digits) (fmts : list str) (date_string : str)
  : result cell :=
  match fmts with
  | [] => Ok (CStr "")
  | fmt :: rest =>
      try_except (parse_with_format_on c date_string fmt) [ValueError]
        (try_formats_on c rest date_string)
  end.

Definition standardize_date_on (c : year_digits) (date_string : cell) : result cell :=
  if is_nullish date_string then Ok (CStr "")
  else
    date_string <- date_heuristic (strip (py_str date_string)) ;;
    try_formats_on c formats_to_try date_string.

(** A number as [min(100, num_value)] returns it: the integer 100 or the
    float. *)
Inductive number :=
| NInt (z : Z)
| NFloat (x : pyfloat).

(** [min(100, x)]: [x] when [x < 100], else the first argument. *)
Definition min_100 (x : pyfloat) : number :=
  if float_lt_100 x then NFloat x else NInt 100.

(** [n.is_integer()] ([int.is_integer] is always true; it is part of
    Python from 3.12 on). *)
Definition is_integer (n : number) : bool :=
  match n with
  | NInt _ => true
  | NFloat x => float_is_integer x
  end.

(** [int(n)] *)
Definition to_int (n : number) : result Z :=
  match n with
  | NInt z => Ok z
  | NFloat x => float_to_int x
  end.

(** [str(n)] *)
Definition number_repr (n : number) : str :=
  match n with
  | NInt z => int_repr z
  | NFloat x => float_repr x
  end.

Definition standardize_conclusao (value : cell) : result cell :=
  if is_nullish value then Ok (CStr "")
  else
    let val_str := strip (py_str value) in
    let val_str := replace "%" "" val_str in
    if char_in "," val_str then
      try_or_return (py_float (replace "," "." val_str)) [ValueError] (Ok (CStr ""))
        (fun num_value =>
           let num_value := min_100 num_value in
           if is_integer num_value then
             z <- to_int num_value ;; Ok (CStr (int_repr z ++ "%"))
           else Ok (CStr (replace "." "," (number_repr num_value) ++ "%")))
    else
      try_or_return (py_float val_str) [ValueError] (Ok (CStr ""))
        (fun num_value =>
           let num_value := min_100 num_value in
           if is_integer num_value then
             z <- to_int num_value ;; Ok (CStr (int_repr z ++ "%"))
           else Ok (CStr (number_repr num_value ++ "%"))).

(** The interpreter that runs the code: an [int] has the method
    [is_integer] from Python 3.12 on. *)
Inductive python := Before_3_12 | From_3_12.

(** [n.is_integer()] as the interpreter [py] runs it: on an [int] the call
    raises [AttributeError] before Python 3.12. *)
Definition call_is_integer (py : python) (n : number) : result bool :=
  match n, py with
  | NInt _, Before_3_12 => Raise AttributeError
  | _, _ => Ok (is_integer n)
  end.

(** [standardize_conclusao] as the interpreter [py] runs it; the
    definition above is the case of Python 3.12 and later.  The calls of
    [is_integer] stand outside the [try], so nothing catches what they
    raise. *)
Definition standardize_conclusao_on (py : python) (value : cell) : result cell :=
  if is_nullish value then Ok (CStr "")
  else
    let val_str := strip (py_str value) in
    let val_str := replace "%" "" val_str in
    if char_in "," val_str then
      try_or_return (py_float (replace "," "." val_str)) [ValueError] (Ok (CStr ""))
        (fun num_value =>
           let num_value := min_100 num_value in
           whole <- call_is_integer py num_value ;;
           if whole then
             z <- to_int num_value ;; Ok (CStr (int_repr z ++ "%"))
           else Ok (CStr (replace "." "," (number_repr num_value) ++ "%")))
    else
      try_or_return (py_float val_str) [ValueError] (Ok (CStr ""))
        (fun num_value =>
           let num_value := min_100 num_value in
           whole <- call_is_integer py num_value ;;
           if whole then
             z <- to_int num_value ;; Ok (CStr (int_repr z ++ "%"))
           else Ok (CStr (number_repr num_value ++ "%"))).

Definition standardize_prioridade (value : cell) : result cell :=
  if is_nullish value then Ok (CStr "")
  else Ok (CStr (lower (strip (py_str value)))).

(** [remove_accents], local to [standardize_status]: on Latin-1 text,
    NFD and the removal of the combining marks amount to this map of the
    characters. *)
Definition remove_accents (text : str) : str := map strip_accent text.

Definition status_mapping : list (str * str) :=
  str_pairs
  [ ("critico", "critico"); ("critical", "critico"); ("critique", "critico");
    ("atrasado", "atrasado"); ("delayed", "atrasado"); ("atrasado ", "atrasado");
    ("em dia", "em dia"); ("on schedule", "em dia"); ("on time", "em dia");
    ("pausado", "pausado"); ("on hold", "pausado"); ("em espera", "pausado");
    ("aguardando", "pausado"); ("waiting", "pausado"); ("pending", "pausado");
    ("suspended", "pausado"); ("suspenso", "pausado"); ("hold", "pausado");
    ("paused", "pausado") ].

(** [d[k]] when [k in d]. *)
Fixpoint lookup (k : str) (d : list (str * str)) : option str :=
  match d with
  | [] => None
  | (k', v) :: t => if str_eqb k k' then Some v else lookup k t
  end.

Definition standardize_status (value : cell) : result cell :=
  if is_nullish value then Ok (CStr "")
  else
    let status_str := lower (strip (py_str value)) in
    let status_str := remove_accents status_str in
    match lookup status_str status_mapping with
    | Some v => Ok (CStr v)
    | None => Ok (CStr status_str)
    end.

(** One character of [str.upper()], for the letters without special
    casing. *)
Definition upper_char (c : ascii) : ascii :=
  let n := nat_of_ascii c in
  if between 97 122 n || between 224 246 n || between 248 254 n
  then chr (n - 32) else c.

Definition typo_corrections : list (ascii * str) :=
  [ ("O"%char, "0" : str); ("I"%char, "1" : str); ("l"%char, "1" : str);
    ("S"%char, "5" : str); ("G"%char, "6" : str); ("B"%char, "8" : str) ].

(** The loop over [typo_corrections.items()]. *)
Fixpoint apply_corrections (cs : list (ascii * str)) (o_correction_made : bool)
  (corrected : str) : str :=
  match cs with
  | [] => corrected
  | (typo, correction) :: rest =>
      if Ascii.eqb (upper_char typo) "O" && o_correction_made
      then apply_corrections rest o_correction_made corrected
      else apply_corrections rest o_correction_made (replace typo correction corrected)
  end.

(** The letter-for-digit corrections of [standardize_currency]. *)
Definition correct_typos (currency_str : str) : str :=
  if char_in "o" (lower currency_str)
  then apply_corrections typo_corrections true
         (replace "O" "0" (replace "o" "0" currency_str))
  else apply_corrections typo_corrections false currency_str.

(** [re.sub(r'[R$\s\(\)estim]', '', s)] *)
Definition strip_symbols (s : str) : str :=
  filter (fun c => negb (char_in c "R$()estim" || isspace c)) s.

(** The thousands and decimal separators brought to the form [float]
    reads. *)
Definition normalize_separators (cleaned : str) : str :=
  if char_in "," cleaned && char_in "." cleaned then
    let last_comma_pos := rfind "," cleaned in
    let last_dot_pos := rfind "." cleaned in
    if last_comma_pos >? last_dot_pos
    then replace "," "." (replace "." "" cleaned)
    else replace "," "" cleaned
  else if char_in "," cleaned
  then replace "," "." (replace "." "" cleaned)
  else cleaned.

Definition standardize_currency (currency_string : cell) : result cell :=
  if is_nullish currency_string then Ok (CStr "")
  else
    let currency_str := strip (py_str currency_string) in
    let corrected := correct_typos currency_str in
    let cleaned := strip_symbols corrected in
    let cleaned := normalize_separators cleaned in
    try_except (x <- py_float cleaned ;; Ok (CFloat x)) [ValueError] (Ok (CStr "")).

(** What [convert_to_hours] returns: [None] or a float read from the
    text, or the float [hours + minutes / 60], whose digits are a matter
    of binary rounding and are kept as the two operands. *)
Inductive hours_result :=
| HVal (v : cell)
| HClock (hours minutes : pyfloat).

Definition convert_to_hours (time_string : cell) : result hours_result :=
  if pd_isna time_string || is_empty_str time_string then Ok (HVal CNone)
  else
    let time_str := strip_chars [chr 34; chr 39] (strip (py_str time_string)) in
    let decimal_hours :=
      let cleaned := replace "," "." time_str in
      try_except (x <- py_float cleaned ;; Ok (HVal (CFloat x))) [ValueError]
        (Ok (HVal CNone)) in
    if char_in ":" time_str then
      match split_on ":" time_str with
      | [p0; p1] =>
          try_except
            (hours <- py_float p0 ;;
             minutes <- py_float p1 ;;
             Ok (HClock hours minutes))
            [ValueError]
            decimal_hours
      | _ => decimal_hours
      end
    else decimal_hours.

Definition Nao : str := ["N"%char; chr 227; "o"%char].
Definition nao : str := ["n"%char; chr 227; "o"%char].
Definition Hibrido : str := ["H"%char; chr 237] ++ "brido".
Definition hibrido : str := ["h"%char; chr 237] ++ "brido".

Definition standardize_approval (value : cell) : result cell :=
  if is_nullish value then Ok (CStr "")
  else
    let value_str := strip (py_str value) in
    if str_eqb value_str "Sim" then Ok (CStr "Sim")
    else if str_eqb value_str Nao then Ok (CStr Nao)
    else if str_eqb (lower value_str) "sim" then Ok (CStr "Sim")
    else if str_in (lower value_str) [nao; list_ascii_of_string "nao"] then Ok (CStr Nao)
    else if str_in (lower value_str) [list_ascii_of_string "s"] then Ok (CStr "Sim")
    else if str_in (lower value_str) [list_ascii_of_string "n"] then Ok (CStr Nao)
    else Ok (CStr value_str).

Definition standardize_remote (value : cell) : result cell :=
  if is_nullish value then Ok (CStr "")
  else
    let value_str := strip (py_str value) in
    if str_eqb value_str Hibrido then Ok (CStr Hibrido)
    else if str_eqb value_str "Sim" then Ok (CStr "Sim")
    else if str_eqb value_str Nao then Ok (CStr Nao)
    else if str_eqb (lower value_str) "sim" then Ok (CStr "Sim")
    else if str_in (lower value_str) [nao; list_ascii_of_string "nao"] then Ok (CStr Nao)
    else if str_eqb (lower value_str) hibrido then Ok (CStr Hibrido)
    else Ok (CStr value_str).

(** The character at index [i] of [s] is one of [-], [.] and [/]. *)
Definition separator_at (i : nat) (s : str) : bool :=
  match nth_error s i with
  | Some c => char_in c "-./"
  | None => false
  end.

(* ================================================================= *)
(** ** join_data.py: class DataJoiner *)

(** The rows of the three cleaned tables, as far as the joiner reads
    them: the identifier and the display name.  [payload] stands for the
    remaining columns. *)
Record source_row := {
  project_id : cell;
  projeto : cell;
  payload : list cell
}.

(** [isinstance(name, str)] *)
Definition is_str (v : cell) : bool :=
  match v with
  | CStr _ => true
  | _ => false
  end.

Definition standardize_project_name (name : cell) : str :=
  match name with
  | CStr s =>
      let standardized := strip (lower s) in
      let standardized := filter (fun c => is_word c || isspace c) standardized in
      collapse_ws standardized
  | _ => ""
  end.

Definition match_project_key (project_id projeto : cell) : str :=
  if truthy project_id && negb (pd_isna project_id)
     && truthy (CStr (strip (py_str project_id)))
  then py_str project_id
  else if truthy projeto && negb (pd_isna projeto)
  then standardize_project_name (CStr (py_str projeto))
  else "".

(** A source row with the two columns the joiner adds: [match_key] and
    the source identifier (the row's index; the prefix [PROJ_], [HOR_] or
    [CUST_] is fixed per table). *)
Record keyed_row := {
  k_key : str;
  k_source_id : nat;
  k_row : source_row
}.

Fixpoint add_keys_from (i : nat) (df : list source_row) : list keyed_row :=
  match df with
  | [] => []
  | r :: t =>
      {| k_key := match_project_key (project_id r) (projeto r);
         k_source_id := i;
         k_row := r |} :: add_keys_from (S i) t
  end.

(** [prepare_dataframes] followed by the [*_source_id] columns, for one
    table. *)
Definition add_keys (df : list source_row) : list keyed_row := add_keys_from 0 df.

(** [Series.unique()]: the distinct values, first occurrences kept. *)
Fixpoint unique_from (seen : list str) (l : list str) : list str :=
  match l with
  | [] => []
  | k :: t =>
      if str_in k seen then unique_from seen t
      else k :: unique_from (k :: seen) t
  end.

Definition unique (l : list str) : list str := unique_from [] l.

(** [set(a) | set(b) | set(c)] turned into a list.  Python leaves the
    order of a set open; the order chosen here is that of first
    occurrence, and nothing below depends on it. *)
Definition all_keys (p h c : list keyed_row) : list str :=
  unique (map k_key p ++ map k_key h ++ map k_key c).

(** [left.merge(right, on='match_key', how='left')]: every left row, in
    order, once per right row with its key, or once with the right
    columns missing. *)
Definition merge_left {A} (key_of : A -> str) (left : list A)
  (right : list keyed_row) : list (A * option keyed_row) :=
  flat_map
    (fun l =>
       match filter (fun r => str_eqb (k_key r) (key_of l)) right with
       | [] => [(l, None)]
       | ms => map (fun r => (l, Some r)) ms
       end)
    left.

Record joined_row := {
  match_key : str;
  j_projeto : option keyed_row;
  j_horas : option keyed_row;
  j_custo : option keyed_row
}.

Definition merge_all (base : list str) (p h c : list keyed_row) : list joined_row :=
  let m1 := merge_left (fun k => k) base p in
  let m2 := merge_left (fun x => fst x) m1 h in
  let m3 := merge_left (fun x => fst (fst x)) m2 c in
  map (fun x =>
         {| match_key := fst (fst (fst x));
            j_projeto := snd (fst (fst x));
            j_horas := snd (fst x);
            j_custo := snd x |}) m3.

Definition full_outer_join_data (projetos horas custos : list source_row)
  : list joined_row :=
  let p := add_keys projetos in
  let h := add_keys horas in
  let c := add_keys custos in
  merge_all (all_keys p h c) p h c.

(** [projeto_source_id], [horas_source_id], [custo_source_id] of a joined
    row: missing ([None], pandas' NaN) when the source did not match. *)
Definition projeto_source_id (r : joined_row) : option nat := option_map k_source_id (j_projeto r).
Definition horas_source_id (r : joined_row) : option nat := option_map k_source_id (j_horas r).
Definition custo_source_id (r : joined_row) : option nat := option_map k_source_id (j_custo r).

Definition isna {A} (o : option A) : bool :=
  match o with
  | None => true
  | Some _ => false
  end.

Record flagged_row := {
  f_row : joined_row;
  has_projeto_data : bool;
  has_horas_data : bool;
  has_custo_data : bool;
  match_quality : str
}.

Definition set_quality (q : str) (r : flagged_row) : flagged_row :=
  {| f_row := f_row r;
     has_projeto_data := has_projeto_data r;
     has_horas_data := has_horas_data r;
     has_custo_data := has_custo_data r;
     match_quality := q |}.

(** [df.loc[mask, 'match_quality'] = q] *)
Definition loc_set (mask : flagged_row -> bool) (q : str) (df : list flagged_row)
  : list flagged_row :=
  map (fun r => if mask r then set_quality q r else r) df.

Definition add_match_flags (merged_df : list joined_row) : list flagged_row :=
  let df :=
    map (fun r =>
           {| f_row := r;
              has_projeto_data := negb (isna (projeto_source_id r));
              has_horas_data := negb (isna (horas_source_id r));
              has_custo_data := negb (isna (custo_source_id r));
              match_quality := "unmatched" |}) merged_df in
  let df := loc_set (fun r => has_projeto_data r && has_horas_data r) "partial" df in
  let df := loc_set (fun r => has_projeto_data r && has_custo_data r) "partial" df in
  let df := loc_set (fun r => has_horas_data r && has_custo_data r) "partial" df in
  let df := loc_set (fun r => has_projeto_data r && has_horas_data r && has_custo_data r) "full" df in
  df.

(* ================================================================= *)
(** ** data_processor.py *)

(** A row of the joined table as [calculate_kpis] reads it.  A missing
    value (pandas' NaN) is [None]; the numeric columns are those that
    [load_and_clean_data] derives ([valor_clean] and
    [custo_previsto_clean] have their gaps filled with 0).  Amounts are
    rationals: exact arithmetic stands for the doubles of the source. *)
Record kpi_row := {
  d_project_id : option str;
  d_status : option str;
  conclusao_clean : option Q;
  valor_clean : Q;
  custo_previsto_clean : Q
}.

(** The row selection of [load_and_clean_data]:
    [df[df['project_id'].notna() & (df['project_id'] != '')]]. *)
Definition select_identified (df : list kpi_row) : list kpi_row :=
  filter
    (fun r =>
       match d_project_id r with
       | Some s => negb (str_eqb s "")
       | None => false
       end)
    df.

(** [Series.dropna()] *)
Fixpoint dropna {A} (l : list (option A)) : list A :=
  match l with
  | [] => []
  | Some a :: t => a :: dropna t
  | None :: t => dropna t
  end.

(** [Series.nunique()]: the number of distinct values, NaN not counted. *)
Definition nunique (l : list (option str)) : nat := length (unique (dropna l)).

Definition opt_str_eqb (a b : option str) : bool :=
  match a, b with
  | Some s, Some t => str_eqb s t
  | None, None => true
  | _, _ => false
  end.

Fixpoint drop_duplicates_from (seen : list (option str)) (df : list kpi_row)
  : list kpi_row :=
  match df with
  | [] => []
  | r :: t =>
      if existsb (opt_str_eqb (d_project_id r)) seen
      then drop_duplicates_from seen t
      else r :: drop_duplicates_from (d_project_id r :: seen) t
  end.

(** [df.drop_duplicates(subset=['project_id'])]: the first row of every
    identifier; missing identifiers count as one value. *)
Definition drop_duplicates (df : list kpi_row) : list kpi_row :=
  drop_duplicates_from [] df.

(** [Series.sum()] *)
Definition sumQ (l : list Q) : Q := fold_left Qplus l 0%Q.

(** [Series.mean()] over the values that are not missing; NaN, which
    [calculate_kpis] replaces by 0.0, when there is none. *)
Definition mean_or_zero (l : list (option Q)) : Q :=
  match dropna l with
  | [] => 0%Q
  | vs => (sumQ vs / inject_Z (Z.of_nat (length vs)))%Q
  end.

(** [df.groupby('status')['project_id'].nunique().to_dict()]: one entry
    per status that is not missing.  pandas sorts the keys; the entries
    are listed here by first occurrence. *)
Definition status_counts_of (df : list kpi_row) : list (str * nat) :=
  map
    (fun s =>
       (s, nunique (map d_project_id
                      (filter (fun r => opt_str_eqb (d_status r) (Some s)) df))))
    (unique (dropna (map d_status df))).

Record kpis := {
  total_projects : nat;
  status_counts : list (str * nat);
  avg_completion : Q;
  planned_costs : Q;
  actual_costs : Q;
  cost_variance : Q
}.

Definition calculate_kpis (df : list kpi_row) : kpis :=
  let total := nunique (map d_project_id df) in
  let counts := status_counts_of df in
  let avg := mean_or_zero (map conclusao_clean df) in
  let planned := sumQ (map custo_previsto_clean (drop_duplicates df)) in
  let actual := sumQ (map valor_clean df) in
  {| total_projects := total;
     status_counts := counts;
     avg_completion := avg;
     planned_costs := planned;
     actual_costs := actual;
     cost_variance :=
       if negb (Qle_bool planned 0) then ((actual - planned) / planned * 100)%Q
       else 0%Q |}.

(** [id in ids] *)
Definition id_in (i : option str) (ids : list (option str)) : bool :=
  existsb (opt_str_eqb i) ids.

(** The identifier-wise status of a table: that of the first row of the
    identifier. *)
Definition status_of (df : list kpi_row) (i : str) : option str :=
  match find (fun r => opt_str_eqb (d_project_id r) (Some i)) df with
  | Some r => d_status r
  | None => None
  end.

(** A row of the joined table with the given identifier, status,
    planned cost and cost value. *)
Definition kpi_row_of (i : option str) (s : option str) (planned value : Q) : kpi_row :=
  {| d_project_id := i;
     d_status := s;
     conclusao_clean := None;
     valor_clean := value;
     custo_previsto_clean := planned |}.

(** The conditions under which a row cannot be identified: its
    identifier is missing or blank, and its display name is missing. *)
Definition id_missing_or_blank (v : cell) : bool :=
  pd_isna v
  || match v with
     | CStr s => str_eqb (strip s) ""
     | _ => false
     end.

Definition name_missing (v : cell) : bool := pd_isna v || is_empty_str v.

Definition name_missing_or_not_str (v : cell) : bool :=
  name_missing v || negb (is_str v).

(** The joined row [j] carries the source row [r]. *)
Definition carries (j : joined_row) (r : source_row) : Prop :=
  exists kr, k_row kr = r
    /\ (j_projeto j = Some kr \/ j_horas j = Some kr \/ j_custo j = Some kr).

(** [try: return float(numeral)  except ValueError: return ''] *)
Definition float_or_empty (numeral : str) : result cell :=
  try_except (x <- py_float numeral ;; Ok (CFloat x)) [ValueError] (Ok (CStr "")).

Definition is_separator (c : ascii) : bool := Ascii.eqb c "," || Ascii.eqb c ".".

(** The rightmost of the characters [,] and [.] in a string. *)
Definition rightmost_separator (s : str) : option ascii :=
  fold_left (fun acc c => if is_separator c then Some c else acc) s None.

(** The numeral [t] read with [dec] as its decimal separator: the other
    separator is dropped as thousands grouping and [dec] becomes the
    point. *)
Definition with_decimal_separator (dec : ascii) (t : str) : str :=
  if Ascii.eqb dec "," then replace "," "." (replace "." "" t)
  else replace "," "" t.

(** Two strings with the same separators in the same order. *)
Definition same_separators (s t : str) : Prop :=
  filter is_separator s = filter is_separator t.

(** The only exception a computation can raise is [ValueError]. *)
Definition raises_only_value_error {A} (r : result A) : Prop :=
  forall e, r = Raise e -> e = ValueError.

(** The numeral [standardize_currency] hands to [float]. *)
Definition currency_numeral (v : cell) : str :=
  normalize_separators (strip_symbols (correct_typos (strip (py_str v)))).

(** The numeral [standardize_conclusao] hands to [float]. *)
Definition conclusao_numeral (v : cell) : str :=
  let val_str := replace "%" "" (strip (py_str v)) in
  if char_in "," val_str then replace "," "." val_str else val_str.

(** [standardize_conclusao] reaches the cap: the text is read as a number
    that is not below 100 (100 or more, NaN or an infinity), for which
    [min(100, num_value)] returns the integer 100. *)
Definition conclusao_capped (v : cell) : bool :=
  negb (is_nullish v)
  && match py_float (conclusao_numeral v) with
     | Ok x => negb (float_lt_100 x)
     | Raise _ => false
     end.

(** The text [convert_to_hours] reads. *)
Definition hours_text (v : cell) : str :=
  strip_chars [chr 34; chr 39] (strip (py_str v)).

(** One step of the exception monad. *)
Ltac run := cbn [bind try_except try_or_return existsb exn_eqb orb].

(** The quality tag as a function of the three presence flags. *)
Definition quality_of (p h c : bool) : str :=
  if p && h && c then "full"
  else if (p && h) || (p && c) || (h && c) then "partial"
  else "unmatched".

(** The number of sources that contributed to a row. *)
Definition sources_present (r : flagged_row) : nat :=
  (if has_projeto_data r then 1 else 0)
  + (if has_horas_data r then 1 else 0)
  + (if has_custo_data r then 1 else 0).

(* ================================================================= *)
(** ** Numerals and their text *)

(** A string of decimal digits. *)
Definition all_digits (ds : str) : Prop := Forall (fun c => is_digit c = true) ds.

(** The normal form of a float: decimal digits without a leading or a
    trailing zero, and zero is written with no digit and exponent 0. *)
Definition float_wf (x : pyfloat) : Prop :=
  match x with
  | FDec _ ds p =>
      all_digits ds /\ hd "1"%char ds <> "0"%char /\ last ds "1"%char <> "0"%char
      /\ (ds = [] -> p = 0)
  | _ => True
  end.

(** The characters a decimal number is written with. *)
Definition uint_chars (u : Decimal.uint) : str :=
  list_ascii_of_string (NilEmpty.string_of_uint u).

(** The characters of the text of a float: digits, signs, the point and
    the letters of [e], [inf] and [nan]. *)
Definition numeral_char (c : ascii) : bool := is_digit c || char_in c ".-+einfa".

Definition numeral_text (s : str) : Prop := Forall (fun c => numeral_char c = true) s.

(** The characters of a float written without exponent. *)
Definition decimal_char (c : ascii) : bool := is_digit c || char_in c ".-".

Definition decimal_text (s : str) : Prop := Forall (fun c => decimal_char c = true) s.

(** [repr] writes the float without exponent. *)
Definition positional (x : pyfloat) : bool :=
  match x with
  | FDec _ [] _ => true
  | FDec _ _ p => (-4 <? p) && (p <=? 16)
  | _ => false
  end.

(** The tail both branches of [standardize_conclusao] share: the cap at
    100 and the text returned, with a decimal comma in the first branch. *)
Definition conclusao_result (decimal_comma : bool) (num_value : pyfloat) : result cell :=
  let num_value := min_100 num_value in
  if is_integer num_value then
    z <- to_int num_value ;; Ok (CStr (int_repr z ++ "%"))
  else
    Ok (CStr ((if decimal_comma then replace "." "," (number_repr num_value)
               else number_repr num_value) ++ "%")).

(** The conversion [load_and_clean_data] applies to a completion cell that
    contains [%], before the division by 100:
    [.astype(str).str.replace('%', '').str.replace(',', '.').astype(float)]. *)
Definition percent_to_float (s : str) : result pyfloat :=
  py_float (replace "," "." (replace "%" "" s)).

(* ================================================================= *)
(** ** Dates and their text *)

(** The formats of [formats_to_try] that end in a two-digit year. *)
Definition two_digit_year_formats : list str :=
  strs [ "%d/%m/%y"; "%d.%m.%y"; "%d-%m-%y" ].

(* ================================================================= *)
(** ** Counting joined rows *)

(** The number of rows of a table that have the key [k]. *)
Definition count_key (k : str) (rows : list keyed_row) : nat :=
  length (filter (fun r => str_eqb (k_key r) k) rows).

(** The joined row holds the cost record of index [i]:
    [custo_source_id == 'CUST_i']. *)
Definition has_custo_source (i : nat) (j : joined_row) : bool :=
  match custo_source_id j with
  | Some i' => Nat.eqb i' i
  | None => false
  end.

(* ================================================================= *)
(** ** data_processor.py: cost comparison and status colours *)

(** The sum of the cost values of the rows of one project. *)
Definition group_sum (df : list kpi_row) (i : str) : Q :=
  sumQ (map valor_clean
          (filter (fun r => opt_str_eqb (d_project_id r) (Some i)) df)).

(** [df.groupby('project_id')['valor_clean'].sum().reset_index()]: one
    row per identifier that is not missing.  pandas sorts the
    identifiers; they are listed here by first occurrence, and the merge
    that follows does not depend on their order. *)
Definition actual_by_project (df : list kpi_row) : list (str * Q) :=
  map (fun i => (i, group_sum df i)) (unique (dropna (map d_project_id df))).

(** A row of the cost comparison, without [area] and without
    [variance_percent], which is rounded. *)
Record cost_row := {
  c_project_id : option str;
  c_custo_previsto : Q;
  custo_real_total : Q
}.

(** [prepare_cost_comparison_data]: the first row of every project, left
    merged with the sums per project on [project_id]; a planned row
    without a sum gets [fillna(0)]. *)
Definition prepare_cost_comparison_data (df : list kpi_row) : list cost_row :=
  let planned := drop_duplicates df in
  let actual := actual_by_project df in
  flat_map
    (fun r =>
       match filter (fun a => opt_str_eqb (d_project_id r) (Some (fst a))) actual with
       | [] =>
           [ {| c_project_id := d_project_id r;
                c_custo_previsto := custo_previsto_clean r;
                custo_real_total := 0 |} ]
       | ms =>
           map (fun a =>
                  {| c_project_id := d_project_id r;
                     c_custo_previsto := custo_previsto_clean r;
                     custo_real_total := snd a |}) ms
       end)
    planned.

(** The real cost [prepare_cost_comparison_data] shows for an identifier. *)
Definition real_cost_of (df : list kpi_row) (i : option str) : Q :=
  match i with
  | Some s => group_sum df s
  | None => 0
  end.

(** The row has an identifier, and it is one of [ids]. *)
Definition identified_in (ids : list (option str)) (r : kpi_row) : bool :=
  match d_project_id r with
  | Some _ => id_in (d_project_id r) ids
  | None => false
  end.

(** The colours [get_status_distribution] starts from. *)
Definition status_colors : list (str * str) :=
  str_pairs
  [ ("em dia", "#2E8B57"); ("atrasado", "#FF8C00"); ("critico", "#DC143C");
    ("pausado", "#708090"); ("concluido", "#4682B4"); ("andamento", "#3CB371") ].

Definition default_color : str := "#A9A9A9".

(** The loop over [status_counts]: a status without a colour gets the
    default one, as a new entry at the end of the dictionary. *)
Fixpoint add_default_colors (statuses : list str) (colors : list (str * str))
  : list (str * str) :=
  match statuses with
  | [] => colors
  | status :: rest =>
      add_default_colors rest
        (match lookup status colors with
         | Some _ => colors
         | None => colors ++ [(status, default_color)]
         end)
  end.

Definition get_status_distribution (df : list kpi_row)
  : list (str * nat) * list (str * str) :=
  let status_counts := status_counts_of df in
  (status_counts, add_default_colors (map fst status_counts) status_colors).

(* ================================================================= *)
(** ** data_cleaning_script.py: the cleaning of a table *)

(** [Series.apply(f)]: [f] on every cell in order; an exception of [f]
    ends it. *)
Fixpoint series_apply {A} (f : cell -> result A) (col : list cell) : result (list A) :=
  match col with
  | [] => Ok []
  | v :: rest =>
      a <- f v ;;
      l <- series_apply f rest ;;
      Ok (a :: l)
  end.

(** [Series.notna().sum()] *)
Definition notna_sum (col : list cell) : nat :=
  length (filter (fun v => negb (pd_isna v)) col).

(** The columns of [Projetos_raw.csv] that [clean_projetos_raw] rewrites;
    [n_rows] is [len(df)]. *)
Record projetos_df := {
  n_rows : nat;
  prioridade : list cell;
  status : list cell;
  inicio : list cell;
  prazo : list cell;
  conclusao : list cell;
  custo_previsto : list cell
}.

(** Every column of a data frame has one cell per row. *)
Definition projetos_wf (df : projetos_df) : Prop :=
  length (prioridade df) = n_rows df /\ length (status df) = n_rows df
  /\ length (inicio df) = n_rows df /\ length (prazo df) = n_rows df
  /\ length (conclusao df) = n_rows df /\ length (custo_previsto df) = n_rows df.

(** The entry [clean_projetos_raw] appends to [quality_report]. *)
Record projetos_report := {
  total_records : nat;
  dates_standardized : nat;
  conclusao_standardized : nat;
  currency_cleaned : nat;
  priority_lowercase : nat;
  status_lowercase : nat;
  success_rate : str
}.

(** What a cleaning method does: it returns [False] when the file was
    not loaded; it writes the cleaned table, appends its report and
    returns [True]; or it raises, [ZeroDivisionError] after the cleaned
    table has been written. *)
Inductive cleaning (D R : Type) :=
| NotLoaded
| Done (cleaned : D) (report : R)
| DivisionByZero (cleaned : D)
| Error (e : exn).

Arguments NotLoaded {D R}.
Arguments Done {D R} cleaned report.
Arguments DivisionByZero {D R} cleaned.
Arguments Error {D R} e.

(** [f"{(original_count / original_count) * 100:.1f}%"]: the quotient of a
    positive count by itself is 1.0, and 100.0 is written with one
    decimal; the division raises for the count 0, which is [None] here. *)
Definition success_rate_text (original_count : nat) : option str :=
  if Nat.eqb original_count 0 then None else Some (list_ascii_of_string "100.0%").

(** The six assignments [df[c] = df[c].apply(...)] of [clean_projetos_raw]. *)
Definition transform_projetos (df : projetos_df) : result projetos_df :=
  prioridade' <- series_apply standardize_prioridade (prioridade df) ;;
  status' <- series_apply standardize_status (status df) ;;
  inicio' <- series_apply standardize_date (inicio df) ;;
  prazo' <- series_apply standardize_date (prazo df) ;;
  conclusao' <- series_apply standardize_conclusao (conclusao df) ;;
  custo_previsto' <- series_apply standardize_currency (custo_previsto df) ;;
  Ok {| n_rows := n_rows df;
        prioridade := prioridade';
        status := status';
        inicio := inicio';
        prazo := prazo';
        conclusao := conclusao';
        custo_previsto := custo_previsto' |}.

(** [clean_projetos_raw], given what [load_raw_data] returned. *)
Definition clean_projetos_raw (loaded : option projetos_df)
  : cleaning projetos_df projetos_report :=
  match loaded with
  | None => NotLoaded
  | Some df =>
      let original_count := n_rows df in
      match transform_projetos df with
      | Raise e => Error e
      | Ok df =>
          let dates_cleaned := (notna_sum (inicio df) + notna_sum (prazo df))%nat in
          let conclusao_cleaned := notna_sum (conclusao df) in
          let currency_cleaned := notna_sum (custo_previsto df) in
          let priority_cleaned := notna_sum (prioridade df) in
          let status_cleaned := notna_sum (status df) in
          match success_rate_text original_count with
          | None => DivisionByZero df
          | Some rate =>
              Done df
                {| total_records := original_count;
                   dates_standardized := dates_cleaned;
                   conclusao_standardized := conclusao_cleaned;
                   currency_cleaned := currency_cleaned;
                   priority_lowercase := priority_cleaned;
                   status_lowercase := status_cleaned;
                   success_rate := rate |}
          end
      end
  end.

(** The columns of [Custos_raw.csv] that [clean_custos_raw] rewrites. *)
Record custos_df := {
  c_rows : nat;
  data : list cell;
  valor : list cell;
  centro_custo : list cell;
  aprovado : list cell
}.

Definition custos_wf (df : custos_df) : Prop :=
  length (data df) = c_rows df /\ length (valor df) = c_rows df
  /\ length (centro_custo df) = c_rows df /\ length (aprovado df) = c_rows df.

Record custos_report := {
  c_total_records : nat;
  c_dates_standardized : nat;
  c_currency_cleaned : nat;
  centro_custo_lowercase : nat;
  aprovado_standardized : nat;
  c_success_rate : str
}.

(** The pandas that runs the code: up to pandas 2 [astype(str)] turns a
    missing value into its text ('nan', 'None'); from pandas 3 on the
    value stays missing, and [.str.lower()] leaves it so. *)
Inductive pandas := Pandas_2 | Pandas_3.

(** [df['centro_custo'].astype(str).str.lower()] *)
Definition astype_str_lower (pd : pandas) (col : list cell) : list cell :=
  map (fun v =>
         match pd with
         | Pandas_2 => CStr (lower (py_str v))
         | Pandas_3 => if pd_isna v then CFloat FNan else CStr (lower (py_str v))
         end) col.

(** The four assignments [df[c] = ...] of [clean_custos_raw]. *)
Definition transform_custos (pd : pandas) (df : custos_df) : result custos_df :=
  data' <- series_apply standardize_date (data df) ;;
  valor' <- series_apply standardize_currency (valor df) ;;
  let centro_custo' := astype_str_lower pd (centro_custo df) in
  aprovado' <- series_apply standardize_approval (aprovado df) ;;
  Ok {| c_rows := c_rows df;
        data := data';
        valor := valor';
        centro_custo := centro_custo';
        aprovado := aprovado' |}.

(** [clean_custos_raw], given what [load_raw_data] returned. *)
Definition clean_custos_raw (pd : pandas) (loaded : option custos_df)
  : cleaning custos_df custos_report :=
  match loaded with
  | None => NotLoaded
  | Some df =>
      let original_count := c_rows df in
      match transform_custos pd df with
      | Raise e => Error e
      | Ok df =>
          let dates_cleaned := notna_sum (data df) in
          let currency_cleaned := notna_sum (valor df) in
          let centro_cleaned := notna_sum (centro_custo df) in
          let aprovado_cleaned := notna_sum (aprovado df) in
          match success_rate_text original_count with
          | None => DivisionByZero df
          | Some rate =>
              Done df
                {| c_total_records := original_count;
                   c_dates_standardized := dates_cleaned;
                   c_currency_cleaned := currency_cleaned;
                   centro_custo_lowercase := centro_cleaned;
                   aprovado_standardized := aprovado_cleaned;
                   c_success_rate := rate |}
          end
      end
  end.

(** The only whitespace of [s] is single spaces: no other whitespace
    character, and no two whitespace characters in a row. *)
Fixpoint single_spaced (s : str) : bool :=
  match s with
  | [] => true
  | c :: t =>
      (if isspace c
       then Ascii.eqb c " "
            && match t with
               | c' :: _ => negb (isspace c')
               | [] => true
               end
       else true)
      && single_spaced t
  end.

(** A character of a standardised project name. *)
Definition name_char (c : ascii) : bool := is_word c || isspace c.

(* ================================================================= *)
(** * Properties *)

(** ** Match flags *)

(** The four masked assignments, row by row. *)
Lemma add_match_flags_rows (merged_df : list joined_row) :
  add_match_flags merged_df
  = map (fun j =>
           {| f_row := j;
              has_projeto_data := negb (isna (projeto_source_id j));
              has_horas_data := negb (isna (horas_source_id j));
              has_custo_data := negb (isna (custo_source_id j));
              match_quality :=
                quality_of (negb (isna (projeto_source_id j)))
                  (negb (isna (horas_source_id j)))
                  (negb (isna (custo_source_id j))) |}) merged_df.
Proof.
  unfold add_match_flags, loc_set. rewrite !map_map.
  apply map_ext. intros j.
  destruct (isna (projeto_source_id j)), (isna (horas_source_id j)),
    (isna (custo_source_id j)); reflexivity.
Qed.

Lemma quality_of_cases (p h c : bool) :
  (quality_of p h c = "full" <-> p && h && c = true)
  /\ ((if p then 1 else 0) + (if h then 1 else 0) + (if c then 1 else 0) = 2
      -> quality_of p h c = "partial")%nat
  /\ ((if p then 1 else 0) + (if h then 1 else 0) + (if c then 1 else 0) < 2
      -> quality_of p h c = "unmatched")%nat.
Proof.
  destruct p, h, c; cbn [quality_of andb orb Nat.add];
    (split; [split; intros H; first [reflexivity | discriminate H] |]);
    (split; intros H; first [reflexivity | discriminate H | exfalso; lia]).
Qed.

(** C1.  Every row produced by [add_match_flags] carries the three
    presence flags of its sources, and its [match_quality] is "full"
    exactly when all three flags are true, "partial" when exactly two are
    true and "unmatched" otherwise; a row with one source is
    "unmatched". *)
Theorem add_match_flags_quality (merged_df : list joined_row) :
  Forall
    (fun r =>
       has_projeto_data r = negb (isna (j_projeto (f_row r)))
       /\ has_horas_data r = negb (isna (j_horas (f_row r)))
       /\ has_custo_data r = negb (isna (j_custo (f_row r)))
       /\ (match_quality r = "full"
            <-> has_projeto_data r && has_horas_data r && has_custo_data r = true)
       /\ (sources_present r = 2%nat -> match_quality r = "partial")
       /\ ((sources_present r < 2)%nat -> match_quality r = "unmatched")
       /\ (sources_present r = 1%nat -> match_quality r = "unmatched"))
    (add_match_flags merged_df)
  /\ map f_row (add_match_flags merged_df) = merged_df.
Proof.
  rewrite add_match_flags_rows. split.
  - apply Forall_forall. intros r Hin.
    apply in_map_iff in Hin. destruct Hin as [j [<- _]].
    unfold sources_present.
    cbn [f_row has_projeto_data has_horas_data has_custo_data match_quality].
    destruct (quality_of_cases (negb (isna (projeto_source_id j)))
                (negb (isna (horas_source_id j)))
                (negb (isna (custo_source_id j)))) as [Hfull [Htwo Hless]].
    unfold projeto_source_id, horas_source_id, custo_source_id in *.
    repeat split; try (destruct (j_projeto j), (j_horas j), (j_custo j); reflexivity).
    + apply Hfull.
    + apply Hfull.
    + exact Htwo.
    + exact Hless.
    + intros H. apply Hless. lia.
  - rewrite map_map. cbn [f_row]. apply map_id.
Qed.

(** ** Strings: equality test *)

Lemma str_eqb_eq (s t : str) : str_eqb s t = true <-> s = t.
Proof.
  revert t. induction s as [|a s IH]; intros [|b t]; simpl; split;
    intros H; try reflexivity; try discriminate.
  - apply andb_true_iff in H. destruct H as [Hab Hst].
    apply Ascii.eqb_eq in Hab. apply IH in Hst. congruence.
  - injection H as -> ->. rewrite Ascii.eqb_refl. simpl. now apply IH.
Qed.

Lemma str_eqb_refl (s : str) : str_eqb s s = true.
Proof. now apply str_eqb_eq. Qed.

Lemma str_in_In (s : str) (l : list str) : str_in s l = true <-> In s l.
Proof.
  unfold str_in. rewrite existsb_exists. split.
  - intros [x [Hx He]]. apply str_eqb_eq in He. now subst.
  - intros H. exists s. split; [assumption | apply str_eqb_refl].
Qed.

Lemma str_in_false (s : str) (l : list str) : str_in s l = false <-> ~ In s l.
Proof.
  rewrite <- str_in_In. destruct (str_in s l); split; intros; congruence.
Qed.

(** ** The key universe and the merges *)

Lemma unique_from_In (seen l : list str) (x : str) :
  In x (unique_from seen l) <-> In x l /\ ~ In x seen.
Proof.
  revert seen. induction l as [|k t IH]; intros seen; simpl.
  - tauto.
  - destruct (str_in k seen) eqn:E.
    + apply str_in_In in E. rewrite IH. split.
      * intros [H1 H2]. auto.
      * intros [[-> | H1] H2]; [contradiction | auto].
    + apply str_in_false in E. simpl. rewrite IH. simpl. split.
      * intros [-> | [H1 H2]]; [auto | split; [auto | tauto]].
      * intros [[-> | H1] H2]; [auto |].
        destruct (list_eq_dec ascii_dec k x) as [-> | Hne]; [auto |].
        right. split; [assumption | intros [? | ?]; congruence].
Qed.

Lemma unique_from_NoDup (seen l : list str) : NoDup (unique_from seen l).
Proof.
  revert seen. induction l as [|k t IH]; intros seen; simpl.
  - constructor.
  - destruct (str_in k seen); [apply IH |].
    constructor; [| apply IH].
    rewrite unique_from_In. simpl. tauto.
Qed.

Lemma unique_In (l : list str) (x : str) : In x (unique l) <-> In x l.
Proof. unfold unique. rewrite unique_from_In. simpl. tauto. Qed.

Lemma unique_NoDup (l : list str) : NoDup (unique l).
Proof. apply unique_from_NoDup. Qed.

Lemma add_keys_from_In (i : nat) (df : list source_row) (kr : keyed_row) :
  In kr (add_keys_from i df) ->
  In (k_row kr) df
  /\ k_key kr = match_project_key (project_id (k_row kr)) (projeto (k_row kr)).
Proof.
  revert i. induction df as [|r t IH]; intros i; simpl; [tauto |].
  intros [<- | H]; simpl; [auto |].
  apply IH in H. tauto.
Qed.

Lemma add_keys_from_complete (i : nat) (df : list source_row) (r : source_row) :
  In r df -> exists kr, In kr (add_keys_from i df) /\ k_row kr = r.
Proof.
  revert i. induction df as [|r' t IH]; intros i; simpl; [tauto |].
  intros [-> | H].
  - eexists. split; [left; reflexivity | reflexivity].
  - destruct (IH (S i) H) as [kr [H1 H2]]. exists kr. auto.
Qed.

Section MergeLeft.
Context {A : Type} (key_of : A -> str).

Lemma merge_left_In (left : list A) (right : list keyed_row) l o :
  In (l, o) (merge_left key_of left right) ->
  In l left
  /\ match o with
     | Some r => In r right /\ k_key r = key_of l
     | None => forall r, In r right -> k_key r <> key_of l
     end.
Proof.
  unfold merge_left. rewrite in_flat_map. intros [l' [Hl' Hin]].
  destruct (filter _ right) as [|m ms] eqn:E.
  - destruct Hin as [Heq | []]. injection Heq as -> <-.
    split; [assumption |]. intros r Hr Hk.
    assert (In r (filter (fun r => str_eqb (k_key r) (key_of l)) right)) as Hf.
    { apply filter_In. split; [assumption | now apply str_eqb_eq]. }
    rewrite E in Hf. destruct Hf.
  - apply in_map_iff in Hin. destruct Hin as [r [Heq Hr]].
    injection Heq as -> <-. split; [assumption |].
    rewrite <- E in Hr. apply filter_In in Hr. destruct Hr as [Hr Hk].
    apply str_eqb_eq in Hk. auto.
Qed.

Lemma merge_left_match (left : list A) (right : list keyed_row) l r :
  In l left -> In r right -> k_key r = key_of l ->
  In (l, Some r) (merge_left key_of left right).
Proof.
  intros Hl Hr Hk. unfold merge_left. apply in_flat_map. exists l.
  split; [assumption |].
  assert (In r (filter (fun r => str_eqb (k_key r) (key_of l)) right)) as Hf.
  { apply filter_In. split; [assumption | now apply str_eqb_eq]. }
  destruct (filter _ right) as [|m ms]; [destruct Hf |].
  apply in_map_iff. exists r. auto.
Qed.

Lemma merge_left_keeps (left : list A) (right : list keyed_row) l :
  In l left -> exists o, In (l, o) (merge_left key_of left right).
Proof.
  intros Hl. unfold merge_left.
  destruct (filter (fun r => str_eqb (k_key r) (key_of l)) right) as [|m ms] eqn:E.
  - exists None. apply in_flat_map. exists l. rewrite E. simpl. auto.
  - exists (Some m). apply in_flat_map. exists l. rewrite E. simpl. auto.
Qed.
End MergeLeft.

(** A joined row holds source rows of its own key only. *)
Lemma merge_all_key (base : list str) (p h c : list keyed_row) (j : joined_row) :
  In j (merge_all base p h c) ->
  In (match_key j) base
  /\ (forall r, j_projeto j = Some r -> In r p /\ k_key r = match_key j)
  /\ (forall r, j_horas j = Some r -> In r h /\ k_key r = match_key j)
  /\ (forall r, j_custo j = Some r -> In r c /\ k_key r = match_key j).
Proof.
  unfold merge_all. intros Hin. apply in_map_iff in Hin.
  destruct Hin as [[[[k op] oh] oc] [<- H3]]. simpl.
  apply merge_left_In in H3. destruct H3 as [H2 Hc]. simpl in Hc.
  apply merge_left_In in H2. destruct H2 as [H1 Hh]. simpl in Hh.
  apply merge_left_In in H1. destruct H1 as [Hb Hp]. simpl in Hp.
  split; [assumption |].
  split; [| split]; intros r ->; tauto.
Qed.

(** No source row is lost: a row whose key is in the base appears in a
    joined row of that key. *)
Lemma merge_all_projeto (base : list str) (p h c : list keyed_row) (r : keyed_row) :
  In (k_key r) base -> In r p ->
  exists j, In j (merge_all base p h c) /\ match_key j = k_key r /\ j_projeto j = Some r.
Proof.
  intros Hb Hr. unfold merge_all.
  pose proof (merge_left_match (fun k => k) base p (k_key r) r Hb Hr eq_refl) as H1.
  destruct (merge_left_keeps (fun x => fst x) _ h _ H1) as [oh H2].
  destruct (merge_left_keeps (fun x => fst (fst x)) _ c _ H2) as [oc H3].
  eexists. split; [apply in_map_iff; eexists; split; [reflexivity | exact H3] |].
  simpl. auto.
Qed.

Lemma merge_all_horas (base : list str) (p h c : list keyed_row) (r : keyed_row) :
  In (k_key r) base -> In r h ->
  exists j, In j (merge_all base p h c) /\ match_key j = k_key r /\ j_horas j = Some r.
Proof.
  intros Hb Hr. unfold merge_all.
  destruct (merge_left_keeps (fun k => k) base p _ Hb) as [op H1].
  pose proof (merge_left_match (fun x => fst x) _ h _ r H1 Hr eq_refl) as H2.
  destruct (merge_left_keeps (fun x => fst (fst x)) _ c _ H2) as [oc H3].
  eexists. split; [apply in_map_iff; eexists; split; [reflexivity | exact H3] |].
  simpl. auto.
Qed.

Lemma merge_all_custo (base : list str) (p h c : list keyed_row) (r : keyed_row) :
  In (k_key r) base -> In r c ->
  exists j, In j (merge_all base p h c) /\ match_key j = k_key r /\ j_custo j = Some r.
Proof.
  intros Hb Hr. unfold merge_all.
  destruct (merge_left_keeps (fun k => k) base p _ Hb) as [op H1].
  destruct (merge_left_keeps (fun x => fst x) _ h _ H1) as [oh H2].
  pose proof (merge_left_match (fun x => fst (fst x)) _ c _ r H2 Hr eq_refl) as H3.
  eexists. split; [apply in_map_iff; eexists; split; [reflexivity | exact H3] |].
  simpl. auto.
Qed.

(** ** Rows without identifier and name *)

Lemma match_project_key_unidentified (pid nm : cell) :
  id_missing_or_blank pid = true -> name_missing nm = true ->
  match_project_key pid nm = "".
Proof.
  unfold id_missing_or_blank, name_missing, match_project_key.
  intros Hid Hnm.
  assert (truthy pid && negb (pd_isna pid) && truthy (CStr (strip (py_str pid))) = false) as ->.
  { destruct (pd_isna pid) eqn:E; [now rewrite andb_false_r |].
    simpl in Hid. destruct pid; try discriminate.
    apply str_eqb_eq in Hid. simpl. rewrite Hid. now rewrite andb_false_r. }
  assert (truthy nm && negb (pd_isna nm) = false) as ->.
  { destruct (pd_isna nm) eqn:E; [now rewrite andb_false_r |].
    simpl in Hnm. destruct nm as [| [|] | |]; try discriminate. reflexivity. }
  reflexivity.
Qed.

(** C10, as amended.  A row whose identifier is missing or blank and whose
    display name is missing gets the empty key; the empty key is one key
    of the key universe; the row is carried by a joined row of that key
    and by joined rows of that key only. *)
Theorem unidentified_rows_share_empty_key
  (projetos horas custos : list source_row) (r : source_row)
  (Hin : In r projetos \/ In r horas \/ In r custos)
  (Hid : id_missing_or_blank (project_id r) = true)
  (Hname : name_missing (projeto r) = true) :
  match_project_key (project_id r) (projeto r) = ""
  /\ count_occ (list_eq_dec ascii_dec)
       (all_keys (add_keys projetos) (add_keys horas) (add_keys custos)) "" = 1%nat
  /\ (exists j, In j (full_outer_join_data projetos horas custos)
                /\ match_key j = "" /\ carries j r)
  /\ (forall j, In j (full_outer_join_data projetos horas custos) ->
                carries j r -> match_key j = "").
Proof.
  pose proof (match_project_key_unidentified _ _ Hid Hname) as Hkey.
  assert (forall df kr, In kr (add_keys df) -> k_row kr = r -> k_key kr = "") as Hk.
  { intros df kr Hkr <-. apply add_keys_from_In in Hkr. destruct Hkr as [_ ->]. exact Hkey. }
  assert (In (list_ascii_of_string "")
            (all_keys (add_keys projetos) (add_keys horas) (add_keys custos))) as Hbase.
  { unfold all_keys. apply unique_In. rewrite !in_app_iff, !in_map_iff.
    destruct Hin as [H | [H | H]];
      destruct (add_keys_from_complete 0 _ _ H) as [kr [H1 H2]];
      [left | right; left | right; right]; exists kr; split; eauto. }
  split; [exact Hkey |]. split; [| split].
  - apply NoDup_count_occ'; [apply unique_NoDup | exact Hbase].
  - unfold full_outer_join_data, carries.
    destruct Hin as [H | [H | H]];
      destruct (add_keys_from_complete 0 _ _ H) as [kr [H1 H2]];
      pose proof (Hk _ _ H1 H2) as Hkr.
    + destruct (merge_all_projeto (all_keys (add_keys projetos) (add_keys horas) (add_keys custos))
                  (add_keys projetos) (add_keys horas) (add_keys custos) kr)
        as [j [Hj [Hm Hs]]]; [rewrite Hkr; exact Hbase | exact H1 |].
      exists j. rewrite Hm, Hkr. repeat split; [exact Hj |]. exists kr. auto.
    + destruct (merge_all_horas (all_keys (add_keys projetos) (add_keys horas) (add_keys custos))
                  (add_keys projetos) (add_keys horas) (add_keys custos) kr)
        as [j [Hj [Hm Hs]]]; [rewrite Hkr; exact Hbase | exact H1 |].
      exists j. rewrite Hm, Hkr. repeat split; [exact Hj |]. exists kr. auto.
    + destruct (merge_all_custo (all_keys (add_keys projetos) (add_keys horas) (add_keys custos))
                  (add_keys projetos) (add_keys horas) (add_keys custos) kr)
        as [j [Hj [Hm Hs]]]; [rewrite Hkr; exact Hbase | exact H1 |].
      exists j. rewrite Hm, Hkr. repeat split; [exact Hj |]. exists kr. auto.
  - intros j Hj [kr [Hr Hs]]. unfold full_outer_join_data in Hj.
    apply merge_all_key in Hj. destruct Hj as [_ [Hp [Hh Hc]]].
    destruct Hs as [Hs | [Hs | Hs]];
      [apply Hp in Hs | apply Hh in Hs | apply Hc in Hs];
      destruct Hs as [Hs <-]; eapply Hk; eauto.
Qed.

Lemma unidentified_rows_share_empty_key_witness :
  match_project_key CNone (CStr "") = ""
  /\ count_occ (list_eq_dec ascii_dec)
       (all_keys
          (add_keys [ {| project_id := CNone; projeto := CStr ""; payload := [] |} ])
          (add_keys [ {| project_id := CStr "  "; projeto := CNone; payload := [] |} ])
          (add_keys [ {| project_id := CStr "P1"; projeto := CStr "Alfa"; payload := [] |} ]))
       "" = 1%nat.
Proof.
  pose proof
    (unidentified_rows_share_empty_key
       [ {| project_id := CNone; projeto := CStr ""; payload := [] |} ]
       [ {| project_id := CStr "  "; projeto := CNone; payload := [] |} ]
       [ {| project_id := CStr "P1"; projeto := CStr "Alfa"; payload := [] |} ]
       {| project_id := CNone; projeto := CStr ""; payload := [] |}
       (or_introl (or_introl eq_refl)) eq_refl eq_refl) as H.
  split; [exact (proj1 H) | exact (proj1 (proj2 H))].
Defined.

(** C10 as stated fails in two places.  A display name that is not a
    string is converted with [str] before it is standardised, so a number
    yields its decimal text as key; and two unidentifiable rows of one
    table stay two joined rows, both under the empty key. *)
Lemma unidentified_rows_counterexample :
  id_missing_or_blank CNone = true
  /\ name_missing_or_not_str (CInt 42) = true
  /\ match_project_key CNone (CInt 42) = "42"
  /\ map (fun j => (match_key j, projeto_source_id j))
       (full_outer_join_data
          [ {| project_id := CNone; projeto := CNone; payload := [CStr "a"] |};
            {| project_id := CStr " "; projeto := CStr ""; payload := [CStr "b"] |} ]
          [] [])
     = [ (list_ascii_of_string "", Some 0%nat); (list_ascii_of_string "", Some 1%nat) ].
Proof. repeat split. Qed.

(** ** KPIs: planned and actual cost *)

Lemma opt_str_eqb_eq (a b : option str) : opt_str_eqb a b = true <-> a = b.
Proof.
  destruct a as [s|], b as [t|]; simpl; split; intros H;
    try reflexivity; try discriminate.
  - apply str_eqb_eq in H. now subst.
  - injection H as ->. apply str_eqb_refl.
Qed.

Lemma id_in_In (i : option str) (ids : list (option str)) :
  id_in i ids = true <-> In i ids.
Proof.
  unfold id_in. rewrite existsb_exists. split.
  - intros [x [Hx He]]. apply opt_str_eqb_eq in He. now subst.
  - intros H. exists i. split; [assumption | now apply opt_str_eqb_eq].
Qed.

Lemma id_in_ext (i : option str) (l1 l2 : list (option str)) :
  (forall x, In x l1 <-> In x l2) -> id_in i l1 = id_in i l2.
Proof.
  intros H. apply eq_true_iff_eq. rewrite !id_in_In. apply H.
Qed.

Lemma drop_duplicates_from_snoc (seen : list (option str)) (df : list kpi_row)
  (r : kpi_row) :
  drop_duplicates_from seen (df ++ [r])
  = drop_duplicates_from seen df
    ++ (if id_in (d_project_id r) (seen ++ map d_project_id df) then [] else [r]).
Proof.
  revert seen. induction df as [|r' t IH]; intros seen; simpl.
  - rewrite List.app_nil_r. fold (id_in (d_project_id r) seen).
    destruct (id_in (d_project_id r) seen); reflexivity.
  - fold (id_in (d_project_id r') seen).
    destruct (id_in (d_project_id r') seen) eqn:E.
    + rewrite IH. f_equal.
      rewrite (id_in_ext _ (seen ++ d_project_id r' :: map d_project_id t)
                 (seen ++ map d_project_id t)); [reflexivity |].
      intros x. rewrite !in_app_iff. simpl. apply id_in_In in E.
      split; [intros [H | [<- | H]] | intros [H | H]]; auto.
    + rewrite IH. simpl. f_equal.
      rewrite (id_in_ext _ (seen ++ d_project_id r' :: map d_project_id t)
                 ((d_project_id r' :: seen) ++ map d_project_id t)); [reflexivity |].
      intros x. simpl. rewrite !in_app_iff. simpl. tauto.
Qed.

Lemma drop_duplicates_from_In (seen : list (option str)) (df : list kpi_row)
  (i : option str) :
  In i (map d_project_id (drop_duplicates_from seen df))
  <-> In i (map d_project_id df) /\ ~ In i seen.
Proof.
  revert seen. induction df as [|r t IH]; intros seen; simpl; [tauto |].
  fold (id_in (d_project_id r) seen).
  destruct (id_in (d_project_id r) seen) eqn:E.
  - apply id_in_In in E. rewrite IH. split.
    + tauto.
    + intros [[<- | H] Hn]; [contradiction | auto].
  - assert (~ In (d_project_id r) seen) as Hn.
    { intros H. apply id_in_In in H. congruence. }
    simpl. rewrite IH. simpl. split.
    + intros [<- | [H1 H2]]; [auto | tauto].
    + intros [[<- | H] H']; [auto |].
      destruct (id_in (d_project_id r) [i]) eqn:E'.
      * apply id_in_In in E'. destruct E' as [-> | []]. auto.
      * right. split; [assumption |]. intros [<- | H2]; [| contradiction].
        simpl in E'. rewrite (proj2 (opt_str_eqb_eq _ _) eq_refl) in E'. discriminate.
Qed.

Lemma drop_duplicates_from_NoDup (seen : list (option str)) (df : list kpi_row) :
  NoDup (map d_project_id (drop_duplicates_from seen df)).
Proof.
  revert seen. induction df as [|r t IH]; intros seen; simpl; [constructor |].
  destruct (existsb (opt_str_eqb (d_project_id r)) seen); [apply IH |].
  simpl. constructor; [| apply IH].
  rewrite drop_duplicates_from_In. simpl. tauto.
Qed.

Lemma sumQ_snoc (l : list Q) (x : Q) : sumQ (l ++ [x]) = (sumQ l + x)%Q.
Proof. unfold sumQ. now rewrite fold_left_app. Qed.

(** C6.  [planned_costs] is the sum of the planned cost over the table
    deduplicated on the project identifier, in which every identifier of
    the table occurs exactly once: a further row of a project already in
    the table leaves it unchanged.  [actual_costs] is the sum of the cost
    value over all rows: every further row adds its value. *)
Theorem planned_costs_once_actual_costs_all (df : list kpi_row) (r : kpi_row) :
  planned_costs (calculate_kpis df)
  = sumQ (map custo_previsto_clean (drop_duplicates df))
  /\ NoDup (map d_project_id (drop_duplicates df))
  /\ (forall i, In i (map d_project_id (drop_duplicates df))
               <-> In i (map d_project_id df))
  /\ planned_costs (calculate_kpis (df ++ [r]))
     = (if id_in (d_project_id r) (map d_project_id df)
        then planned_costs (calculate_kpis df)
        else (planned_costs (calculate_kpis df) + custo_previsto_clean r)%Q)
  /\ actual_costs (calculate_kpis df) = sumQ (map valor_clean df)
  /\ actual_costs (calculate_kpis (df ++ [r]))
     = (actual_costs (calculate_kpis df) + valor_clean r)%Q
  /\ planned_costs (calculate_kpis []) = 0%Q
  /\ actual_costs (calculate_kpis []) = 0%Q.
Proof.
  split; [reflexivity |].
  split; [apply drop_duplicates_from_NoDup |].
  split; [intros i; unfold drop_duplicates; rewrite drop_duplicates_from_In; simpl; tauto |].
  split.
  - simpl. unfold drop_duplicates. rewrite drop_duplicates_from_snoc. simpl.
    destruct (id_in (d_project_id r) (map d_project_id df)).
    + now rewrite List.app_nil_r.
    + rewrite map_app. simpl map. now rewrite sumQ_snoc.
  - split; [reflexivity |]. split; [| split; reflexivity].
    simpl. rewrite map_app. simpl map. now rewrite sumQ_snoc.
Qed.

(** ** KPIs: projects per status *)

Lemma dropna_In {A} (l : list (option A)) (a : A) : In a (dropna l) <-> In (Some a) l.
Proof.
  induction l as [|[b|] t IH]; simpl.
  - tauto.
  - rewrite IH. split; intros [H | H]; auto; left; congruence.
  - rewrite IH. split; [auto | intros [H | H]; [discriminate | auto]].
Qed.

Lemma list_sum_add {A} (f g : A -> nat) (l : list A) :
  list_sum (map (fun x => (f x + g x)%nat) l)
  = (list_sum (map f l) + list_sum (map g l))%nat.
Proof. induction l as [|x t IH]; simpl; [reflexivity | rewrite IH; lia]. Qed.

Lemma list_sum_indicator (S : list str) (o : option str) :
  NoDup S ->
  list_sum (map (fun s => if opt_str_eqb o (Some s) then 1%nat else 0%nat) S)
  = match o with
    | Some s => if str_in s S then 1%nat else 0%nat
    | None => 0%nat
    end.
Proof.
  intros HS. induction HS as [|s S Hs HS IH]; simpl.
  - destruct o; reflexivity.
  - rewrite IH. destruct o as [t|]; simpl; [| reflexivity].
    destruct (str_eqb t s) eqn:E; simpl; [| reflexivity].
    apply str_eqb_eq in E. subst t.
    apply str_in_false in Hs. now rewrite Hs.
Qed.

(** Counting the members of [U] class by class counts every member
    once. *)
Lemma partition_count (f : str -> option str) (S U : list str) :
  NoDup S ->
  (forall i, In i U -> exists s, f i = Some s /\ In s S) ->
  list_sum (map (fun s => length (filter (fun i => opt_str_eqb (f i) (Some s)) U)) S)
  = length U.
Proof.
  intros HS. induction U as [|i U IH]; intros Hf; simpl.
  - clear HS Hf. induction S as [|s S IHS]; simpl; [reflexivity | exact IHS].
  - rewrite <- IH by (intros j Hj; apply Hf; now right).
    transitivity
      (list_sum
         (map (fun s =>
                 ((if opt_str_eqb (f i) (Some s) then 1 else 0)
                  + length (filter (fun j => opt_str_eqb (f j) (Some s)) U))%nat) S)).
    + f_equal. apply map_ext. intros s.
      destruct (opt_str_eqb (f i) (Some s)); reflexivity.
    + rewrite list_sum_add, list_sum_indicator by assumption.
      destruct (Hf i (or_introl eq_refl)) as [s [-> Hs]].
      apply str_in_In in Hs. now rewrite Hs.
Qed.

Lemma find_id_some (df : list kpi_row) (i : str) (r : kpi_row) :
  In r df -> d_project_id r = Some i ->
  exists r0, find (fun r => opt_str_eqb (d_project_id r) (Some i)) df = Some r0.
Proof.
  intros Hin Hid.
  destruct (find _ df) as [r0|] eqn:E; [eauto |].
  exfalso. pose proof (find_none _ _ E r Hin) as H. simpl in H.
  rewrite Hid in H. simpl in H. now rewrite str_eqb_refl in H.
Qed.

Section StatusCounts.
Variable df : list kpi_row.
Hypothesis has_status :
  forall r, In r df -> d_project_id r <> None -> d_status r <> None.
Hypothesis one_status :
  forall r1 r2, In r1 df -> In r2 df ->
    d_project_id r1 = d_project_id r2 -> d_project_id r1 <> None ->
    d_status r1 = d_status r2.

Lemma status_of_row (r : kpi_row) (i : str) :
  In r df -> d_project_id r = Some i -> status_of df i = d_status r.
Proof.
  intros Hin Hid. unfold status_of.
  destruct (find_id_some df i r Hin Hid) as [r0 E]. rewrite E.
  apply find_some in E. destruct E as [Hin0 Hid0].
  apply opt_str_eqb_eq in Hid0.
  apply one_status; congruence.
Qed.

Lemma status_group_ids (s : str) :
  nunique (map d_project_id (filter (fun r => opt_str_eqb (d_status r) (Some s)) df))
  = length (filter (fun i => opt_str_eqb (status_of df i) (Some s))
              (unique (dropna (map d_project_id df)))).
Proof.
  unfold nunique. apply Permutation_length. apply NoDup_Permutation.
  - apply unique_NoDup.
  - apply NoDup_filter, unique_NoDup.
  - intros i. rewrite unique_In, dropna_In, in_map_iff, filter_In,
      unique_In, dropna_In, in_map_iff. split.
    + intros [r [Hid Hr]]. apply filter_In in Hr. destruct Hr as [Hin Hs].
      split; [eauto |].
      rewrite (status_of_row r i Hin Hid). exact Hs.
    + intros [[r [Hid Hin]] Hs].
      rewrite (status_of_row r i Hin Hid) in Hs.
      exists r. split; [assumption |]. apply filter_In. auto.
Qed.

Lemma status_counts_total :
  list_sum (map snd (status_counts_of df)) = nunique (map d_project_id df).
Proof.
  unfold status_counts_of. rewrite map_map. simpl.
  rewrite (map_ext _ _ status_group_ids).
  unfold nunique at 1.
  apply (partition_count (status_of df)); [apply unique_NoDup |].
  intros i Hi. apply unique_In, dropna_In, in_map_iff in Hi.
  destruct Hi as [r [Hid Hin]].
  rewrite (status_of_row r i Hin Hid).
  destruct (d_status r) as [s|] eqn:Es.
  - exists s. split; [reflexivity |].
    apply unique_In, dropna_In, in_map_iff. eauto.
  - exfalso. apply (has_status r Hin); congruence.
Qed.
End StatusCounts.

(** C8, as amended.  In a table in which every row with a project
    identifier has a status, and the rows of one project identifier agree
    on it, the per-status counts of distinct project identifiers add up to
    [total_projects]. *)
Theorem status_counts_sum_to_total (df : list kpi_row)
  (has_status : forall r, In r df -> d_project_id r <> None -> d_status r <> None)
  (one_status : forall r1 r2, In r1 df -> In r2 df ->
      d_project_id r1 = d_project_id r2 -> d_project_id r1 <> None ->
      d_status r1 = d_status r2) :
  list_sum (map snd (status_counts (calculate_kpis df)))
  = total_projects (calculate_kpis df).
Proof. simpl. now apply status_counts_total. Qed.

Lemma status_counts_sum_to_total_witness :
  list_sum
    (map snd
       (status_counts
          (calculate_kpis
             [ kpi_row_of (Some (list_ascii_of_string "P1")) (Some (list_ascii_of_string "em dia")) 100 40;
               kpi_row_of (Some (list_ascii_of_string "P1")) (Some (list_ascii_of_string "em dia")) 100 25;
               kpi_row_of (Some (list_ascii_of_string "P2")) (Some (list_ascii_of_string "atrasado")) 70 0 ])))
  = 2%nat.
Proof.
  apply
    (status_counts_sum_to_total
       [ kpi_row_of (Some (list_ascii_of_string "P1")) (Some (list_ascii_of_string "em dia")) 100 40;
         kpi_row_of (Some (list_ascii_of_string "P1")) (Some (list_ascii_of_string "em dia")) 100 25;
         kpi_row_of (Some (list_ascii_of_string "P2")) (Some (list_ascii_of_string "atrasado")) 70 0 ]).
  - intros r [<- | [<- | [<- | []]]] _; discriminate.
  - intros r1 r2 [<- | [<- | [<- | []]]] [<- | [<- | [<- | []]]] H _;
      try reflexivity; discriminate H.
Defined.

(** C8 as stated fails on a cleaned table: a project whose status is
    missing is counted in [total_projects] and in no status group, and a
    project listed under two statuses is counted in both groups. *)
Lemma status_counts_counterexample :
  (select_identified [ kpi_row_of (Some (list_ascii_of_string "P1")) None 100 40 ]
   = [ kpi_row_of (Some (list_ascii_of_string "P1")) None 100 40 ]
   /\ list_sum (map snd (status_counts
        (calculate_kpis [ kpi_row_of (Some (list_ascii_of_string "P1")) None 100 40 ]))) = 0%nat
   /\ total_projects
        (calculate_kpis [ kpi_row_of (Some (list_ascii_of_string "P1")) None 100 40 ]) = 1%nat)
  /\ (list_sum (map snd (status_counts
        (calculate_kpis
           [ kpi_row_of (Some (list_ascii_of_string "P1")) (Some (list_ascii_of_string "em dia")) 100 40;
             kpi_row_of (Some (list_ascii_of_string "P1")) (Some (list_ascii_of_string "atrasado")) 100 25 ]))) = 2%nat
      /\ total_projects
           (calculate_kpis
              [ kpi_row_of (Some (list_ascii_of_string "P1")) (Some (list_ascii_of_string "em dia")) 100 40;
                kpi_row_of (Some (list_ascii_of_string "P1")) (Some (list_ascii_of_string "atrasado")) 100 25 ]) = 1%nat).
Proof. repeat split. Qed.

(** ** Strings: stripping *)

Lemma lstrip_length (s : str) : (length (lstrip s) <= length s)%nat.
Proof.
  induction s as [|c t IH]; simpl; [lia |].
  destruct (isspace c); simpl; lia.
Qed.

Lemma rstrip_length (s : str) : (length (rstrip s) <= length s)%nat.
Proof.
  induction s as [|c t IH]; simpl; [lia |].
  destruct (rstrip t); [destruct (isspace c) |]; simpl in *; lia.
Qed.

Lemma strip_length (s : str) : (length (strip s) <= length s)%nat.
Proof.
  unfold strip. pose proof (rstrip_length (lstrip s)). pose proof (lstrip_length s). lia.
Qed.

Lemma null_tokens_short (s : str) : In s null_tokens -> (length s <= 4)%nat.
Proof.
  intros [<- | [<- | [<- | [<- | []]]]]; simpl; lia.
Qed.

(** A string with more than four characters passes the guard. *)
Lemma long_not_nullish (s : str) : (4 < length s)%nat -> is_nullish (CStr s) = false.
Proof.
  intros H. unfold is_nullish.
  assert (str_in (lower (py_str (CStr s))) null_tokens = false) as ->.
  { apply str_in_false. intros Hin. apply null_tokens_short in Hin.
    simpl in Hin. unfold lower in Hin. rewrite length_map in Hin. lia. }
  destruct s; [simpl in H; lia | reflexivity].
Qed.

(** ** Dates: the year-day-month heuristic *)

(** C3, as amended.  When the stripped date string has 10 characters,
    separators at positions 4 and 7, numeric groups that [int] reads, a
    middle group above 12 and a last group of at most 12, it is rewritten
    as year-month-day, and it is the rewritten string that is tried
    against the formats. *)
Theorem date_heuristic_rewrites (s : str) (y d m : Z)
  (Hlen : length (strip s) = 10%nat)
  (H4 : separator_at 4 (strip s) = true)
  (H7 : separator_at 7 (strip s) = true)
  (Hy : py_int (slice 0 4 (strip s)) = Ok y)
  (Hd : py_int (remove_separators (slice 5 8 (strip s))) = Ok d)
  (Hm : py_int (remove_separators (slice 8 11 (strip s))) = Ok m)
  (Hday : d > 12)
  (Hmonth : m <= 12) :
  date_heuristic (strip s)
  = Ok (format_0d 4 y ++ "-" ++ format_0d 2 m ++ "-" ++ format_0d 2 d)
  /\ standardize_date (CStr s)
     = try_formats formats_to_try
         (format_0d 4 y ++ "-" ++ format_0d 2 m ++ "-" ++ format_0d 2 d).
Proof.
  assert (date_heuristic (strip s)
          = Ok (format_0d 4 y ++ "-" ++ format_0d 2 m ++ "-" ++ format_0d 2 d)) as Hh.
  { unfold date_heuristic. rewrite Hlen. simpl Nat.eqb. cbv iota.
    unfold separator_at in H4, H7. unfold index.
    destruct (nth_error (strip s) 4) as [c4|]; [| discriminate].
    destruct (nth_error (strip s) 7) as [c7|]; [| discriminate].
    unfold bind at 1. rewrite H4. unfold bind at 1. rewrite H7.
    rewrite Hy, Hd, Hm. unfold bind, try_except.
    replace (d >? 12) with true by (symmetry; apply Z.gtb_lt; lia).
    replace (m <=? 12) with true by (symmetry; apply Z.leb_le; lia).
    reflexivity. }
  split; [exact Hh |].
  unfold standardize_date.
  rewrite long_not_nullish by (pose proof (strip_length s); lia).
  simpl py_str. rewrite Hh. reflexivity.
Qed.

Lemma date_heuristic_rewrites_witness :
  standardize_date (CStr "2026-25-01") = Ok (CStr "2026-01-25").
Proof.
  assert (25 > 12) as Hday by reflexivity.
  assert (1 <= 12) as Hmonth by discriminate.
  rewrite (proj2 (date_heuristic_rewrites "2026-25-01" 2026 25 1
                    eq_refl eq_refl eq_refl eq_refl eq_refl eq_refl Hday Hmonth)).
  reflexivity.
Defined.

(** C3 as stated fails: "2026-25-13" has 10 characters, separators at
    positions 4 and 7 and the middle group 25, above 12, and it is not
    rewritten, because its last group is above 12 as well; no format reads
    it, so the result is empty. *)
Lemma date_heuristic_counterexample :
  length (strip "2026-25-13") = 10%nat
  /\ separator_at 4 (strip "2026-25-13") = true
  /\ separator_at 7 (strip "2026-25-13") = true
  /\ py_int (remove_separators (slice 5 8 (strip "2026-25-13"))) = Ok 25
  /\ date_heuristic (strip "2026-25-13") = Ok (list_ascii_of_string "2026-25-13")
  /\ standardize_date (CStr "2026-25-13") = Ok (CStr "").
Proof. repeat split. Qed.

(** ** Percentages: two evaluations *)

(** C4.  The percentage normaliser caps at 100 and has no lower bound:
    "110%" becomes "100%", and "-5" becomes "-5%", below the interval
    [0, 100]. *)
Theorem standardize_conclusao_negative :
  standardize_conclusao (CStr "-5") = Ok (CStr "-5%")
  /\ standardize_conclusao (CStr "-5%") = Ok (CStr "-5%")
  /\ standardize_conclusao (CStr "110%") = Ok (CStr "100%").
Proof. repeat split. Qed.

(** C5.  A percentage whose value is a whole number is written without
    decimals, whatever separator the input used: "42,0%" becomes "42%",
    while "15,1" keeps its comma and "68.91" its point. *)
Theorem standardize_conclusao_whole_number :
  standardize_conclusao (CStr "42,0%") = Ok (CStr "42%")
  /\ standardize_conclusao (CStr "15,1") = Ok (CStr "15,1%")
  /\ standardize_conclusao (CStr "68.91") = Ok (CStr "68.91%").
Proof. repeat split. Qed.

(** ** Currency: the decimal separator *)

Lemma rightmost_from_filter (s : str) (acc : option ascii) :
  fold_left (fun acc c => if is_separator c then Some c else acc) s acc
  = fold_left (fun acc c => if is_separator c then Some c else acc)
      (filter is_separator s) acc.
Proof.
  revert acc. induction s as [|c t IH]; intros acc; simpl; [reflexivity |].
  destruct (is_separator c) eqn:E; simpl; [rewrite E |]; apply IH.
Qed.

Lemma char_in_filter (c : ascii) (p : ascii -> bool) (s : str) :
  p c = true -> char_in c (filter p s) = char_in c s.
Proof.
  intros Hp. induction s as [|x t IH]; simpl; [reflexivity |].
  destruct (p x) eqn:E; simpl; [now rewrite IH |].
  rewrite IH. destruct (Ascii.eqb c x) eqn:Ex; [| reflexivity].
  apply Ascii.eqb_eq in Ex. congruence.
Qed.

Lemma same_separators_rightmost (s t : str) :
  same_separators s t -> rightmost_separator s = rightmost_separator t.
Proof.
  unfold same_separators, rightmost_separator. intros H.
  rewrite (rightmost_from_filter s), (rightmost_from_filter t). now rewrite H.
Qed.

Lemma same_separators_char_in (c : ascii) (s t : str) :
  is_separator c = true -> same_separators s t -> char_in c s = char_in c t.
Proof.
  unfold same_separators. intros Hc H.
  rewrite <- (char_in_filter c is_separator s Hc), <- (char_in_filter c is_separator t Hc).
  now rewrite H.
Qed.

Lemma space_not_separator (c : ascii) : isspace c = true -> is_separator c = false.
Proof.
  unfold is_separator. destruct (Ascii.eqb c ",") eqn:E1.
  - apply Ascii.eqb_eq in E1. subst. discriminate.
  - destruct (Ascii.eqb c ".") eqn:E2; [| reflexivity].
    apply Ascii.eqb_eq in E2. subst. discriminate.
Qed.

Lemma lstrip_separators (s : str) : same_separators (lstrip s) s.
Proof.
  unfold same_separators. induction s as [|c t IH]; simpl; [reflexivity |].
  destruct (isspace c) eqn:E; [| reflexivity].
  now rewrite (space_not_separator c E).
Qed.

Lemma rstrip_separators (s : str) : same_separators (rstrip s) s.
Proof.
  unfold same_separators. induction s as [|c t IH]; simpl; [reflexivity |].
  destruct (rstrip t) as [|x r] eqn:Er.
  - simpl in IH. destruct (isspace c) eqn:E.
    + now rewrite (space_not_separator c E).
    + simpl. now rewrite <- IH.
  - change (filter is_separator (c :: x :: r)) with
      (if is_separator c then c :: filter is_separator (x :: r)
       else filter is_separator (x :: r)).
    now rewrite IH.
Qed.

Lemma strip_separators (s : str) : same_separators (strip s) s.
Proof.
  unfold strip, same_separators.
  rewrite (rstrip_separators (lstrip s)). apply lstrip_separators.
Qed.

Lemma replace_separators (a : ascii) (b s : str) :
  is_separator a = false -> filter is_separator b = [] ->
  same_separators (replace a b s) s.
Proof.
  intros Ha Hb. unfold same_separators, replace.
  induction s as [|c t IH]; simpl; [reflexivity |].
  rewrite filter_app, IH.
  destruct (Ascii.eqb c a) eqn:E.
  - apply Ascii.eqb_eq in E. subst. now rewrite Hb, Ha.
  - simpl. destruct (is_separator c); reflexivity.
Qed.

Lemma apply_corrections_separators (cs : list (ascii * str)) (o : bool) (s : str) :
  Forall (fun p => is_separator (fst p) = false /\ filter is_separator (snd p) = []) cs ->
  same_separators (apply_corrections cs o s) s.
Proof.
  intros H. revert s. induction H as [|[typo corr] cs [Ht Hc] _ IH]; intros s; simpl.
  - reflexivity.
  - destruct (Ascii.eqb (upper_char typo) "O" && o); [apply IH |].
    unfold same_separators in *. rewrite IH.
    now apply replace_separators.
Qed.

Lemma correct_typos_separators (s : str) : same_separators (correct_typos s) s.
Proof.
  assert (Forall (fun p => is_separator (fst p) = false
                           /\ filter is_separator (snd p) = []) typo_corrections) as Hall.
  { repeat constructor. }
  unfold correct_typos. destruct (char_in "o" (lower s)).
  - unfold same_separators. rewrite (apply_corrections_separators _ _ _ Hall).
    rewrite (replace_separators "O" "0" _ eq_refl eq_refl).
    apply (replace_separators "o" "0" _ eq_refl eq_refl).
  - apply (apply_corrections_separators _ _ _ Hall).
Qed.

Lemma filter_keeps_separators (p : ascii -> bool) (s : str) :
  (forall c, is_separator c = true -> p c = true) ->
  same_separators (filter p s) s.
Proof.
  intros H. unfold same_separators.
  induction s as [|c t IH]; [reflexivity |].
  cbn [filter]. destruct (p c) eqn:Ep.
  - cbn [filter]. now rewrite IH.
  - rewrite IH. destruct (is_separator c) eqn:Es; [| reflexivity].
    rewrite (H c Es) in Ep. discriminate.
Qed.

Lemma strip_symbols_separators (s : str) : same_separators (strip_symbols s) s.
Proof.
  apply filter_keeps_separators. intros c E.
  unfold is_separator in E. apply orb_true_iff in E.
  destruct E as [E | E]; apply Ascii.eqb_eq in E; subst; reflexivity.
Qed.

Lemma cleaned_separators (s : str) :
  same_separators (strip_symbols (correct_typos (strip s))) s.
Proof.
  unfold same_separators.
  rewrite (strip_symbols_separators _), (correct_typos_separators _).
  apply strip_separators.
Qed.

Lemma rfind_from_snoc (c x : ascii) (s : str) (i acc : Z) :
  rfind_from c (s ++ [x]) i acc
  = if Ascii.eqb x c then i + Z.of_nat (length s) else rfind_from c s i acc.
Proof.
  revert i acc. induction s as [|y t IH]; intros i acc.
  - simpl. destruct (Ascii.eqb x c); [lia | reflexivity].
  - simpl app. simpl rfind_from. rewrite IH.
    destruct (Ascii.eqb x c); [| reflexivity].
    simpl length. lia.
Qed.

Lemma rfind_from_bound (c : ascii) (s : str) (i acc : Z) :
  acc < i -> rfind_from c s i acc < i + Z.of_nat (length s).
Proof.
  revert i acc. induction s as [|y t IH]; intros i acc H.
  - simpl. lia.
  - simpl rfind_from. simpl length.
    pose proof (IH (i + 1) (if Ascii.eqb y c then i else acc)) as IH'.
    destruct (Ascii.eqb y c); lia.
Qed.

(** The comparison of the two [rfind] positions finds the rightmost
    separator. *)
Lemma rfind_comma_after_dot (t : str) :
  (rfind "," t >? rfind "." t)
  = match rightmost_separator t with
    | Some c => Ascii.eqb c ","
    | None => false
    end.
Proof.
  induction t as [|x t IH] using rev_ind; [reflexivity |].
  unfold rfind, rightmost_separator in *.
  rewrite !rfind_from_snoc, fold_left_app. simpl fold_left.
  pose proof (rfind_from_bound "," t 0 (-1) ltac:(lia)) as Bc.
  pose proof (rfind_from_bound "." t 0 (-1) ltac:(lia)) as Bd.
  unfold is_separator.
  destruct (Ascii.eqb x ",") eqn:Ec.
  - apply Ascii.eqb_eq in Ec. subst x. simpl. apply Z.gtb_lt. lia.
  - destruct (Ascii.eqb x ".") eqn:Ed.
    + apply Ascii.eqb_eq in Ed. subst x. simpl.
      rewrite Z.gtb_ltb. apply Z.ltb_ge. lia.
    + simpl. exact IH.
Qed.

Lemma lower_char_comma (c : ascii) : Ascii.eqb "," (lower_char c) = Ascii.eqb "," c.
Proof. destruct c as [[] [] [] [] [] [] [] []]; reflexivity. Qed.

Lemma char_in_lower_comma (s : str) : char_in "," (lower s) = char_in "," s.
Proof.
  induction s as [|c t IH]; [reflexivity |].
  unfold char_in, lower in *. cbn [map existsb].
  now rewrite lower_char_comma, IH.
Qed.

Lemma comma_not_nullish (s : str) : char_in "," s = true -> is_nullish (CStr s) = false.
Proof.
  intros H. unfold is_nullish.
  assert (str_in (lower (py_str (CStr s))) null_tokens = false) as ->.
  { apply str_in_false. intros Hin. simpl in Hin.
    rewrite <- char_in_lower_comma in H.
    destruct Hin as [E | [E | [E | [E | []]]]]; rewrite <- E in H; discriminate. }
  destruct s; [discriminate | reflexivity].
Qed.

(** C2.  For a currency string with both [,] and [.], the numeral handed
    to [float] is the typo-corrected, symbol-stripped text read with the
    rightmost of the two separators of the input as decimal separator:
    every other separator is removed as thousands grouping.  The three
    examples of the specification evaluate as stated. *)
Theorem currency_rightmost_separator_is_decimal (s : str)
  (Hcomma : char_in "," s = true)
  (Hdot : char_in "." s = true) :
  (exists dec,
      rightmost_separator s = Some dec
      /\ standardize_currency (CStr s)
         = float_or_empty
             (with_decimal_separator dec (strip_symbols (correct_typos (strip s)))))
  /\ standardize_currency (CStr "R$ 16.591,06") = Ok (CFloat (FDec false "1659106" 5))
  /\ float_repr (FDec false "1659106" 5) = "16591.06"
  /\ standardize_currency (CStr "R$ 25.000,0O") = Ok (CFloat (FDec false "25" 5))
  /\ float_repr (FDec false "25" 5) = "25000.0"
  /\ standardize_currency (CStr "R$ -5.000,00") = Ok (CFloat (FDec true "5" 4))
  /\ float_repr (FDec true "5" 4) = "-5000.0".
Proof.
  split; [| repeat split].
  pose proof (cleaned_separators s) as Hsep.
  set (t := strip_symbols (correct_typos (strip s))) in *.
  assert (char_in "," t = true) as Hc
    by (rewrite (same_separators_char_in "," t s eq_refl Hsep); exact Hcomma).
  assert (char_in "." t = true) as Hd
    by (rewrite (same_separators_char_in "." t s eq_refl Hsep); exact Hdot).
  pose proof (rfind_comma_after_dot t) as Hr.
  rewrite (same_separators_rightmost t s Hsep) in Hr.
  assert (standardize_currency (CStr s) = float_or_empty (normalize_separators t)) as ->.
  { unfold standardize_currency. rewrite (comma_not_nullish s Hcomma). reflexivity. }
  unfold normalize_separators. rewrite Hc, Hd. simpl andb. cbv iota. rewrite Hr.
  destruct (rightmost_separator s) as [dec|] eqn:E.
  - exists dec. split; [reflexivity |]. unfold with_decimal_separator.
    destruct (Ascii.eqb dec ","); reflexivity.
  - exfalso. clear Hr.
    rewrite <- (same_separators_rightmost t s Hsep) in E.
    unfold rightmost_separator in E. rewrite rightmost_from_filter in E.
    rewrite <- (char_in_filter "," is_separator t eq_refl) in Hc.
    destruct (filter is_separator t) as [|x l _] eqn:Ef using rev_ind; [discriminate |].
    rewrite fold_left_app in E. simpl in E.
    assert (In x (filter is_separator t)) as Hx
      by (rewrite Ef; apply in_or_app; right; now left).
    apply filter_In in Hx. destruct Hx as [_ Hx]. rewrite Hx in E. discriminate.
Qed.

Lemma currency_rightmost_separator_witness :
  exists dec,
    rightmost_separator "1,234,567.89" = Some dec
    /\ standardize_currency (CStr "1,234,567.89")
       = float_or_empty
           (with_decimal_separator dec
              (strip_symbols (correct_typos (strip "1,234,567.89")))).
Proof.
  exact (proj1 (currency_rightmost_separator_is_decimal "1,234,567.89" eq_refl eq_refl)).
Defined.

(** ** The normalisers raise nothing *)

Lemma bind_raises_only {A B} (r : result A) (k : A -> result B) :
  raises_only_value_error r ->
  (forall a, raises_only_value_error (k a)) ->
  raises_only_value_error (bind r k).
Proof.
  intros Hr Hk e H. destruct r as [a | e']; simpl in H.
  - now apply (Hk a).
  - injection H as <-. now apply Hr.
Qed.

Lemma ok_raises_only {A} (a : A) : raises_only_value_error (Ok a).
Proof. intros e H. discriminate. Qed.

Lemma value_error_raises_only {A} : raises_only_value_error (@Raise A ValueError).
Proof. intros e H. now injection H. Qed.

Lemma py_int_raises_only (s : str) : raises_only_value_error (py_int s).
Proof.
  unfold py_int.
  destruct (remove_underscores (strip_chars numeral_space s)) as [l|]; [| apply value_error_raises_only].
  destruct (split_sign l) as [neg body].
  destruct (span_digits body) as [[|c ds] [|x r]];
    first [apply ok_raises_only | apply value_error_raises_only].
Qed.

Lemma py_float_raises_only (s : str) : raises_only_value_error (py_float s).
Proof.
  unfold py_float.
  destruct (remove_underscores (strip_chars numeral_space s)) as [l|]; [| apply value_error_raises_only].
  destruct (split_sign l) as [neg body].
  destruct (str_eqb (lower body) "inf" || str_eqb (lower body) "infinity");
    [apply ok_raises_only |].
  destruct (str_eqb (lower body) "nan"); [apply ok_raises_only |].
  destruct (parse_decimal neg body);
    [apply ok_raises_only | apply value_error_raises_only].
Qed.

Lemma make_date_raises_only (y m d : Z) : raises_only_value_error (make_date y m d).
Proof.
  unfold make_date.
  destruct (_ && _); [apply ok_raises_only | apply value_error_raises_only].
Qed.

Lemma strptime_raises_only (s fmt : str) : raises_only_value_error (strptime s fmt).
Proof.
  unfold strptime.
  destruct (regex_match (parse_format fmt) s) as [[caps [|x r]]|];
    try apply value_error_raises_only.
  apply bind_raises_only.
  - destruct (captured DY caps); [apply py_int_raises_only |].
    destruct (captured Dy caps); [| apply ok_raises_only].
    apply bind_raises_only; [apply py_int_raises_only | intros; apply ok_raises_only].
  - intros y. unfold field. apply bind_raises_only.
    + destruct (captured Dm caps); [apply py_int_raises_only | apply ok_raises_only].
    + intros m. apply bind_raises_only.
      * destruct (captured Dd caps); [apply py_int_raises_only | apply ok_raises_only].
      * intros d. apply make_date_raises_only.
Qed.

Lemma parse_with_format_raises_only (s fmt : str) :
  raises_only_value_error (parse_with_format s fmt).
Proof.
  unfold parse_with_format.
  apply bind_raises_only; [apply strptime_raises_only |].
  intros dt. apply bind_raises_only; [| intros; apply ok_raises_only].
  destruct (endswith fmt "%y"); [| apply ok_raises_only].
  destruct (year dt <? 100); [| apply ok_raises_only].
  destruct (year dt <? 50); apply make_date_raises_only.
Qed.

Lemma parse_with_format_str (s fmt : str) (r : cell) :
  parse_with_format s fmt = Ok r -> exists t, r = CStr t.
Proof.
  unfold parse_with_format. intros H.
  destruct (strptime s fmt) as [dt|]; [| discriminate]. cbn [bind] in H.
  destruct (if endswith fmt "%y" then _ else _) as [dt'|]; [| discriminate].
  cbn [bind] in H. injection H as <-. eauto.
Qed.

(** The loop over the formats ends with the first format that reads the
    string, or with the empty string. *)
Lemma try_formats_result (fmts : list str) (d : str) :
  try_formats fmts d = Ok (CStr "")
  \/ exists fmt t,
       In fmt fmts /\ parse_with_format d fmt = Ok (CStr t)
       /\ try_formats fmts d = Ok (CStr t).
Proof.
  induction fmts as [|fmt rest IH]; cbn [try_formats]; [now left |].
  destruct (parse_with_format d fmt) as [r | e] eqn:E; run.
  - destruct (parse_with_format_str _ _ _ E) as [t ->].
    right. exists fmt, t. repeat split; [now left | exact E].
  - rewrite (parse_with_format_raises_only d fmt e E). run.
    destruct IH as [IH | [fmt' [t [H1 [H2 H3]]]]]; [now left |].
    right. exists fmt', t. repeat split; [now right | exact H2 | exact H3].
Qed.

Lemma date_heuristic_total (s : str) : exists d, date_heuristic s = Ok d.
Proof.
  unfold date_heuristic.
  destruct (Nat.eqb (length s) 10) eqn:El; [| eauto].
  apply Nat.eqb_eq in El. unfold index.
  destruct (nth_error s 4) as [c4|] eqn:E4;
    [| apply nth_error_None in E4; lia].
  run. destruct (char_in c4 "-./"); [| eauto].
  destruct (nth_error s 7) as [c7|] eqn:E7;
    [| apply nth_error_None in E7; lia].
  run. destruct (char_in c7 "-./"); [| eauto].
  destruct (py_int (slice 0 4 s)) as [y | e] eqn:Ey; run.
  2: { rewrite (py_int_raises_only _ e Ey). run. eauto. }
  destruct (py_int (remove_separators (slice 5 8 s))) as [d | e] eqn:Ed; run.
  2: { rewrite (py_int_raises_only _ e Ed). run. eauto. }
  destruct (py_int (remove_separators (slice 8 11 s))) as [m | e] eqn:Em; run.
  2: { rewrite (py_int_raises_only _ e Em). run. eauto. }
  destruct ((d >? 12) && (m <=? 12)); run; eauto.
Qed.

Lemma to_int_of_integer (n : number) : is_integer n = true -> exists z, to_int n = Ok z.
Proof.
  destruct n as [z | [| neg | neg ds p]];
    cbn [is_integer to_int float_is_integer float_to_int]; intros H;
    try discriminate; eauto.
Qed.

Lemma standardize_date_result (v : cell) :
  standardize_date v = Ok (CStr "")
  \/ exists d fmt t,
       date_heuristic (strip (py_str v)) = Ok d
       /\ In fmt formats_to_try
       /\ parse_with_format d fmt = Ok (CStr t)
       /\ standardize_date v = Ok (CStr t).
Proof.
  unfold standardize_date. destruct (is_nullish v); [now left |].
  destruct (date_heuristic_total (strip (py_str v))) as [d Hd]. rewrite Hd. run.
  destruct (try_formats_result formats_to_try d) as [H | [fmt [t [H1 [H2 H3]]]]];
    [now left |].
  right. exists d, fmt, t. auto.
Qed.

Lemma standardize_currency_result (v : cell) :
  standardize_currency v = Ok (CStr "")
  \/ exists x, py_float (currency_numeral v) = Ok x
               /\ standardize_currency v = Ok (CFloat x).
Proof.
  unfold standardize_currency, currency_numeral.
  destruct (is_nullish v); [now left |].
  destruct (py_float _) as [x | e] eqn:E; run.
  - right. eauto.
  - rewrite (py_float_raises_only _ e E). run. now left.
Qed.

Lemma standardize_conclusao_result (v : cell) :
  standardize_conclusao v = Ok (CStr "")
  \/ exists x t, py_float (conclusao_numeral v) = Ok x
                 /\ standardize_conclusao v = Ok (CStr (t ++ "%")).
Proof.
  unfold standardize_conclusao, conclusao_numeral.
  destruct (is_nullish v); [now left |]. cbv zeta.
  destruct (char_in "," (replace "%" "" (strip (py_str v))));
    (destruct (py_float _) as [x | e] eqn:E; run;
     [| rewrite (py_float_raises_only _ e E); run; now left]);
    right; exists x;
    (destruct (is_integer (min_100 x)) eqn:Ei;
     [destruct (to_int_of_integer _ Ei) as [z ->]; run | ]); eauto.
Qed.

Lemma convert_to_hours_result (v : cell) :
  convert_to_hours v = Ok (HVal CNone)
  \/ (exists x, py_float (replace "," "." (hours_text v)) = Ok x
                /\ convert_to_hours v = Ok (HVal (CFloat x)))
  \/ (exists p0 p1 h m,
         split_on ":" (hours_text v) = [p0; p1]
         /\ py_float p0 = Ok h /\ py_float p1 = Ok m
         /\ convert_to_hours v = Ok (HClock h m)).
Proof.
  unfold convert_to_hours, hours_text.
  destruct (pd_isna v || is_empty_str v); [now left |]. cbv zeta.
  set (text := strip_chars [chr 34; chr 39] (strip (py_str v))).
  assert (try_except (x <- py_float (replace "," "." text) ;; Ok (HVal (CFloat x)))
            [ValueError] (Ok (HVal CNone)) = Ok (HVal CNone)
          \/ exists x, py_float (replace "," "." text) = Ok x
               /\ try_except (x <- py_float (replace "," "." text) ;; Ok (HVal (CFloat x)))
                    [ValueError] (Ok (HVal CNone)) = Ok (HVal (CFloat x))) as Hdec.
  { destruct (py_float (replace "," "." text)) as [x | e] eqn:E; run.
    - right. eauto.
    - rewrite (py_float_raises_only _ e E). run. now left. }
  assert (forall r : result hours_result,
             r = try_except (x <- py_float (replace "," "." text) ;; Ok (HVal (CFloat x)))
                   [ValueError] (Ok (HVal CNone)) ->
             r = Ok (HVal CNone)
             \/ (exists x, py_float (replace "," "." text) = Ok x /\ r = Ok (HVal (CFloat x)))
             \/ (exists p0 p1 h m,
                    split_on ":" text = [p0; p1]
                    /\ py_float p0 = Ok h /\ py_float p1 = Ok m
                    /\ r = Ok (HClock h m))) as Hfall.
  { intros r ->. destruct Hdec as [-> | [x [H1 ->]]]; [now left | right; left; eauto]. }
  destruct (char_in ":" text); [| now apply Hfall].
  destruct (split_on ":" text) as [|p0 [|p1 [|p2 ps]]] eqn:Es; try now apply Hfall.
  destruct (py_float p0) as [h | e] eqn:E0; run.
  2: { rewrite (py_float_raises_only _ e E0). run. now apply Hfall. }
  destruct (py_float p1) as [m | e] eqn:E1; run.
  2: { rewrite (py_float_raises_only _ e E1). run. now apply Hfall. }
  right. right. exists p0, p1, h, m. auto.
Qed.

(** [int.is_integer] is there: the interpreter of Python 3.12 and later
    runs [standardize_conclusao] as defined first. *)
Lemma standardize_conclusao_from_3_12 (v : cell) :
  standardize_conclusao_on From_3_12 v = standardize_conclusao v.
Proof.
  unfold standardize_conclusao_on, standardize_conclusao.
  destruct (is_nullish v); [reflexivity |]. cbv zeta.
  destruct (char_in "," (replace "%" "" (strip (py_str v))));
    (destruct (py_float _) as [x | e]; [| reflexivity]);
    cbn [try_or_return]; now destruct (min_100 x).
Qed.

(** Before Python 3.12 the call [num_value.is_integer()] raises when the
    cap has replaced the float by the integer 100, and only then. *)
Lemma standardize_conclusao_before_3_12 (v : cell) :
  standardize_conclusao_on Before_3_12 v
  = if conclusao_capped v then Raise AttributeError else standardize_conclusao v.
Proof.
  unfold standardize_conclusao_on, standardize_conclusao, conclusao_capped,
    conclusao_numeral.
  destruct (is_nullish v); [reflexivity |]. cbv zeta. cbn [negb andb].
  destruct (char_in "," (replace "%" "" (strip (py_str v))));
    (destruct (py_float _) as [x | e]; [| reflexivity]);
    cbn [try_or_return]; unfold min_100; now destruct (float_lt_100 x).
Qed.

(** C7, as amended.  On every cell (string, empty, null or number) each
    normaliser returns a value and raises nothing, when Python 3.12 or
    later runs the code.  The date, currency and percentage normalisers
    return the empty string unless the text is read (by one of the date
    formats, or by [float]); the duration normaliser returns [None], not
    the empty string, unless the text is read as decimal hours or as
    H:MM; the categorical normalisers return a string: the empty string on
    a null token, a canonical value, or the cleaned text.  Before Python
    3.12 the percentage normaliser raises [AttributeError] when the number
    read is not below 100, and returns the same value otherwise. *)
Theorem normalizers_total (v : cell) :
  (standardize_date v = Ok (CStr "")
   \/ exists d fmt t,
        date_heuristic (strip (py_str v)) = Ok d
        /\ In fmt formats_to_try
        /\ parse_with_format d fmt = Ok (CStr t)
        /\ standardize_date v = Ok (CStr t))
  /\ (standardize_currency v = Ok (CStr "")
      \/ exists x, py_float (currency_numeral v) = Ok x
                   /\ standardize_currency v = Ok (CFloat x))
  /\ (standardize_conclusao v = Ok (CStr "")
      \/ exists x t, py_float (conclusao_numeral v) = Ok x
                     /\ standardize_conclusao v = Ok (CStr (t ++ "%")))
  /\ standardize_conclusao_on From_3_12 v = standardize_conclusao v
  /\ standardize_conclusao_on Before_3_12 v
     = (if conclusao_capped v then Raise AttributeError else standardize_conclusao v)
  /\ (convert_to_hours v = Ok (HVal CNone)
      \/ (exists x, py_float (replace "," "." (hours_text v)) = Ok x
                    /\ convert_to_hours v = Ok (HVal (CFloat x)))
      \/ (exists p0 p1 h m,
             split_on ":" (hours_text v) = [p0; p1]
             /\ py_float p0 = Ok h /\ py_float p1 = Ok m
             /\ convert_to_hours v = Ok (HClock h m)))
  /\ standardize_status v
     = Ok (CStr (if is_nullish v then ""
                 else match lookup (remove_accents (lower (strip (py_str v))))
                              status_mapping with
                      | Some canonical => canonical
                      | None => remove_accents (lower (strip (py_str v)))
                      end))
  /\ (exists t, standardize_approval v = Ok (CStr t)
                /\ (t = "" \/ t = "Sim" \/ t = Nao \/ t = strip (py_str v)))
  /\ (exists t, standardize_remote v = Ok (CStr t)
                /\ (t = "" \/ t = "Sim" \/ t = Nao \/ t = Hibrido
                    \/ t = strip (py_str v))).
Proof.
  split; [apply standardize_date_result |].
  split; [apply standardize_currency_result |].
  split; [apply standardize_conclusao_result |].
  split; [apply standardize_conclusao_from_3_12 |].
  split; [apply standardize_conclusao_before_3_12 |].
  split; [apply convert_to_hours_result |].
  split; [| split].
  - unfold standardize_status. destruct (is_nullish v); [reflexivity |].
    cbv zeta. destruct (lookup _ status_mapping); reflexivity.
  - unfold standardize_approval. destruct (is_nullish v); [eauto |]. cbv zeta.
    repeat match goal with
           | |- context [if ?b then _ else _] => destruct b; [eauto 10 |]
           end.
    eauto 10.
  - unfold standardize_remote. destruct (is_nullish v); [eauto |]. cbv zeta.
    repeat match goal with
           | |- context [if ?b then _ else _] => destruct b; [eauto 10 |]
           end.
    eauto 10.
Qed.

(** C7 as stated fails for the duration normaliser: on text it cannot
    read, and on the empty string, it returns [None], not the empty
    string. *)
Lemma convert_to_hours_counterexample :
  convert_to_hours (CStr "abc") = Ok (HVal CNone)
  /\ convert_to_hours (CStr "") = Ok (HVal CNone)
  /\ HVal CNone <> HVal (CStr "")
  /\ (forall x, py_float (replace "," "." (hours_text (CStr "abc"))) <> Ok x).
Proof.
  repeat split; try discriminate; intros x; vm_compute; discriminate.
Qed.

(* ================================================================= *)
(** * The normalisers applied to their own results *)

(** ** Strings: case, accents and stripping *)

Lemma lower_char_idem (c : ascii) : lower_char (lower_char c) = lower_char c.
Proof. destruct c as [[] [] [] [] [] [] [] []]; vm_compute; reflexivity. Qed.

Lemma isspace_lower_char (c : ascii) : isspace (lower_char c) = isspace c.
Proof. destruct c as [[] [] [] [] [] [] [] []]; vm_compute; reflexivity. Qed.

Lemma strip_accent_idem (c : ascii) : strip_accent (strip_accent c) = strip_accent c.
Proof. destruct c as [[] [] [] [] [] [] [] []]; vm_compute; reflexivity. Qed.

Lemma isspace_strip_accent (c : ascii) : isspace (strip_accent c) = isspace c.
Proof. destruct c as [[] [] [] [] [] [] [] []]; vm_compute; reflexivity. Qed.

Lemma lower_char_unaccented (c : ascii) :
  lower_char (strip_accent (lower_char c)) = strip_accent (lower_char c).
Proof. destruct c as [[] [] [] [] [] [] [] []]; vm_compute; reflexivity. Qed.

Lemma lower_idem (s : str) : lower (lower s) = lower s.
Proof.
  unfold lower. rewrite map_map. apply map_ext. apply lower_char_idem.
Qed.

Lemma remove_accents_idem (s : str) : remove_accents (remove_accents s) = remove_accents s.
Proof.
  unfold remove_accents. rewrite map_map. apply map_ext. apply strip_accent_idem.
Qed.

Lemma lower_unaccented (s : str) :
  lower (remove_accents (lower s)) = remove_accents (lower s).
Proof.
  unfold lower, remove_accents. rewrite !map_map. apply map_ext.
  apply lower_char_unaccented.
Qed.

Lemma lstrip_head (s : str) (c : ascii) (t : str) :
  lstrip s = c :: t -> isspace c = false.
Proof.
  induction s as [|x s IH]; simpl; [discriminate |].
  destruct (isspace x) eqn:E; [exact IH |].
  intros H. injection H as <- <-. exact E.
Qed.

Lemma rstrip_keeps_head (c : ascii) (t : str) :
  isspace c = false -> exists r, rstrip (c :: t) = c :: r.
Proof.
  intros H. simpl. destruct (rstrip t); [rewrite H |]; eauto.
Qed.

Lemma rstrip_idem (s : str) : rstrip (rstrip s) = rstrip s.
Proof.
  induction s as [|c t IH]; [reflexivity |].
  cbn [rstrip]. destruct (rstrip t) as [|x r] eqn:E.
  - destruct (isspace c) eqn:Ec; [reflexivity |].
    cbn [rstrip]. now rewrite Ec.
  - change (rstrip (c :: x :: r)) with
      (match rstrip (x :: r) with
       | [] => if isspace c then [] else [c]
       | r' => c :: r'
       end).
    rewrite IH. reflexivity.
Qed.

Lemma strip_idem (s : str) : strip (strip s) = strip s.
Proof.
  unfold strip.
  destruct (lstrip s) as [|c t] eqn:E; [reflexivity |].
  pose proof (lstrip_head _ _ _ E) as Hc.
  destruct (rstrip_keeps_head c t Hc) as [r Hr]. rewrite Hr.
  cbn [lstrip]. rewrite Hc. rewrite <- Hr. apply rstrip_idem.
Qed.

Section StripMap.
Variable f : ascii -> ascii.
Hypothesis f_space : forall c, isspace (f c) = isspace c.

Lemma lstrip_map (s : str) : lstrip (map f s) = map f (lstrip s).
Proof.
  induction s as [|c t IH]; [reflexivity |].
  cbn [map lstrip]. rewrite f_space. destruct (isspace c); [exact IH | reflexivity].
Qed.

Lemma rstrip_map (s : str) : rstrip (map f s) = map f (rstrip s).
Proof.
  induction s as [|c t IH]; [reflexivity |].
  cbn [map rstrip]. rewrite IH, f_space.
  destruct (rstrip t); [destruct (isspace c) |]; reflexivity.
Qed.

Lemma strip_map (s : str) : strip (map f s) = map f (strip s).
Proof. unfold strip. now rewrite lstrip_map, rstrip_map. Qed.
End StripMap.

Lemma strip_lower (s : str) : strip (lower s) = lower (strip s).
Proof. apply strip_map, isspace_lower_char. Qed.

Lemma strip_remove_accents (s : str) : strip (remove_accents s) = remove_accents (strip s).
Proof. apply strip_map, isspace_strip_accent. Qed.

(** ** Categorical normalisers applied to their own result *)

Lemma not_null_token (s : str) :
  str_in (lower s) null_tokens = false -> s <> [] -> is_nullish (CStr s) = false.
Proof.
  intros H Hne. unfold is_nullish. cbn [pd_isna py_str is_empty_str].
  rewrite H. destruct s; [contradiction | reflexivity].
Qed.

Lemma standardize_prioridade_idem (v : cell) (s : str) :
  standardize_prioridade v = Ok (CStr s) ->
  str_in (lower s) null_tokens = false ->
  standardize_prioridade (CStr s) = Ok (CStr s).
Proof.
  unfold standardize_prioridade at 1.
  destruct (is_nullish v); intros H Hs; injection H as <-; [reflexivity |].
  destruct (lower (strip (py_str v))) as [|c t] eqn:E; [reflexivity |].
  unfold standardize_prioridade.
  rewrite (not_null_token _ Hs) by discriminate.
  cbn [py_str]. rewrite <- E.
  now rewrite strip_lower, strip_idem, lower_idem.
Qed.

Lemma status_mapping_values (k m : str) :
  lookup k status_mapping = Some m ->
  m = "critico" \/ m = "atrasado" \/ m = "em dia" \/ m = "pausado".
Proof.
  unfold status_mapping, str_pairs. cbn [map fst snd lookup].
  repeat match goal with
         | |- (if ?b then _ else _) = _ -> _ =>
             destruct b; [intros H; injection H as <-; tauto |]
         end.
  discriminate.
Qed.

Lemma standardize_status_idem (v : cell) (s : str) :
  standardize_status v = Ok (CStr s) ->
  str_in (lower s) null_tokens = false ->
  standardize_status (CStr s) = Ok (CStr s).
Proof.
  unfold standardize_status at 1.
  destruct (is_nullish v); [intros H _; injection H as <-; reflexivity |].
  cbv zeta.
  destruct (lookup (remove_accents (lower (strip (py_str v)))) status_mapping)
    as [m|] eqn:E; intros H Hs; injection H as <-.
  - destruct (status_mapping_values _ _ E) as [-> | [-> | [-> | ->]]]; reflexivity.
  - destruct (remove_accents (lower (strip (py_str v)))) as [|c t] eqn:Es;
      [reflexivity |].
    unfold standardize_status.
    rewrite (not_null_token _ Hs) by discriminate.
    cbn [py_str]. cbv zeta.
    assert (remove_accents (lower (strip (c :: t))) = c :: t) as ->.
    { rewrite <- Es.
      rewrite strip_remove_accents, strip_lower, strip_idem.
      now rewrite lower_unaccented, remove_accents_idem. }
    now rewrite E.
Qed.

Lemma standardize_approval_idem (v : cell) (s : str) :
  standardize_approval v = Ok (CStr s) ->
  str_in (lower s) null_tokens = false ->
  standardize_approval (CStr s) = Ok (CStr s).
Proof.
  unfold standardize_approval at 1.
  destruct (is_nullish v); [intros H _; injection H as <-; reflexivity |].
  cbv zeta.
  pose proof (strip_idem (py_str v)) as Hw.
  set (w := strip (py_str v)) in *.
  destruct (str_eqb w "Sim") eqn:E1; [intros H _; injection H as <-; reflexivity |].
  destruct (str_eqb w Nao) eqn:E2; [intros H _; injection H as <-; reflexivity |].
  destruct (str_eqb (lower w) "sim") eqn:E3;
    [intros H _; injection H as <-; reflexivity |].
  destruct (str_in (lower w) [nao; list_ascii_of_string "nao"]) eqn:E4;
    [intros H _; injection H as <-; reflexivity |].
  destruct (str_in (lower w) [list_ascii_of_string "s"]) eqn:E5;
    [intros H _; injection H as <-; reflexivity |].
  destruct (str_in (lower w) [list_ascii_of_string "n"]) eqn:E6;
    [intros H _; injection H as <-; reflexivity |].
  intros H Hs. injection H as <-.
  destruct w as [|c t] eqn:Ew; [reflexivity |]. rewrite <- Ew in *.
  unfold standardize_approval.
  rewrite (not_null_token _ Hs) by (rewrite Ew; discriminate).
  cbn [py_str]. cbv zeta. rewrite Hw, E1, E2, E3, E4, E5, E6. reflexivity.
Qed.

Lemma standardize_remote_idem (v : cell) (s : str) :
  standardize_remote v = Ok (CStr s) ->
  str_in (lower s) null_tokens = false ->
  standardize_remote (CStr s) = Ok (CStr s).
Proof.
  unfold standardize_remote at 1.
  destruct (is_nullish v); [intros H _; injection H as <-; reflexivity |].
  cbv zeta.
  pose proof (strip_idem (py_str v)) as Hw.
  set (w := strip (py_str v)) in *.
  destruct (str_eqb w Hibrido) eqn:E1; [intros H _; injection H as <-; reflexivity |].
  destruct (str_eqb w "Sim") eqn:E2; [intros H _; injection H as <-; reflexivity |].
  destruct (str_eqb w Nao) eqn:E3; [intros H _; injection H as <-; reflexivity |].
  destruct (str_eqb (lower w) "sim") eqn:E4;
    [intros H _; injection H as <-; reflexivity |].
  destruct (str_in (lower w) [nao; list_ascii_of_string "nao"]) eqn:E5;
    [intros H _; injection H as <-; reflexivity |].
  destruct (str_eqb (lower w) hibrido) eqn:E6;
    [intros H _; injection H as <-; reflexivity |].
  intros H Hs. injection H as <-.
  destruct w as [|c t] eqn:Ew; [reflexivity |]. rewrite <- Ew in *.
  unfold standardize_remote.
  rewrite (not_null_token _ Hs) by (rewrite Ew; discriminate).
  cbn [py_str]. cbv zeta. rewrite Hw, E1, E2, E3, E4, E5, E6. reflexivity.
Qed.

(** ** The categorical normalisers on their own results *)

Lemma null_token_nullish (s : str) :
  str_in (lower s) null_tokens = true -> is_nullish (CStr s) = true.
Proof.
  intros H. unfold is_nullish. cbn [py_str]. rewrite H. apply orb_true_r.
Qed.

(** X1.  A priority cleaned once more stays as it is, unless it is one
    of the null tokens, which becomes ''. *)
Theorem standardize_prioridade_on_its_result (v : cell) (s : str) :
  standardize_prioridade v = Ok (CStr s) ->
  standardize_prioridade (CStr s)
  = Ok (CStr (if str_in (lower s) null_tokens then "" else s)).
Proof.
  intros H. destruct (str_in (lower s) null_tokens) eqn:E.
  - unfold standardize_prioridade. now rewrite null_token_nullish.
  - exact (standardize_prioridade_idem v s H E).
Qed.

Lemma standardize_prioridade_on_its_result_witness :
  standardize_prioridade (CStr "  ALTA ") = Ok (CStr "alta")
  /\ standardize_prioridade (CStr "alta") = Ok (CStr "alta").
Proof.
  split; [reflexivity |].
  exact (standardize_prioridade_on_its_result (CStr "  ALTA ") "alta" eq_refl).
Defined.

(** X2.  For text of Latin-1 characters, as the strings are here, a
    status cleaned once more stays as it is, unless it is one of the null
    tokens, which becomes ''.  (A combining mark, which no Latin-1 text
    has, is dropped after [strip] and can leave whitespace at an end.) *)
Theorem standardize_status_on_its_result (v : cell) (s : str) :
  standardize_status v = Ok (CStr s) ->
  standardize_status (CStr s)
  = Ok (CStr (if str_in (lower s) null_tokens then "" else s)).
Proof.
  intros H. destruct (str_in (lower s) null_tokens) eqn:E.
  - unfold standardize_status. now rewrite null_token_nullish.
  - exact (standardize_status_idem v s H E).
Qed.

Lemma standardize_status_on_its_result_witness :
  standardize_status (CStr " On Hold ") = Ok (CStr "pausado")
  /\ standardize_status (CStr "pausado") = Ok (CStr "pausado").
Proof.
  split; [reflexivity |].
  exact (standardize_status_on_its_result (CStr " On Hold ") "pausado" eq_refl).
Defined.

(** X3.  An approval cleaned once more stays as it is, unless it is one
    of the null tokens, which becomes ''. *)
Theorem standardize_approval_on_its_result (v : cell) (s : str) :
  standardize_approval v = Ok (CStr s) ->
  standardize_approval (CStr s)
  = Ok (CStr (if str_in (lower s) null_tokens then "" else s)).
Proof.
  intros H. destruct (str_in (lower s) null_tokens) eqn:E.
  - unfold standardize_approval. now rewrite null_token_nullish.
  - exact (standardize_approval_idem v s H E).
Qed.

Lemma standardize_approval_on_its_result_witness :
  standardize_approval (CStr " NAO ") = Ok (CStr Nao)
  /\ standardize_approval (CStr Nao) = Ok (CStr Nao).
Proof.
  split; [reflexivity |].
  exact (standardize_approval_on_its_result (CStr " NAO ") Nao eq_refl).
Defined.

(** X4.  A remote-work value cleaned once more stays as it is, unless it
    is one of the null tokens, which becomes ''. *)
Theorem standardize_remote_on_its_result (v : cell) (s : str) :
  standardize_remote v = Ok (CStr s) ->
  standardize_remote (CStr s)
  = Ok (CStr (if str_in (lower s) null_tokens then "" else s)).
Proof.
  intros H. destruct (str_in (lower s) null_tokens) eqn:E.
  - unfold standardize_remote. now rewrite null_token_nullish.
  - exact (standardize_remote_idem v s H E).
Qed.

Lemma standardize_remote_on_its_result_witness :
  standardize_remote (CStr (" " ++ hibrido)) = Ok (CStr Hibrido)
  /\ standardize_remote (CStr Hibrido) = Ok (CStr Hibrido).
Proof.
  split; [reflexivity |].
  exact (standardize_remote_on_its_result (CStr (" " ++ hibrido)) Hibrido eq_refl).
Defined.

(** ** The form of a cleaned status *)

Lemma status_key_normal (w : str) :
  let k := remove_accents (lower (strip w)) in
  lower k = k /\ remove_accents k = k /\ strip k = k.
Proof.
  cbv zeta. split; [apply lower_unaccented |]. split; [apply remove_accents_idem |].
  now rewrite strip_remove_accents, strip_lower, strip_idem.
Qed.

(** X5.  For text of Latin-1 characters, as the strings are here, a
    cleaned status is in lower case, without accents and without
    whitespace around it. *)
Theorem standardize_status_normal_form (v : cell) (s : str) :
  standardize_status v = Ok (CStr s) ->
  lower s = s /\ remove_accents s = s /\ strip s = s.
Proof.
  unfold standardize_status.
  destruct (is_nullish v); [intros H; injection H as <-; repeat split |].
  cbv zeta.
  destruct (lookup (remove_accents (lower (strip (py_str v)))) status_mapping)
    as [m|] eqn:E; intros H; injection H as <-.
  - destruct (status_mapping_values _ _ E) as [-> | [-> | [-> | ->]]]; repeat split.
  - apply status_key_normal.
Qed.

Lemma standardize_status_normal_form_witness :
  standardize_status (CStr [" "%char; "C"%char; "r"%char; chr 205; "t"%char; "i"%char;
                            "c"%char; "o"%char]) = Ok (CStr "critico")
  /\ lower "critico" = "critico".
Proof.
  split; [reflexivity |].
  apply (standardize_status_normal_form
           (CStr [" "%char; "C"%char; "r"%char; chr 205; "t"%char; "i"%char;
                  "c"%char; "o"%char])).
  reflexivity.
Defined.

(** X6.  For text of Latin-1 characters, as the strings are here, the
    text [standardize_status] looks up in its mapping is never
    ['atrasado '], the key with a space at its end: no such text uses that
    entry of the mapping. *)
Theorem status_key_with_space_unused (v : cell) :
  remove_accents (lower (strip (py_str v))) <> "atrasado ".
Proof.
  intros H. pose proof (status_key_normal (py_str v)) as [_ [_ K]].
  cbv zeta in K. rewrite H in K. discriminate K.
Qed.

(** ** Integers and their decimal text *)

Lemma digits_to_Z_snoc (ds : str) (c : ascii) :
  digits_to_Z (ds ++ [c]) = 10 * digits_to_Z ds + digit_val c.
Proof. unfold digits_to_Z. now rewrite fold_left_app. Qed.

Lemma digits_fold_zeros (n : nat) (ds : str) :
  fold_left (fun acc c => 10 * acc + digit_val c) (zeros n ++ ds) 0
  = fold_left (fun acc c => 10 * acc + digit_val c) ds 0.
Proof.
  induction n as [|n IH]; [reflexivity |]. exact IH.
Qed.

Lemma digits_to_Z_leading_zeros (n : nat) (ds : str) :
  digits_to_Z (zeros n ++ ds) = digits_to_Z ds.
Proof. unfold digits_to_Z. now apply digits_fold_zeros. Qed.

Lemma digits_to_Z_trailing_zeros (n : nat) (ds : str) :
  digits_to_Z (ds ++ zeros n) = digits_to_Z ds * 10 ^ Z.of_nat n.
Proof.
  induction n as [|n IH].
  - unfold zeros. simpl repeat. rewrite List.app_nil_r.
    change (Z.of_nat 0) with 0. rewrite Z.pow_0_r. lia.
  - replace (zeros (S n)) with (zeros n ++ ["0"%char]).
    + rewrite app_assoc, digits_to_Z_snoc, IH.
      rewrite Nat2Z.inj_succ, Z.pow_succ_r by lia.
      change (digit_val "0") with 0. lia.
    + unfold zeros. change ["0"%char] with (repeat "0"%char 1).
      rewrite <- repeat_app. f_equal. lia.
Qed.

Lemma digit_val_range (c : ascii) : is_digit c = true -> 0 <= digit_val c <= 9.
Proof.
  unfold is_digit, between, digit_val. intros H.
  apply andb_true_iff in H. destruct H as [H1 H2].
  apply Nat.leb_le in H1, H2. lia.
Qed.

Lemma digits_to_Z_bound (ds : str) :
  all_digits ds -> 0 <= digits_to_Z ds < 10 ^ Z.of_nat (length ds).
Proof.
  induction ds as [|c ds IH] using rev_ind; intros H.
  - simpl. unfold digits_to_Z. simpl. lia.
  - apply Forall_app in H. destruct H as [H1 H2]. inversion H2; subst.
    rewrite digits_to_Z_snoc, length_app. simpl length.
    replace (Z.of_nat (length ds + 1)) with (Z.succ (Z.of_nat (length ds))) by lia.
    rewrite Z.pow_succ_r by lia.
    pose proof (IH H1). pose proof (digit_val_range c H3). lia.
Qed.

Lemma uint_chars_digits (u : Decimal.uint) : all_digits (uint_chars u).
Proof.
  unfold all_digits, uint_chars.
  induction u; simpl; constructor; try reflexivity; assumption.
Qed.

Lemma uint_chars_acc (u : Decimal.uint) (acc : positive) :
  fold_left (fun acc c => 10 * acc + digit_val c) (uint_chars u) (Z.pos acc)
  = Z.pos (Pos.of_uint_acc u acc).
Proof.
  unfold uint_chars. revert acc.
  induction u; intros acc; [reflexivity | ..];
    cbn [NilEmpty.string_of_uint list_ascii_of_string fold_left Pos.of_uint_acc];
    rewrite <- IHu; f_equal;
    match goal with
    | |- context [digit_val ?c] =>
        let v := eval vm_compute in (digit_val c) in change (digit_val c) with v
    end; lia.
Qed.

Lemma uint_chars_value (u : Decimal.uint) : digits_to_Z (uint_chars u) = Z.of_uint u.
Proof.
  unfold digits_to_Z, Z.of_uint.
  induction u; try (simpl; rewrite <- uint_chars_acc; reflexivity).
  - reflexivity.
  - simpl. exact IHu.
Qed.

Lemma uint_chars_nonempty (p : positive) : uint_chars (Pos.to_uint p) <> [].
Proof.
  pose proof (DecimalPos.Unsigned.to_uint_nonnil p) as H.
  unfold uint_chars. destruct (Pos.to_uint p); [contradiction | discriminate ..].
Qed.

(** [str(z)] is an optional minus sign and the digits of [|z|]. *)
Lemma int_repr_digits (z : Z) :
  exists ds,
    int_repr z = (if z <? 0 then "-" else "") ++ ds
    /\ ds <> [] /\ all_digits ds /\ digits_to_Z ds = Z.abs z.
Proof.
  unfold int_repr. destruct z as [|p|p]; simpl Z.to_int.
  - exists ["0"%char]. repeat split; [discriminate | repeat constructor].
  - exists (uint_chars (Pos.to_uint p)). repeat split.
    + apply uint_chars_nonempty.
    + apply uint_chars_digits.
    + rewrite uint_chars_value. unfold Z.of_uint.
      now rewrite DecimalPos.Unsigned.of_to.
  - exists (uint_chars (Pos.to_uint p)). repeat split.
    + apply uint_chars_nonempty.
    + apply uint_chars_digits.
    + rewrite uint_chars_value. unfold Z.of_uint.
      now rewrite DecimalPos.Unsigned.of_to.
Qed.

(** ** The text of a float read back by [float] *)

Lemma digit_cases (c : ascii) :
  is_digit c = true -> In c (list_ascii_of_string "0123456789").
Proof.
  destruct c as [[] [] [] [] [] [] [] []]; vm_compute; intros H;
    try discriminate H; repeat (first [left; reflexivity | right]).
Qed.

Ltac each_digit H :=
  apply digit_cases in H; cbn [In list_ascii_of_string] in H;
  repeat (destruct H as [H | H]; [subst |]); [.. | contradiction].

Lemma digit_numeral (c : ascii) : is_digit c = true -> numeral_char c = true.
Proof. intros H. unfold numeral_char. now rewrite H. Qed.

Lemma digit_decimal (c : ascii) : is_digit c = true -> decimal_char c = true.
Proof. intros H. unfold decimal_char. now rewrite H. Qed.

Lemma decimal_numeral (c : ascii) : decimal_char c = true -> numeral_char c = true.
Proof. destruct c as [[] [] [] [] [] [] [] []]; vm_compute; intros H; congruence. Qed.

Lemma numeral_char_plain (c : ascii) :
  numeral_char c = true ->
  isspace c = false /\ Ascii.eqb c "_" = false /\ Ascii.eqb c "," = false
  /\ Ascii.eqb c "%" = false /\ Ascii.eqb c ":" = false
  /\ Ascii.eqb c (chr 34) = false /\ Ascii.eqb c (chr 39) = false.
Proof.
  destruct c as [[] [] [] [] [] [] [] []]; vm_compute; intros H;
    try discriminate H; repeat split.
Qed.

Lemma all_digits_numeral (ds : str) : all_digits ds -> numeral_text ds.
Proof. apply Forall_impl, digit_numeral. Qed.

Lemma all_digits_decimal (ds : str) : all_digits ds -> decimal_text ds.
Proof. apply Forall_impl, digit_decimal. Qed.

Lemma decimal_text_numeral (s : str) : decimal_text s -> numeral_text s.
Proof. apply Forall_impl, decimal_numeral. Qed.

Lemma all_digits_zeros (k : nat) : all_digits (zeros k).
Proof. induction k; constructor; [reflexivity | assumption]. Qed.

Lemma all_digits_firstn (n : nat) (ds : str) : all_digits ds -> all_digits (firstn n ds).
Proof.
  intros H. rewrite <- (firstn_skipn n ds) in H. now apply Forall_app in H.
Qed.

Lemma all_digits_skipn (n : nat) (ds : str) : all_digits ds -> all_digits (skipn n ds).
Proof.
  intros H. rewrite <- (firstn_skipn n ds) in H. now apply Forall_app in H.
Qed.

(** *** Strings without whitespace and underscores *)

Lemma lstrip_id (s : str) : isspace (hd "0"%char s) = false -> lstrip s = s.
Proof. destruct s as [|c t]; [reflexivity |]. cbn [hd lstrip]. now intros ->. Qed.

Lemma rstrip_id (s : str) : Forall (fun c => isspace c = false) s -> rstrip s = s.
Proof.
  induction 1 as [|c t Hc Ht IH]; [reflexivity |].
  cbn [rstrip]. rewrite IH, Hc. now destruct t.
Qed.

Lemma strip_id (s : str) : Forall (fun c => isspace c = false) s -> strip s = s.
Proof.
  intros H. unfold strip. rewrite lstrip_id; [now apply rstrip_id |].
  destruct H; [reflexivity | assumption].
Qed.

Lemma lstrip_chars_id (cs s : str) :
  Forall (fun c => existsb (Ascii.eqb c) cs = false) s -> lstrip_chars cs s = s.
Proof. destruct 1 as [|c t Hc Ht]; [reflexivity |]. cbn [lstrip_chars]. now rewrite Hc. Qed.

Lemma rstrip_chars_id (cs s : str) :
  Forall (fun c => existsb (Ascii.eqb c) cs = false) s -> rstrip_chars cs s = s.
Proof.
  induction 1 as [|c t Hc Ht IH]; [reflexivity |].
  cbn [rstrip_chars]. rewrite IH, Hc. now destruct t.
Qed.

Lemma strip_chars_id (cs s : str) :
  Forall (fun c => existsb (Ascii.eqb c) cs = false) s -> strip_chars cs s = s.
Proof. intros H. unfold strip_chars. now rewrite lstrip_chars_id, rstrip_chars_id. Qed.

(** The whitespace [int] and [float] skip is whitespace of [str.strip]. *)
Lemma numeral_space_isspace (c : ascii) :
  isspace c = false -> existsb (Ascii.eqb c) numeral_space = false.
Proof. destruct c as [[] [] [] [] [] [] [] []]; vm_compute; congruence. Qed.

Lemma strip_numeral_id (s : str) :
  Forall (fun c => isspace c = false) s -> strip_chars numeral_space s = s.
Proof.
  intros H. apply strip_chars_id. revert H. apply Forall_impl.
  exact numeral_space_isspace.
Qed.

Lemma remove_underscores_from_id (prev : ascii) (s : str) :
  Ascii.eqb prev "_" = false ->
  Forall (fun c => Ascii.eqb c "_" = false) s ->
  remove_underscores_from prev s = Some s.
Proof.
  intros Hp H. revert prev Hp.
  induction H as [|c t Hc Ht IH]; intros prev Hp; cbn [remove_underscores_from].
  - now rewrite Hp.
  - rewrite Hc, Hp. cbn [andb]. now rewrite IH.
Qed.

Lemma remove_underscores_id (s : str) :
  Forall (fun c => Ascii.eqb c "_" = false) s -> remove_underscores s = Some s.
Proof. now apply remove_underscores_from_id. Qed.

Lemma numeral_text_space (s : str) :
  numeral_text s -> Forall (fun c => isspace c = false) s.
Proof. apply Forall_impl. intros c H. now apply numeral_char_plain in H. Qed.

Lemma numeral_text_underscore (s : str) :
  numeral_text s -> Forall (fun c => Ascii.eqb c "_" = false) s.
Proof. apply Forall_impl. intros c H. now apply numeral_char_plain in H. Qed.

Lemma replace_absent (a : ascii) (b s : str) :
  Forall (fun c => Ascii.eqb c a = false) s -> replace a b s = s.
Proof.
  unfold replace. induction 1 as [|c t Hc Ht IH]; [reflexivity |].
  cbn [flat_map]. now rewrite Hc, IH.
Qed.

Lemma char_in_absent (a : ascii) (s : str) :
  Forall (fun c => Ascii.eqb c a = false) s -> char_in a s = false.
Proof.
  unfold char_in. induction 1 as [|c t Hc Ht IH]; [reflexivity |].
  cbn [existsb]. now rewrite Ascii.eqb_sym, Hc, IH.
Qed.

(** *** Digits and zeros *)

Lemma span_digits_all (ds : str) : all_digits ds -> span_digits ds = (ds, []).
Proof.
  unfold all_digits. induction 1 as [|c t Hc Ht IH]; [reflexivity |].
  cbn [span_digits]. now rewrite Hc, IH.
Qed.

Lemma span_digits_app (ds : str) (c : ascii) (r : str) :
  all_digits ds -> is_digit c = false -> span_digits (ds ++ c :: r) = (ds, c :: r).
Proof.
  unfold all_digits. intros H Hc. induction H as [|x t Hx Ht IH]; cbn [app span_digits].
  - now rewrite Hc.
  - now rewrite Hx, IH.
Qed.

Lemma span_digits_stop (ds r : str) :
  all_digits ds -> is_digit (hd "."%char r) = false -> span_digits (ds ++ r) = (ds, r).
Proof.
  intros H Hr. destruct r as [|c t].
  - rewrite List.app_nil_r. now apply span_digits_all.
  - now apply span_digits_app.
Qed.

Lemma span_digits_spec (s : str) :
  all_digits (fst (span_digits s)) /\ s = fst (span_digits s) ++ snd (span_digits s).
Proof.
  induction s as [|c t [IH1 IH2]]; [split; [constructor | reflexivity] |].
  cbn [span_digits]. destruct (is_digit c) eqn:E.
  - destruct (span_digits t) as [ds r]. cbn [fst snd] in *. split.
    + now constructor.
    + cbn [app]. now f_equal.
  - split; [constructor | reflexivity].
Qed.

Lemma strip_leading_zeros_zeros (k : nat) (ds : str) (q : Z) :
  strip_leading_zeros (zeros k ++ ds) q = strip_leading_zeros ds (q - Z.of_nat k).
Proof.
  revert q. induction k as [|k IH]; intros q.
  - unfold zeros. cbn [repeat app]. f_equal. change (Z.of_nat 0) with 0. lia.
  - unfold zeros in *. cbn [repeat app strip_leading_zeros].
    change (Ascii.eqb "0" "0") with true. cbv iota.
    rewrite IH. f_equal. lia.
Qed.

Lemma strip_leading_zeros_head (ds : str) (q : Z) :
  hd "1"%char ds <> "0"%char -> strip_leading_zeros ds q = (ds, q).
Proof.
  destruct ds as [|c t]; [reflexivity |]. cbn [hd strip_leading_zeros]. intros H.
  destruct (Ascii.eqb_spec c "0"); [contradiction | reflexivity].
Qed.

Lemma strip_leading_zeros_spec (ds : str) (p : Z) :
  exists k, ds = zeros k ++ fst (strip_leading_zeros ds p)
    /\ snd (strip_leading_zeros ds p) = p - Z.of_nat k
    /\ hd "1"%char (fst (strip_leading_zeros ds p)) <> "0"%char.
Proof.
  revert p. induction ds as [|c t IH]; intros p.
  - exists 0%nat. cbn [strip_leading_zeros fst snd hd]. repeat split; [cbn; lia | discriminate].
  - cbn [strip_leading_zeros]. destruct (Ascii.eqb_spec c "0") as [-> | Hc].
    + destruct (IH (p - 1)) as [k [E [Eq Hh]]]. exists (S k).
      split; [| split; [| exact Hh]].
      * unfold zeros in *. cbn [repeat app]. now f_equal.
      * rewrite Eq. lia.
    + exists 0%nat. cbn [fst snd hd]. repeat split; [cbn; lia | exact Hc].
Qed.

Lemma rstrip_zeros_zeros (k : nat) : rstrip_chars "0" (zeros k) = [].
Proof.
  induction k as [|k IH]; [reflexivity |].
  unfold zeros in *. cbn [repeat rstrip_chars]. now rewrite IH.
Qed.

Lemma rstrip_zeros_app (ds : str) (k : nat) :
  rstrip_chars "0" (ds ++ zeros k) = rstrip_chars "0" ds.
Proof.
  induction ds as [|c t IH]; cbn [app].
  - now rewrite rstrip_zeros_zeros.
  - cbn [rstrip_chars]. now rewrite IH.
Qed.

Lemma rstrip_zeros_id (ds : str) :
  last ds "1"%char <> "0"%char -> rstrip_chars "0" ds = ds.
Proof.
  induction ds as [|c t IH]; intros H; [reflexivity |].
  cbn [rstrip_chars]. destruct t as [|x t'].
  - cbn [last] in H. cbn [rstrip_chars list_ascii_of_string existsb].
    destruct (Ascii.eqb_spec c "0"); [contradiction | reflexivity].
  - rewrite IH; [reflexivity | exact H].
Qed.

Lemma rstrip_zeros_spec (ds : str) :
  exists k, ds = rstrip_chars "0" ds ++ zeros k
    /\ last (rstrip_chars "0" ds) "1"%char <> "0"%char.
Proof.
  induction ds as [|c t [k [E L]]].
  - exists 0%nat. split; [reflexivity | discriminate].
  - cbn [rstrip_chars]. destruct (rstrip_chars "0" t) as [|x r].
    + cbn [app] in E. cbn [list_ascii_of_string existsb].
      destruct (Ascii.eqb_spec c "0") as [-> | Hc].
      * exists (S k). split; [now rewrite E | discriminate].
      * exists k. split; [now rewrite E | exact Hc].
    + exists k. split; [cbn [app]; now f_equal | exact L].
Qed.

(** The digits between leading and trailing zeros are the normal form. *)
Lemma mk_dec_normal (neg : bool) (a b : nat) (ds : str) (q : Z) :
  ds <> [] -> hd "1"%char ds <> "0"%char -> last ds "1"%char <> "0"%char ->
  mk_dec neg (zeros a ++ ds ++ zeros b) q = FDec neg ds (q - Z.of_nat a).
Proof.
  intros Hne Hh Hl. unfold mk_dec. rewrite strip_leading_zeros_zeros.
  rewrite strip_leading_zeros_head.
  - rewrite rstrip_zeros_app, rstrip_zeros_id by exact Hl.
    destruct ds; [contradiction | reflexivity].
  - destruct ds; [contradiction | exact Hh].
Qed.

Lemma mk_dec_leading (neg : bool) (a : nat) (ds : str) (q : Z) :
  ds <> [] -> hd "1"%char ds <> "0"%char -> last ds "1"%char <> "0"%char ->
  mk_dec neg (zeros a ++ ds) q = FDec neg ds (q - Z.of_nat a).
Proof.
  intros Hne Hh Hl. rewrite <- (mk_dec_normal neg a 0 ds q) by assumption.
  unfold zeros at 3. cbn [repeat]. now rewrite List.app_nil_r.
Qed.

Lemma mk_dec_trailing (neg : bool) (b : nat) (ds : str) (q : Z) :
  ds <> [] -> hd "1"%char ds <> "0"%char -> last ds "1"%char <> "0"%char ->
  mk_dec neg (ds ++ zeros b) q = FDec neg ds q.
Proof.
  intros Hne Hh Hl. change (ds ++ zeros b) with (zeros 0 ++ ds ++ zeros b).
  rewrite mk_dec_normal by assumption. f_equal. change (Z.of_nat 0) with 0. lia.
Qed.

Lemma mk_dec_id (neg : bool) (ds : str) (q : Z) :
  ds <> [] -> hd "1"%char ds <> "0"%char -> last ds "1"%char <> "0"%char ->
  mk_dec neg ds q = FDec neg ds q.
Proof.
  intros Hne Hh Hl. rewrite <- (mk_dec_trailing neg 0 ds q) by assumption.
  unfold zeros. cbn [repeat]. now rewrite List.app_nil_r.
Qed.

Lemma mk_dec_zero (neg : bool) (k : nat) (q : Z) : mk_dec neg (zeros k) q = FDec neg [] 0.
Proof.
  unfold mk_dec. rewrite <- (List.app_nil_r (zeros k)), strip_leading_zeros_zeros.
  reflexivity.
Qed.

Lemma mk_dec_wf (neg : bool) (ds : str) (q : Z) : all_digits ds -> float_wf (mk_dec neg ds q).
Proof.
  intros H. unfold mk_dec.
  destruct (strip_leading_zeros_spec ds q) as [k [E [Eq Hh]]].
  destruct (strip_leading_zeros ds q) as [ds1 p1]. cbn [fst snd] in *.
  destruct (rstrip_zeros_spec ds1) as [j [E1 Hl]].
  destruct (rstrip_chars "0" ds1) as [|c r].
  - cbn. repeat split; try discriminate; constructor.
  - cbn [float_wf]. rewrite E1 in E, Hh. rewrite E in H.
    apply Forall_app in H. destruct H as [_ H]. apply Forall_app in H.
    repeat split; [tauto | exact Hh | exact Hl | discriminate].
Qed.

(** *** The parts of a numeral *)

Lemma digit_not_a_word (c : ascii) (t : str) :
  is_digit c = true ->
  str_eqb (lower (c :: t)) "inf" = false
  /\ str_eqb (lower (c :: t)) "infinity" = false
  /\ str_eqb (lower (c :: t)) "nan" = false.
Proof. intros H. each_digit H; repeat split. Qed.

Lemma split_sign_sign (neg : bool) (c : ascii) (t : str) :
  is_digit c = true -> split_sign (sign_str neg ++ c :: t) = (neg, c :: t).
Proof. intros H. destruct neg; [reflexivity |]. each_digit H; reflexivity. Qed.

Lemma numeral_text_sign (neg : bool) (s : str) :
  numeral_text s -> numeral_text (sign_str neg ++ s).
Proof. intros H. destruct neg; [constructor; [reflexivity | exact H] | exact H]. Qed.

(** A sign in front of a numeral that starts with a digit. *)
Lemma py_float_numeral (neg : bool) (c : ascii) (t : str) (x : pyfloat) :
  is_digit c = true -> numeral_text (c :: t) ->
  parse_decimal neg (c :: t) = Some x ->
  py_float (sign_str neg ++ c :: t) = Ok x.
Proof.
  intros Hc Ht Hp. unfold py_float.
  rewrite strip_numeral_id by now apply numeral_text_space, numeral_text_sign.
  rewrite remove_underscores_id by now apply numeral_text_underscore, numeral_text_sign.
  rewrite split_sign_sign by exact Hc.
  destruct (digit_not_a_word c t Hc) as [-> [-> ->]].
  cbn [orb]. now rewrite Hp.
Qed.

Lemma exp_repr_digits (e : Z) :
  exists ds, exp_repr e = (if e <? 0 then "-"%char else "+"%char) :: ds
    /\ ds <> [] /\ all_digits ds /\ digits_to_Z ds = Z.abs e.
Proof.
  unfold exp_repr. destruct (int_repr_digits (Z.abs e)) as [ds [E [Hne [Hd Hv]]]].
  assert ((Z.abs e <? 0) = false) as Hs by (apply Z.ltb_ge; lia).
  rewrite Hs in E. cbn [app list_ascii_of_string] in E. rewrite E.
  rewrite (Z.abs_eq (Z.abs e)) in Hv by lia.
  exists (if (length ds <? 2)%nat then "0"%char :: ds else ds). split; [| split; [| split]].
  - destruct (e <? 0), (length ds <? 2)%nat; reflexivity.
  - destruct (length ds <? 2)%nat; [discriminate | exact Hne].
  - destruct (length ds <? 2)%nat; [constructor; [reflexivity | exact Hd] | exact Hd].
  - destruct (length ds <? 2)%nat; [| exact Hv].
    rewrite <- Hv. exact (digits_to_Z_leading_zeros 1 ds).
Qed.

Lemma parse_exponent_repr (e : Z) : parse_exponent ("e"%char :: exp_repr e) = Some e.
Proof.
  destruct (exp_repr_digits e) as [ds [E [Hne [Hd Hv]]]]. rewrite E.
  cbn [parse_exponent]. change (Ascii.eqb "e" "e" || Ascii.eqb "e" "E") with true. cbv iota.
  assert (split_sign ((if e <? 0 then "-"%char else "+"%char) :: ds) = (e <? 0, ds)) as ->
    by (destruct (e <? 0); reflexivity).
  rewrite span_digits_all by exact Hd.
  destruct ds as [|d ds']; [contradiction |]. rewrite Hv.
  f_equal. destruct (Z.ltb_spec e 0); lia.
Qed.

Lemma numeral_text_exp (e : Z) : numeral_text ("e"%char :: exp_repr e).
Proof.
  destruct (exp_repr_digits e) as [ds [E [_ [Hd _]]]]. rewrite E.
  constructor; [reflexivity |]. constructor; [now destruct (e <? 0) |].
  now apply all_digits_numeral.
Qed.

(** Digits, a point, digits and what [parse_exponent] reads. *)
Lemma parse_decimal_point (neg : bool) (ip fp r2 : str) (e : Z) :
  all_digits ip -> all_digits fp -> ip ++ fp <> [] ->
  is_digit (hd "."%char r2) = false -> parse_exponent r2 = Some e ->
  parse_decimal neg (ip ++ "."%char :: fp ++ r2)
  = Some (mk_dec neg (ip ++ fp) (Z.of_nat (length ip) + e)).
Proof.
  intros Hi Hf Hne Hr He. unfold parse_decimal.
  rewrite (span_digits_stop ip ("."%char :: fp ++ r2)) by (exact Hi || reflexivity).
  change (Ascii.eqb "." ".") with true. cbv iota.
  rewrite (span_digits_stop fp r2) by assumption.
  rewrite He. destruct (ip ++ fp); [contradiction | reflexivity].
Qed.

(** Digits followed at once by the exponent. *)
Lemma parse_decimal_exp (neg : bool) (ip t : str) (e : Z) :
  all_digits ip -> ip <> [] -> parse_exponent ("e"%char :: t) = Some e ->
  parse_decimal neg (ip ++ "e"%char :: t)
  = Some (mk_dec neg ip (Z.of_nat (length ip) + e)).
Proof.
  intros Hi Hne He. unfold parse_decimal.
  rewrite (span_digits_stop ip ("e"%char :: t)) by (exact Hi || reflexivity).
  change (Ascii.eqb "e" ".") with false. cbv iota.
  rewrite He, List.app_nil_r. destruct ip; [contradiction | reflexivity].
Qed.

(** *** [float(repr(x))] is [x] *)

Lemma float_repr_positional_small (neg : bool) (ds : str) (p : Z) :
  all_digits ds -> ds <> [] -> hd "1"%char ds <> "0"%char -> last ds "1"%char <> "0"%char ->
  p <= 0 ->
  py_float (sign_str neg ++ "0." ++ zeros (Z.to_nat (- p)) ++ ds) = Ok (FDec neg ds p).
Proof.
  intros Hd Hne Hh Hl Hp.
  change (sign_str neg ++ "0." ++ zeros (Z.to_nat (- p)) ++ ds)
    with (sign_str neg ++ "0"%char :: "."%char :: zeros (Z.to_nat (- p)) ++ ds).
  apply py_float_numeral; [reflexivity | |].
  - constructor; [reflexivity |]. constructor; [reflexivity |].
    apply Forall_app. split; apply all_digits_numeral; [apply all_digits_zeros | exact Hd].
  - pose proof (parse_decimal_point neg ["0"%char] (zeros (Z.to_nat (- p)) ++ ds) [] 0) as P.
    rewrite List.app_nil_r in P. cbn [app] in P. rewrite P.
    + f_equal.
      change ("0"%char :: zeros (Z.to_nat (- p)) ++ ds)
        with (zeros (S (Z.to_nat (- p))) ++ ds).
      rewrite mk_dec_leading by assumption. f_equal. cbn [length]. lia.
    + repeat constructor.
    + apply Forall_app. split; [apply all_digits_zeros | exact Hd].
    + discriminate.
    + reflexivity.
    + reflexivity.
Qed.

Lemma float_repr_positional_whole (neg : bool) (d : ascii) (rest : str) (p : Z) :
  all_digits (d :: rest) -> d <> "0"%char -> last (d :: rest) "1"%char <> "0"%char ->
  Z.of_nat (length (d :: rest)) <= p ->
  py_float (sign_str neg ++ (d :: rest)
              ++ zeros (Z.to_nat p - length (d :: rest)) ++ ".0")
  = Ok (FDec neg (d :: rest) p).
Proof.
  intros Hd Hh Hl Hp. set (ds := d :: rest) in *.
  set (k := (Z.to_nat p - length ds)%nat).
  assert (numeral_text (ds ++ zeros k ++ ".0")) as Hn.
  { apply Forall_app. split; [now apply all_digits_numeral |].
    apply Forall_app. split; [apply all_digits_numeral, all_digits_zeros |].
    repeat constructor. }
  change (ds ++ zeros k ++ ".0") with (d :: rest ++ zeros k ++ ".0") in *.
  apply py_float_numeral; [now inversion Hd | exact Hn |].
  assert (parse_decimal neg ((ds ++ zeros k) ++ "."%char :: ["0"%char] ++ [])
          = Some (mk_dec neg ((ds ++ zeros k) ++ ["0"%char])
                    (Z.of_nat (length (ds ++ zeros k)) + 0))) as P.
  { apply parse_decimal_point.
    - apply Forall_app. split; [exact Hd | apply all_digits_zeros].
    - repeat constructor.
    - discriminate.
    - reflexivity.
    - reflexivity. }
  rewrite <- !app_assoc in P. refine (eq_trans P _).
  f_equal.
  change (zeros k ++ ["0"%char]) with (zeros k ++ zeros 1).
  unfold zeros at 1 2. rewrite <- repeat_app. fold (zeros (k + 1)).
  rewrite mk_dec_trailing; [| discriminate | exact Hh | exact Hl].
  f_equal. rewrite length_app. unfold zeros. rewrite repeat_length.
  subst k. lia.
Qed.

Lemma float_repr_positional_fraction (neg : bool) (d : ascii) (rest : str) (p : Z) :
  all_digits (d :: rest) -> d <> "0"%char -> last (d :: rest) "1"%char <> "0"%char ->
  0 < p < Z.of_nat (length (d :: rest)) ->
  py_float (sign_str neg ++ firstn (Z.to_nat p) (d :: rest)
              ++ "." ++ skipn (Z.to_nat p) (d :: rest))
  = Ok (FDec neg (d :: rest) p).
Proof.
  intros Hd Hh Hl Hp. set (ds := d :: rest) in *.
  destruct (Z.to_nat p) as [|n] eqn:En; [lia |].
  assert (numeral_text (firstn (S n) ds ++ "." ++ skipn (S n) ds)) as Hn.
  { apply Forall_app. split; [now apply all_digits_numeral, all_digits_firstn |].
    constructor; [reflexivity |]. now apply all_digits_numeral, all_digits_skipn. }
  pose proof (parse_decimal_point neg (firstn (S n) ds) (skipn (S n) ds) [] 0) as P.
  rewrite List.app_nil_r, firstn_skipn in P.
  change (firstn (S n) ds ++ "." ++ skipn (S n) ds)
    with (d :: firstn n rest ++ "."%char :: skipn (S n) ds) in *.
  apply py_float_numeral; [now inversion Hd | exact Hn |].
  change (d :: firstn n rest ++ "."%char :: skipn (S n) ds)
    with (firstn (S n) ds ++ "."%char :: skipn (S n) ds).
  rewrite P.
  - f_equal.
    rewrite mk_dec_id; [| discriminate | exact Hh | exact Hl].
    f_equal. rewrite length_firstn. lia.
  - now apply all_digits_firstn.
  - now apply all_digits_skipn.
  - discriminate.
  - reflexivity.
  - reflexivity.
Qed.

Lemma float_repr_scientific (neg : bool) (d : ascii) (rest : str) (p : Z) :
  all_digits (d :: rest) -> d <> "0"%char -> last (d :: rest) "1"%char <> "0"%char ->
  py_float (sign_str neg ++ d :: (match rest with [] => [] | _ => "." ++ rest end)
              ++ "e" ++ exp_repr (p - 1))
  = Ok (FDec neg (d :: rest) p).
Proof.
  intros Hd Hh Hl.
  assert (mk_dec neg (d :: rest) (Z.of_nat 1 + (p - 1)) = FDec neg (d :: rest) p) as Hm.
  { rewrite mk_dec_id; [| discriminate | exact Hh | exact Hl].
    f_equal. change (Z.of_nat 1) with 1. lia. }
  apply py_float_numeral; [now inversion Hd | |].
  - constructor; [apply digit_numeral; now inversion Hd |].
    apply Forall_app. split; [| apply numeral_text_exp].
    destruct rest; [constructor |].
    constructor; [reflexivity |]. apply all_digits_numeral. now inversion Hd.
  - destruct rest as [|r rs].
    + refine (eq_trans (parse_decimal_exp neg [d] (exp_repr (p - 1)) (p - 1) Hd _
                          (parse_exponent_repr _)) _); [discriminate |].
      f_equal. exact Hm.
    + assert (all_digits [d] /\ all_digits (r :: rs)) as [H1 H2]
        by (inversion Hd; split; [repeat constructor |]; assumption).
      refine (eq_trans (parse_decimal_point neg [d] (r :: rs)
                          ("e"%char :: exp_repr (p - 1)) (p - 1) H1 H2 _ _
                          (parse_exponent_repr _)) _);
        [discriminate | reflexivity |].
      f_equal. exact Hm.
Qed.

(** [repr] of a float in normal form reads back as the float. *)
Lemma py_float_repr (x : pyfloat) : float_wf x -> py_float (float_repr x) = Ok x.
Proof.
  destruct x as [| neg | neg ds p]; [reflexivity | now destruct neg |].
  intros [Hd [Hh [Hl Hz]]]. destruct ds as [|d rest].
  - rewrite (Hz eq_refl). now destruct neg.
  - cbn [hd] in Hh. cbn [float_repr].
    destruct ((-4 <? p) && (p <=? 16)).
    + destruct (Z.leb_spec p 0).
      * now apply float_repr_positional_small.
      * destruct (Z.leb_spec (Z.of_nat (length (d :: rest))) p).
        -- now apply float_repr_positional_whole.
        -- apply float_repr_positional_fraction; try assumption. lia.
    + now apply float_repr_scientific.
Qed.

Lemma parse_decimal_wf (neg : bool) (s : str) (x : pyfloat) :
  parse_decimal neg s = Some x -> float_wf x.
Proof.
  unfold parse_decimal.
  pose proof (span_digits_spec s) as [Hi _].
  destruct (span_digits s) as [ip r1]. cbn [fst] in Hi.
  assert (all_digits (fst (match r1 with
                           | c :: t => if Ascii.eqb c "." then span_digits t else ([], r1)
                           | [] => ([], [])
                           end))) as Hf.
  { destruct r1 as [|c t]; [constructor |].
    destruct (Ascii.eqb c "."); [apply span_digits_spec | constructor]. }
  destruct (match r1 with
            | c :: t => if Ascii.eqb c "." then span_digits t else ([], r1)
            | [] => ([], [])
            end) as [fp r2].
  cbn [fst] in Hf.
  destruct (ip ++ fp) as [|a l] eqn:E; [discriminate |].
  destruct (parse_exponent r2); [| discriminate].
  intros H. injection H as <-. apply mk_dec_wf. rewrite <- E.
  apply Forall_app. now split.
Qed.

(** What [float] reads is in normal form. *)
Lemma py_float_wf (s : str) (x : pyfloat) : py_float s = Ok x -> float_wf x.
Proof.
  unfold py_float. destruct (remove_underscores (strip_chars numeral_space s)) as [s1|]; [| discriminate].
  destruct (split_sign s1) as [neg body].
  destruct (str_eqb (lower body) "inf" || str_eqb (lower body) "infinity").
  { intros H. injection H as <-. exact I. }
  destruct (str_eqb (lower body) "nan").
  { intros H. injection H as <-. exact I. }
  destruct (parse_decimal neg body) as [y|] eqn:E; [| discriminate].
  intros H. injection H as <-. exact (parse_decimal_wf _ _ _ E).
Qed.

(** ** Whole numbers as floats *)

Lemma digits_to_Z_zeros (k : nat) : digits_to_Z (zeros k) = 0.
Proof.
  rewrite <- (List.app_nil_r (zeros k)), digits_to_Z_leading_zeros. reflexivity.
Qed.

Lemma digits_to_Z_nonneg (ds : str) : all_digits ds -> 0 <= digits_to_Z ds.
Proof. intros H. apply digits_to_Z_bound in H. lia. Qed.

Lemma digits_to_Z_cons (c : ascii) (ds : str) :
  digits_to_Z (c :: ds) = digit_val c * 10 ^ Z.of_nat (length ds) + digits_to_Z ds.
Proof.
  induction ds as [|x ds IH] using rev_ind.
  - unfold digits_to_Z. cbn [fold_left length]. change (Z.of_nat 0) with 0. lia.
  - change (c :: ds ++ [x]) with ((c :: ds) ++ [x]).
    rewrite !digits_to_Z_snoc, IH, length_app. cbn [length].
    replace (Z.of_nat (length ds + 1)) with (Z.succ (Z.of_nat (length ds))) by lia.
    rewrite Z.pow_succ_r by lia. lia.
Qed.

(** A number that starts with a digit other than zero has all its places. *)
Lemma digits_to_Z_lower (c : ascii) (ds : str) :
  all_digits (c :: ds) -> c <> "0"%char ->
  10 ^ Z.of_nat (length ds) <= digits_to_Z (c :: ds).
Proof.
  intros H Hc. inversion H as [|? ? Hd Hds]; subst.
  rewrite digits_to_Z_cons. pose proof (digits_to_Z_nonneg ds Hds).
  assert (1 <= digit_val c) as H1 by (each_digit Hd; [contradiction | vm_compute; discriminate ..]).
  assert (0 < 10 ^ Z.of_nat (length ds)) by (apply Z.pow_pos_nonneg; lia).
  nia.
Qed.

(** Digits are zeros, a part without a zero at either end, and zeros. *)
Lemma digits_decompose (ds : str) :
  all_digits ds ->
  exists a core b, ds = zeros a ++ core ++ zeros b /\ all_digits core
    /\ hd "1"%char core <> "0"%char /\ last core "1"%char <> "0"%char.
Proof.
  intros H.
  destruct (strip_leading_zeros_spec ds 0) as [a [E [_ Hh]]].
  destruct (rstrip_zeros_spec (fst (strip_leading_zeros ds 0))) as [b [E1 Hl]].
  set (r := fst (strip_leading_zeros ds 0)) in *.
  exists a, (rstrip_chars "0" r), b. rewrite <- E1. split; [exact E |].
  rewrite E in H. apply Forall_app in H. destruct H as [_ H].
  rewrite E1 in H. apply Forall_app in H. destruct H as [H _].
  split; [exact H |]. split; [| exact Hl].
  destruct (rstrip_chars "0" r) as [|c t] eqn:R; [discriminate |].
  rewrite E1 in Hh. exact Hh.
Qed.

(** The float read from a string of digits: a whole number, its value, and
    how it compares with 100. *)
Lemma mk_dec_whole (neg : bool) (ds : str) :
  all_digits ds -> ds <> [] ->
  let x := mk_dec neg ds (Z.of_nat (length ds)) in
  float_is_integer x = true
  /\ float_to_int x = Ok (if neg then - digits_to_Z ds else digits_to_Z ds)
  /\ float_lt_100 x = (neg || (digits_to_Z ds <? 100)).
Proof.
  intros H Hne.
  destruct (digits_decompose ds H) as [a [core [b [E [Hc [Hh Hl]]]]]].
  assert (digits_to_Z ds = digits_to_Z core * 10 ^ Z.of_nat b) as Hv.
  { rewrite E, digits_to_Z_leading_zeros. apply digits_to_Z_trailing_zeros. }
  assert (Z.of_nat (length ds) - Z.of_nat a = Z.of_nat (length core) + Z.of_nat b) as Hlen.
  { rewrite E, !length_app. unfold zeros. rewrite !repeat_length. lia. }
  destruct core as [|c t].
  - cbn [app] in E. unfold zeros in E. rewrite <- repeat_app in E. fold (zeros (a + b)) in E.
    assert (mk_dec neg ds (Z.of_nat (length ds)) = FDec neg [] 0) as ->
      by (rewrite E at 1; apply mk_dec_zero).
    assert (digits_to_Z ds = 0) as -> by (rewrite E; apply digits_to_Z_zeros).
    cbn [float_is_integer float_to_int float_lt_100]. change (0 <=? 0) with true. cbv iota.
    repeat split; destruct neg; reflexivity.
  - assert (mk_dec neg ds (Z.of_nat (length ds))
            = FDec neg (c :: t) (Z.of_nat (length (c :: t)) + Z.of_nat b)) as ->.
    { rewrite E at 1. rewrite mk_dec_normal by (discriminate || assumption).
      now rewrite Hlen. }
    rewrite Hv. set (core := c :: t) in *.
    pose proof (digits_to_Z_bound core Hc) as Hb.
    pose proof (digits_to_Z_lower c t Hc Hh) as Hlo.
    assert (0 < Z.of_nat (length core)) as Hpos by (subst core; cbn [length]; lia).
    assert (0 < 10 ^ Z.of_nat b) as Hpb by (apply Z.pow_pos_nonneg; lia).
    unfold float_is_integer, float_to_int, float_lt_100. fold core.
    assert ((Z.of_nat (length core) <=? Z.of_nat (length core) + Z.of_nat b) = true) as ->
      by (apply Z.leb_le; lia).
    assert ((Z.of_nat (length core) + Z.of_nat b <=? 0) = false) as ->
      by (apply Z.leb_gt; lia).
    replace (Z.of_nat (length core) + Z.of_nat b - Z.of_nat (length core))
      with (Z.of_nat b) by lia.
    subst core. split; [reflexivity |]. split; [reflexivity |].
    destruct neg; [reflexivity |]. cbn [orb].
    cbn [length] in *. rewrite Nat2Z.inj_succ in *.
    rewrite Z.pow_succ_r in Hb by lia.
    destruct (Z.leb_spec (Z.succ (Z.of_nat (length t)) + Z.of_nat b) 2) as [L | L];
      symmetry; [apply Z.ltb_lt | apply Z.ltb_ge].
    + assert (length t = 0%nat \/ length t = 1%nat /\ b = 0%nat) as [Lt | [Lt Lb]] by lia.
      * rewrite Lt in *. change (Z.of_nat 0) with 0 in *. rewrite Z.pow_0_r in *.
        assert (b = 0%nat \/ b = 1%nat) as [-> | ->] by lia;
          [change (10 ^ Z.of_nat 0) with 1 | change (10 ^ Z.of_nat 1) with 10]; lia.
      * rewrite Lt, Lb in *. change (10 ^ Z.of_nat 0) with 1.
        change (10 ^ Z.of_nat 1) with 10 in *. lia.
    + assert (10 ^ 2 <= 10 ^ (Z.of_nat (length t) + Z.of_nat b)) as P
        by (apply Z.pow_le_mono_r; lia).
      rewrite Z.pow_add_r in P by lia. change (10 ^ 2) with 100 in P. nia.
Qed.

Lemma parse_decimal_digits (neg : bool) (ds : str) :
  all_digits ds -> ds <> [] ->
  parse_decimal neg ds = Some (mk_dec neg ds (Z.of_nat (length ds))).
Proof.
  intros H Hne. unfold parse_decimal. rewrite span_digits_all by exact H.
  rewrite List.app_nil_r. cbn [parse_exponent]. rewrite Z.add_0_r.
  destruct ds; [contradiction | reflexivity].
Qed.

(** [float(str(z))] for an integer [z]. *)
Lemma py_float_int_repr (z : Z) :
  exists x, py_float (int_repr z) = Ok x /\ float_is_integer x = true
    /\ float_to_int x = Ok z /\ float_lt_100 x = (z <? 100).
Proof.
  destruct (int_repr_digits z) as [ds [E [Hne [Hd Hv]]]].
  destruct (mk_dec_whole (z <? 0) ds Hd Hne) as [H1 [H2 H3]].
  exists (mk_dec (z <? 0) ds (Z.of_nat (length ds))).
  split; [| split; [exact H1 | split]].
  - rewrite E. destruct ds as [|c t]; [contradiction |].
    change (if z <? 0 then "-" else "") with (sign_str (z <? 0)).
    apply py_float_numeral.
    + now inversion Hd.
    + now apply all_digits_numeral.
    + now apply parse_decimal_digits.
  - rewrite H2, Hv. f_equal. destruct (Z.ltb_spec z 0); lia.
  - rewrite H3, Hv. destruct (Z.ltb_spec z 0) as [L | L]; cbn [orb].
    + symmetry. apply Z.ltb_lt. lia.
    + now rewrite Z.abs_eq by lia.
Qed.

Lemma int_repr_numeral (z : Z) : numeral_text (int_repr z).
Proof.
  destruct (int_repr_digits z) as [ds [E [_ [Hd _]]]]. rewrite E.
  apply Forall_app. split; [destruct (z <? 0); repeat constructor |].
  now apply all_digits_numeral.
Qed.

(** A float below 100 is below 100 as a whole number too. *)
Lemma float_to_int_lt_100 (x : pyfloat) (z : Z) :
  float_wf x -> float_lt_100 x = true -> float_to_int x = Ok z -> z < 100.
Proof.
  destruct x as [| neg | neg ds p]; [discriminate ..|].
  intros [Hd [Hh [Hl Hz]]] Hlt Hi. cbn [float_to_int] in Hi. injection Hi as <-.
  assert (0 <= digits_to_Z ds) by now apply digits_to_Z_nonneg.
  assert (0 <= digits_to_Z (firstn (Z.to_nat p) ds))
    by now apply digits_to_Z_nonneg, all_digits_firstn.
  assert (0 <= 10 ^ (p - Z.of_nat (length ds))) by (apply Z.pow_nonneg; lia).
  destruct neg.
  - destruct (p <=? 0); [lia |]. destruct (Z.of_nat (length ds) <=? p); nia.
  - destruct ds as [|c t]; [rewrite (Hz eq_refl); cbn; lia |].
    cbn [float_lt_100] in Hlt. apply Z.leb_le in Hlt.
    destruct (Z.leb_spec p 0); [lia |].
    destruct (Z.leb_spec (Z.of_nat (length (c :: t))) p).
    + pose proof (digits_to_Z_bound (c :: t) Hd) as Hb.
      assert (digits_to_Z (c :: t) * 10 ^ (p - Z.of_nat (length (c :: t))) < 10 ^ p).
      { replace p with (Z.of_nat (length (c :: t)) + (p - Z.of_nat (length (c :: t)))) at 2 by lia.
        rewrite Z.pow_add_r by lia.
        assert (0 < 10 ^ (p - Z.of_nat (length (c :: t)))) by (apply Z.pow_pos_nonneg; lia).
        nia. }
      assert (10 ^ p <= 10 ^ 2) by (apply Z.pow_le_mono_r; lia).
      change (10 ^ 2) with 100 in *. lia.
    + pose proof (digits_to_Z_bound (firstn (Z.to_nat p) (c :: t))
                    (all_digits_firstn _ _ Hd)) as Hb.
      rewrite length_firstn in Hb.
      assert (10 ^ Z.of_nat (Nat.min (Z.to_nat p) (length (c :: t))) <= 10 ^ 2)
        by (apply Z.pow_le_mono_r; lia).
      change (10 ^ 2) with 100 in *. lia.
Qed.

(** ** [standardize_conclusao] on its own result *)

Lemma float_repr_numeral (x : pyfloat) : float_wf x -> numeral_text (float_repr x).
Proof.
  destruct x as [| neg | neg ds p].
  - intros _. repeat constructor.
  - intros _. destruct neg; repeat constructor.
  - intros [Hd _]. destruct ds as [|d rest].
    + destruct neg; repeat constructor.
    + cbn [float_repr]. apply numeral_text_sign.
      pose proof (all_digits_numeral _ Hd) as Hn.
      destruct ((-4 <? p) && (p <=? 16)).
      * destruct (p <=? 0); [| destruct (Z.of_nat (length (d :: rest)) <=? p)].
        -- constructor; [reflexivity |]. constructor; [reflexivity |].
           apply Forall_app. split; [apply all_digits_numeral, all_digits_zeros | exact Hn].
        -- apply Forall_app. split; [exact Hn |].
           apply Forall_app. split; [apply all_digits_numeral, all_digits_zeros |].
           repeat constructor.
        -- apply Forall_app. split; [now apply all_digits_numeral, all_digits_firstn |].
           constructor; [reflexivity |]. now apply all_digits_numeral, all_digits_skipn.
      * constructor; [now inversion Hn |].
        apply Forall_app. split; [| apply numeral_text_exp].
        destruct rest; [constructor |].
        constructor; [reflexivity |]. now inversion Hn.
Qed.

Lemma numeral_text_percent (s : str) :
  numeral_text s -> Forall (fun c => isspace c = false /\ Ascii.eqb c "%" = false) s.
Proof. apply Forall_impl. intros c H. apply numeral_char_plain in H. tauto. Qed.

Lemma numeral_text_comma (s : str) :
  numeral_text s -> Forall (fun c => Ascii.eqb c "," = false) s.
Proof. apply Forall_impl. intros c H. apply numeral_char_plain in H. tauto. Qed.

Lemma Forall_replace (P : ascii -> Prop) (a : ascii) (b s : str) :
  Forall P s -> Forall P b -> Forall P (replace a b s).
Proof.
  intros Hs Hb. unfold replace. induction Hs as [|c t Hc Ht IH]; [constructor |].
  cbn [flat_map]. apply Forall_app. split; [| exact IH].
  destruct (Ascii.eqb c a); [exact Hb | now constructor].
Qed.

Lemma char_in_false_absent (a : ascii) (s : str) :
  char_in a s = false -> Forall (fun c => Ascii.eqb c a = false) s.
Proof.
  unfold char_in. induction s as [|c t IH]; [constructor |].
  cbn [existsb]. intros H. apply orb_false_iff in H. destruct H as [H1 H2].
  constructor; [now rewrite Ascii.eqb_sym | now apply IH].
Qed.

Lemma replace_cons (a : ascii) (b : str) (c : ascii) (t : str) :
  replace a b (c :: t) = (if Ascii.eqb c a then b else [c]) ++ replace a b t.
Proof. reflexivity. Qed.

(** A decimal point written as a comma and read back. *)
Lemma replace_point_comma (r : str) :
  numeral_text r -> replace "," "." (replace "." "," r) = r.
Proof.
  induction 1 as [|c t Hc Ht IH]; [reflexivity |].
  rewrite replace_cons. destruct (Ascii.eqb_spec c ".") as [-> | Hp].
  - change ("," ++ replace "." "," t) with (","%char :: replace "." "," t).
    rewrite replace_cons, IH. reflexivity.
  - change ([c] ++ replace "." "," t) with (c :: replace "." "," t).
    rewrite replace_cons, IH. apply numeral_char_plain in Hc.
    destruct Hc as [_ [_ [-> _]]]. reflexivity.
Qed.

Lemma char_in_replace_point (r : str) :
  numeral_text r -> char_in "," (replace "." "," r) = char_in "." r.
Proof.
  induction 1 as [|c t Hc Ht IH]; [reflexivity |].
  rewrite replace_cons. unfold char_in in *. cbn [existsb].
  rewrite (Ascii.eqb_sym "." c). destruct (Ascii.eqb c ".").
  - reflexivity.
  - cbn [app existsb orb]. rewrite Ascii.eqb_sym. apply numeral_char_plain in Hc.
    destruct Hc as [_ [_ [-> _]]]. exact IH.
Qed.

Lemma percent_not_nullish (body : str) : is_nullish (CStr (body ++ "%")) = false.
Proof.
  unfold is_nullish. cbn [pd_isna py_str is_empty_str orb].
  assert (str_in (lower (body ++ "%")) null_tokens = false) as ->.
  { apply str_in_false. unfold null_tokens, strs. cbn [map In].
    intros [H | [H | [H | [H | []]]]];
      apply (f_equal (fun s => last s "x"%char)) in H;
      unfold lower in H; rewrite map_app in H;
      cbn [map list_ascii_of_string] in H; rewrite last_last in H;
      vm_compute in H; discriminate H. }
  now destruct body.
Qed.

(** The percentage read from a text that ends in [%]. *)
Lemma conclusao_of_percent (body : str) :
  Forall (fun c => isspace c = false /\ Ascii.eqb c "%" = false) body ->
  standardize_conclusao (CStr (body ++ "%")) =
    if char_in "," body then
      try_or_return (py_float (replace "," "." body)) [ValueError] (Ok (CStr ""))
        (conclusao_result true)
    else
      try_or_return (py_float body) [ValueError] (Ok (CStr "")) (conclusao_result false).
Proof.
  intros H. unfold standardize_conclusao. rewrite percent_not_nullish.
  cbn [py_str]. rewrite strip_id.
  - assert (replace "%" "" (body ++ "%") = body) as ->.
    { unfold replace. rewrite flat_map_app.
      fold (replace "%" "" body). rewrite replace_absent.
      - cbn. apply List.app_nil_r.
      - revert H. apply Forall_impl. tauto. }
    reflexivity.
  - apply Forall_app. split; [| repeat constructor].
    revert H. apply Forall_impl. tauto.
Qed.

Lemma conclusao_int_fixed (z : Z) :
  z <= 100 -> standardize_conclusao (CStr (int_repr z ++ "%")) = Ok (CStr (int_repr z ++ "%")).
Proof.
  intros Hz. pose proof (int_repr_numeral z) as Hn.
  rewrite conclusao_of_percent by now apply numeral_text_percent.
  rewrite char_in_absent by now apply numeral_text_comma.
  destruct (py_float_int_repr z) as [x [E [Hi [Ht Hl]]]]. rewrite E.
  cbn [try_or_return]. unfold conclusao_result, min_100. rewrite Hl.
  destruct (Z.ltb_spec z 100).
  - cbn [is_integer to_int]. rewrite Hi, Ht. reflexivity.
  - assert (z = 100) as -> by lia. reflexivity.
Qed.

Lemma conclusao_result_fixed (b : bool) (x : pyfloat) (r : cell) :
  float_wf x -> conclusao_result b x = Ok r -> standardize_conclusao r = Ok r.
Proof.
  intros Hw. unfold conclusao_result, min_100.
  destruct (float_lt_100 x) eqn:Hlt.
  - cbn [is_integer to_int number_repr]. destruct (float_is_integer x) eqn:Hi.
    + destruct (float_to_int x) as [z|e] eqn:Ht; cbn [bind]; [| discriminate].
      intros H. injection H as <-. apply conclusao_int_fixed.
      pose proof (float_to_int_lt_100 x z Hw Hlt Ht). lia.
    + intros H. injection H as <-.
      pose proof (float_repr_numeral x Hw) as Hn. pose proof (py_float_repr x Hw) as Hr.
      assert (forall c, conclusao_result c x
                = Ok (CStr ((if c then replace "." "," (float_repr x) else float_repr x) ++ "%")))
        as Hres.
      { intros c. unfold conclusao_result, min_100. rewrite Hlt.
        cbn [is_integer number_repr]. now rewrite Hi. }
      destruct b.
      * rewrite conclusao_of_percent.
        -- rewrite char_in_replace_point by exact Hn.
           destruct (char_in "." (float_repr x)) eqn:Ep.
           ++ rewrite replace_point_comma by exact Hn. rewrite Hr.
              cbn [try_or_return]. apply Hres.
           ++ rewrite !(replace_absent "."%char _ (float_repr x))
                by now apply char_in_false_absent.
              rewrite Hr. cbn [try_or_return]. apply Hres.
        -- apply Forall_replace; [now apply numeral_text_percent | repeat constructor].
      * rewrite conclusao_of_percent by now apply numeral_text_percent.
        rewrite char_in_absent by now apply numeral_text_comma.
        rewrite Hr. cbn [try_or_return]. apply Hres.
  - cbn [is_integer to_int bind]. intros H. injection H as <-.
    exact (conclusao_int_fixed 100 (Z.le_refl 100)).
Qed.

(** What [standardize_conclusao] returns is '' or the text of a float
    that [float] has read. *)
Lemma standardize_conclusao_cases (v r : cell) :
  standardize_conclusao v = Ok r ->
  r = CStr "" \/ exists b x, float_wf x /\ conclusao_result b x = Ok r.
Proof.
  unfold standardize_conclusao.
  destruct (is_nullish v); [intros H; injection H as <-; now left |].
  cbv zeta.
  destruct (char_in "," (replace "%" "" (strip (py_str v)))).
  - destruct (py_float (replace "," "." (replace "%" "" (strip (py_str v)))))
      as [x|e] eqn:E; cbn [try_or_return].
    + intros H. right. exists true, x. split; [exact (py_float_wf _ _ E) | exact H].
    + destruct e; cbn; intros H; try discriminate H. injection H as <-. now left.
  - destruct (py_float (replace "%" "" (strip (py_str v)))) as [x|e] eqn:E;
      cbn [try_or_return].
    + intros H. right. exists false, x. split; [exact (py_float_wf _ _ E) | exact H].
    + destruct e; cbn; intros H; try discriminate H. injection H as <-. now left.
Qed.

(** X7.  A percentage cleaned twice is the percentage cleaned once. *)
Theorem standardize_conclusao_idempotent (v r : cell) :
  standardize_conclusao v = Ok r -> standardize_conclusao r = Ok r.
Proof.
  intros H. destruct (standardize_conclusao_cases v r H) as [-> | [b [x [Hw Hx]]]].
  - reflexivity.
  - exact (conclusao_result_fixed b x r Hw Hx).
Qed.

Lemma standardize_conclusao_idempotent_witness :
  standardize_conclusao (CStr " 15,10 % ") = Ok (CStr "15,1%")
  /\ standardize_conclusao (CStr "15,1%") = Ok (CStr "15,1%").
Proof.
  split; [reflexivity |].
  apply (standardize_conclusao_idempotent (CStr " 15,10 % ")). reflexivity.
Defined.

(** ** Cleaned percentages and the loader of the dashboard *)

Lemma replace_percent_end (body : str) :
  Forall (fun c => isspace c = false /\ Ascii.eqb c "%" = false) body ->
  replace "%" "" (body ++ "%") = body.
Proof.
  intros H. unfold replace. rewrite flat_map_app.
  fold (replace "%" "" body). rewrite replace_absent.
  - cbn. apply List.app_nil_r.
  - revert H. apply Forall_impl. tauto.
Qed.

Lemma conclusao_result_readable (b : bool) (x : pyfloat) (s : str) :
  float_wf x -> conclusao_result b x = Ok (CStr s) ->
  char_in "%" s = true
  /\ exists y, percent_to_float s = Ok y
       /\ (float_lt_100 y = true \/ y = FDec false "1" 3).
Proof.
  intros Hw. unfold conclusao_result, min_100, percent_to_float.
  assert (forall body : str, char_in "%" (body ++ "%") = true) as Hin.
  { intros body. unfold char_in. rewrite existsb_app. cbn. apply orb_true_r. }
  assert (forall z, z <= 100 ->
            exists y, py_float (replace "," "." (replace "%" "" (int_repr z ++ "%"))) = Ok y
              /\ (float_lt_100 y = true \/ y = FDec false "1" 3)) as Hint.
  { intros z Hz. pose proof (int_repr_numeral z) as Hn.
    rewrite replace_percent_end by now apply numeral_text_percent.
    rewrite replace_absent by now apply numeral_text_comma.
    destruct (Z.ltb_spec z 100) as [L | L].
    - destruct (py_float_int_repr z) as [y [E [_ [_ Hl]]]]. exists y.
      split; [exact E | left]. rewrite Hl. apply Z.ltb_lt. exact L.
    - assert (z = 100) as -> by lia. exists (FDec false "1" 3). split; [reflexivity | now right]. }
  destruct (float_lt_100 x) eqn:Hlt.
  - cbn [is_integer to_int number_repr]. destruct (float_is_integer x) eqn:Hi.
    + destruct (float_to_int x) as [z|e] eqn:Ht; cbn [bind]; [| discriminate].
      intros H. injection H as <-. split; [apply Hin |]. apply Hint.
      pose proof (float_to_int_lt_100 x z Hw Hlt Ht). lia.
    + intros H. injection H as <-. split; [apply Hin |].
      pose proof (float_repr_numeral x Hw) as Hn. pose proof (py_float_repr x Hw) as Hr.
      exists x. split; [| now left]. destruct b.
      * rewrite replace_percent_end
          by (apply Forall_replace; [now apply numeral_text_percent | repeat constructor]).
        now rewrite replace_point_comma.
      * rewrite replace_percent_end by now apply numeral_text_percent.
        now rewrite replace_absent by now apply numeral_text_comma.
  - cbn [is_integer to_int bind]. intros H. injection H as <-.
    split; [reflexivity |]. exact (Hint 100 (Z.le_refl 100)).
Qed.

(** X8.  Every text [standardize_conclusao] returns, other than '',
    contains [%], and the conversion of [load_and_clean_data] reads it
    without an error, as a number that is at most 100. *)
Theorem cleaned_conclusao_is_readable (v : cell) (s : str) :
  standardize_conclusao v = Ok (CStr s) -> s <> [] ->
  char_in "%" s = true
  /\ exists y, percent_to_float s = Ok y
       /\ (float_lt_100 y = true \/ y = FDec false "1" 3).
Proof.
  intros H Hne. destruct (standardize_conclusao_cases v _ H) as [E | [b [x [Hw Hx]]]].
  - injection E as ->. contradiction.
  - exact (conclusao_result_readable b x s Hw Hx).
Qed.

Lemma cleaned_conclusao_is_readable_witness :
  standardize_conclusao (CStr "0,73") = Ok (CStr "0,73%")
  /\ char_in "%" "0,73%" = true.
Proof.
  split; [reflexivity |].
  apply (cleaned_conclusao_is_readable (CStr "0,73") "0,73%"); [reflexivity | discriminate].
Defined.

(** ** [standardize_currency] on its own result *)

Lemma decimal_char_plain (c : ascii) :
  decimal_char c = true ->
  lower_char c = c /\ Ascii.eqb c "n" = false /\ Ascii.eqb c "o" = false
  /\ Ascii.eqb c "O" = false /\ Ascii.eqb c "I" = false /\ Ascii.eqb c "l" = false
  /\ Ascii.eqb c "S" = false /\ Ascii.eqb c "G" = false /\ Ascii.eqb c "B" = false
  /\ negb (char_in c "R$()estim" || isspace c) = true.
Proof.
  destruct c as [[] [] [] [] [] [] [] []]; vm_compute; intros H;
    try discriminate H; repeat split.
Qed.

Lemma numeral_char_typos (c : ascii) :
  numeral_char c = true ->
  lower_char c = c /\ Ascii.eqb c "o" = false
  /\ Ascii.eqb c "O" = false /\ Ascii.eqb c "I" = false /\ Ascii.eqb c "l" = false
  /\ Ascii.eqb c "S" = false /\ Ascii.eqb c "G" = false /\ Ascii.eqb c "B" = false.
Proof.
  destruct c as [[] [] [] [] [] [] [] []]; vm_compute; intros H;
    try discriminate H; repeat split.
Qed.

Lemma filter_id {A} (p : A -> bool) (l : list A) :
  Forall (fun a => p a = true) l -> filter p l = l.
Proof.
  induction 1 as [|a t Ha Ht IH]; [reflexivity |]. cbn [filter]. now rewrite Ha, IH.
Qed.

Lemma lower_id (s : str) : Forall (fun c => lower_char c = c) s -> lower s = s.
Proof.
  unfold lower. induction 1 as [|c t Hc Ht IH]; [reflexivity |].
  cbn [map]. now rewrite Hc, IH.
Qed.

(** The corrections of typing errors leave the text of a number as it is. *)
Lemma correct_typos_numeral (s : str) : numeral_text s -> correct_typos s = s.
Proof.
  intros H. unfold correct_typos.
  assert (forall a : ascii,
            (forall c, numeral_char c = true -> Ascii.eqb c a = false) ->
            Forall (fun c => Ascii.eqb c a = false) s) as Habs.
  { intros a Ha. revert H. apply Forall_impl. exact Ha. }
  rewrite lower_id
    by (revert H; apply Forall_impl; intros c Hc; now apply numeral_char_typos in Hc).
  rewrite char_in_absent
    by (apply Habs; intros c Hc; now apply numeral_char_typos in Hc).
  change (apply_corrections typo_corrections false s)
    with (replace "B" "8" (replace "G" "6" (replace "S" "5" (replace "l" "1"
            (replace "I" "1" (replace "O" "0" s)))))).
  rewrite (replace_absent "O"%char)
    by (apply Habs; intros c Hc; apply numeral_char_typos in Hc; tauto).
  rewrite (replace_absent "I"%char)
    by (apply Habs; intros c Hc; apply numeral_char_typos in Hc; tauto).
  rewrite (replace_absent "l"%char)
    by (apply Habs; intros c Hc; apply numeral_char_typos in Hc; tauto).
  rewrite (replace_absent "S"%char)
    by (apply Habs; intros c Hc; apply numeral_char_typos in Hc; tauto).
  rewrite (replace_absent "G"%char)
    by (apply Habs; intros c Hc; apply numeral_char_typos in Hc; tauto).
  rewrite (replace_absent "B"%char)
    by (apply Habs; intros c Hc; apply numeral_char_typos in Hc; tauto).
  reflexivity.
Qed.

Lemma normalize_separators_no_comma (s : str) :
  numeral_text s -> normalize_separators s = s.
Proof.
  intros H. unfold normalize_separators.
  now rewrite char_in_absent by now apply numeral_text_comma.
Qed.

Lemma strip_symbols_decimal (s : str) : decimal_text s -> strip_symbols s = s.
Proof.
  intros H. apply filter_id. revert H. apply Forall_impl.
  intros c Hc. now apply decimal_char_plain in Hc.
Qed.

(** The text of a float is no null token, unless the float is NaN. *)
Lemma float_repr_not_null (x : pyfloat) :
  float_wf x -> x <> FNan -> str_in (lower (float_repr x)) null_tokens = false.
Proof.
  intros Hw Hx. pose proof (float_repr_numeral x Hw) as Hn.
  rewrite lower_id
    by (revert Hn; apply Forall_impl; intros c Hc; now apply numeral_char_typos in Hc).
  destruct x as [| neg | neg ds p]; [contradiction | now destruct neg |].
  destruct ds as [|d rest]; [now destruct neg |].
  destruct Hw as [Hd _]. assert (is_digit d = true) as Hdd by now inversion Hd.
  cbn [float_repr]. destruct neg; [reflexivity |].
  cbn [sign_str app list_ascii_of_string].
  destruct ((-4 <? p) && (p <=? 16)).
  - destruct (p <=? 0); [reflexivity |].
    destruct (Z.of_nat (length (d :: rest)) <=? p).
    + each_digit Hdd; reflexivity.
    + destruct (Z.to_nat p); [reflexivity |]. each_digit Hdd; reflexivity.
  - each_digit Hdd; reflexivity.
Qed.

Lemma float_repr_not_nullish (x : pyfloat) :
  float_wf x -> x <> FNan -> is_nullish (CFloat x) = false.
Proof.
  intros Hw Hx. unfold is_nullish. cbn [py_str is_empty_str].
  rewrite float_repr_not_null by assumption.
  destruct x as [| neg | neg ds p]; [contradiction | reflexivity ..].
Qed.

(** Written without exponent, a float is digits, a point and a sign. *)
Lemma float_repr_decimal (x : pyfloat) :
  float_wf x -> positional x = true -> decimal_text (float_repr x).
Proof.
  destruct x as [| neg | neg ds p]; [discriminate .. |].
  intros [Hd _] Hp. destruct ds as [|d rest].
  - destruct neg; repeat constructor.
  - cbn [positional] in Hp. cbn [float_repr]. rewrite Hp.
    pose proof (all_digits_decimal _ Hd) as Hn.
    assert (forall s, decimal_text s -> decimal_text (sign_str neg ++ s)) as Hs
      by (intros s Hs; destruct neg; [constructor; [reflexivity | exact Hs] | exact Hs]).
    apply Hs.
    destruct (p <=? 0); [| destruct (Z.of_nat (length (d :: rest)) <=? p)].
    + constructor; [reflexivity |]. constructor; [reflexivity |].
      apply Forall_app. split; [apply all_digits_decimal, all_digits_zeros | exact Hn].
    + apply Forall_app. split; [exact Hn |].
      apply Forall_app. split; [apply all_digits_decimal, all_digits_zeros |].
      repeat constructor.
    + apply Forall_app. split; [now apply all_digits_decimal, all_digits_firstn |].
      constructor; [reflexivity |]. now apply all_digits_decimal, all_digits_skipn.
Qed.

Lemma standardize_currency_float (v : cell) (x : pyfloat) :
  standardize_currency v = Ok (CFloat x) -> float_wf x.
Proof.
  unfold standardize_currency. destruct (is_nullish v); [discriminate |].
  cbv zeta.
  destruct (py_float (normalize_separators (strip_symbols (correct_typos
              (strip (py_str v)))))) as [y|e] eqn:E; cbn [bind try_except].
  - intros H. injection H as <-. exact (py_float_wf _ _ E).
  - destruct e; cbn; discriminate.
Qed.

Lemma standardize_currency_positional (x : pyfloat) :
  float_wf x -> positional x = true ->
  standardize_currency (CFloat x) = Ok (CFloat x).
Proof.
  intros Hw Hp. unfold standardize_currency.
  rewrite float_repr_not_nullish by (assumption || (intros ->; discriminate)).
  cbn [py_str]. cbv zeta.
  pose proof (float_repr_decimal x Hw Hp) as Hd.
  pose proof (decimal_text_numeral _ Hd) as Hn.
  rewrite strip_id by now apply numeral_text_space.
  rewrite correct_typos_numeral by exact Hn.
  rewrite strip_symbols_decimal by exact Hd.
  rewrite normalize_separators_no_comma by exact Hn.
  now rewrite py_float_repr.
Qed.

(** The exponent without its letter is not read as a number. *)
Lemma py_float_exponent_lost (neg : bool) (d : ascii) (frac : str) (e : Z) :
  all_digits (d :: frac) ->
  py_float (sign_str neg ++ d :: (match frac with [] => [] | _ => "." ++ frac end)
              ++ exp_repr e) = Raise ValueError.
Proof.
  intros Hd. destruct (exp_repr_digits e) as [es [E [_ [He _]]]]. rewrite E.
  assert (is_digit d = true) as Hdd by now inversion Hd.
  assert (all_digits frac) as Hf by now inversion Hd.
  set (sg := if e <? 0 then "-"%char else "+"%char) in *.
  assert (is_digit sg = false /\ Ascii.eqb sg "." = false /\ numeral_char sg = true
          /\ parse_exponent (sg :: es) = None) as [S1 [S2 [S3 S4]]]
    by (subst sg; destruct (e <? 0); repeat split).
  set (body := d :: (match frac with [] => [] | _ => "." ++ frac end) ++ sg :: es).
  assert (numeral_text body) as Hn.
  { subst body. constructor; [now apply digit_numeral |].
    apply Forall_app. split.
    - destruct frac; [constructor |]. constructor; [reflexivity |].
      now apply all_digits_numeral.
    - constructor; [exact S3 | now apply all_digits_numeral]. }
  unfold py_float.
  rewrite strip_numeral_id by now apply numeral_text_space, numeral_text_sign.
  rewrite remove_underscores_id by now apply numeral_text_underscore, numeral_text_sign.
  subst body. rewrite split_sign_sign by exact Hdd.
  destruct (digit_not_a_word d
              ((match frac with [] => [] | _ => "." ++ frac end) ++ sg :: es) Hdd)
    as [-> [-> ->]].
  cbn [orb].
  assert (parse_decimal neg
            (d :: (match frac with [] => [] | _ => "." ++ frac end) ++ sg :: es) = None) as ->;
    [| reflexivity].
  unfold parse_decimal. destruct frac as [|f fs].
  - change (d :: [] ++ sg :: es) with ([d] ++ sg :: es).
    rewrite span_digits_app by (assumption || (repeat constructor; assumption)).
    rewrite S2, S4. reflexivity.
  - change (d :: ("." ++ f :: fs) ++ sg :: es) with ([d] ++ "."%char :: (f :: fs) ++ sg :: es).
    rewrite span_digits_app by (reflexivity || (repeat constructor; assumption)).
    change (Ascii.eqb "." ".") with true. cbv iota.
    rewrite span_digits_app by assumption.
    rewrite S4. reflexivity.
Qed.

Lemma standardize_currency_scientific (x : pyfloat) :
  float_wf x -> positional x = false ->
  standardize_currency (CFloat x) = Ok (CStr "").
Proof.
  intros Hw Hp. destruct x as [| neg | neg ds p]; [reflexivity | now destruct neg |].
  destruct ds as [|d rest]; [discriminate |].
  assert (float_wf (FDec neg (d :: rest) p)) as Hw' by exact Hw.
  destruct Hw as [Hd _]. cbn [positional] in Hp.
  unfold standardize_currency.
  rewrite float_repr_not_nullish by (assumption || discriminate).
  pose proof (float_repr_numeral _ Hw') as Hn.
  cbv zeta. cbn [py_str] in *.
  rewrite strip_id by now apply numeral_text_space.
  rewrite correct_typos_numeral by exact Hn.
  cbn [float_repr] in *. rewrite Hp in *.
  assert (strip_symbols
            (sign_str neg ++ d :: (match rest with [] => [] | _ => "." ++ rest end)
               ++ "e" ++ exp_repr (p - 1))
          = sign_str neg ++ d :: (match rest with [] => [] | _ => "." ++ rest end)
               ++ exp_repr (p - 1)) as ->.
  { unfold strip_symbols. rewrite filter_app.
    change (d :: (match rest with [] => [] | _ => "." ++ rest end) ++ "e" ++ exp_repr (p - 1))
      with ((d :: (match rest with [] => [] | _ => "." ++ rest end))
              ++ "e"%char :: exp_repr (p - 1)).
    rewrite filter_app.
    change (d :: (match rest with [] => [] | _ => "." ++ rest end) ++ exp_repr (p - 1))
      with ((d :: (match rest with [] => [] | _ => "." ++ rest end)) ++ exp_repr (p - 1)).
    f_equal; [now destruct neg |]. f_equal.
    - apply strip_symbols_decimal. constructor; [apply digit_decimal; now inversion Hd |].
      destruct rest; [constructor |]. constructor; [reflexivity |].
      apply all_digits_decimal. now inversion Hd.
    - cbn [filter]. change (negb (char_in "e" "R$()estim" || isspace "e")) with false.
      cbv iota. destruct (exp_repr_digits (p - 1)) as [es [E [_ [He _]]]]. rewrite E.
      apply filter_id. constructor; [now destruct (p - 1 <? 0) |].
      revert He. apply Forall_impl. intros c Hc.
      apply digit_decimal in Hc. now apply decimal_char_plain in Hc. }
  assert (numeral_text
            (sign_str neg ++ d :: (match rest with [] => [] | _ => "." ++ rest end)
               ++ exp_repr (p - 1))) as Hn'.
  { apply Forall_app in Hn. destruct Hn as [Hs Hn]. apply Forall_app. split; [exact Hs |].
    inversion Hn as [|? ? H1 H2]; subst. constructor; [exact H1 |].
    apply Forall_app in H2. destruct H2 as [H2 H3]. apply Forall_app. split; [exact H2 |].
    now inversion H3. }
  rewrite normalize_separators_no_comma by exact Hn'.
  now rewrite py_float_exponent_lost.
Qed.

(** X9.  An amount [standardize_currency] has returned and the function
    applied to it once more: the amount again when [repr] writes it
    without exponent, and '' when [repr] writes it with an exponent (the
    letter [e] is removed with the currency symbols) or it is NaN. *)
Theorem standardize_currency_on_its_result (v : cell) (x : pyfloat) :
  standardize_currency v = Ok (CFloat x) ->
  standardize_currency (CFloat x)
  = if positional x then Ok (CFloat x) else Ok (CStr "").
Proof.
  intros H. pose proof (standardize_currency_float v x H) as Hw.
  destruct (positional x) eqn:Hp.
  - now apply standardize_currency_positional.
  - now apply standardize_currency_scientific.
Qed.

Lemma standardize_currency_on_its_result_witness :
  standardize_currency (CStr "R$ 16.591,06") = Ok (CFloat (FDec false "1659106" 5))
  /\ standardize_currency (CFloat (FDec false "1659106" 5))
     = Ok (CFloat (FDec false "1659106" 5)).
Proof.
  split; [reflexivity |].
  exact (standardize_currency_on_its_result (CStr "R$ 16.591,06") _ eq_refl).
Defined.

(** ** [convert_to_hours] on its own result *)

Lemma numeral_text_quotes (s : str) :
  numeral_text s -> Forall (fun c => existsb (Ascii.eqb c) [chr 34; chr 39] = false) s.
Proof.
  apply Forall_impl. intros c H. apply numeral_char_plain in H.
  cbn [existsb]. destruct H as [_ [_ [_ [_ [_ [-> ->]]]]]]. reflexivity.
Qed.

Lemma numeral_text_colon (s : str) :
  numeral_text s -> Forall (fun c => Ascii.eqb c ":" = false) s.
Proof. apply Forall_impl. intros c H. apply numeral_char_plain in H. tauto. Qed.

Lemma convert_to_hours_float (x : pyfloat) :
  float_wf x -> x <> FNan -> convert_to_hours (CFloat x) = Ok (HVal (CFloat x)).
Proof.
  intros Hw Hx. unfold convert_to_hours.
  assert (pd_isna (CFloat x) || is_empty_str (CFloat x) = false) as ->
    by (destruct x; [contradiction | reflexivity ..]).
  cbn [py_str]. pose proof (float_repr_numeral x Hw) as Hn.
  rewrite strip_id by now apply numeral_text_space.
  rewrite strip_chars_id by now apply numeral_text_quotes.
  cbv zeta.
  rewrite char_in_absent by now apply numeral_text_colon.
  rewrite replace_absent by now apply numeral_text_comma.
  now rewrite py_float_repr.
Qed.

(** What [convert_to_hours] reads with [float] is [None] or a float in
    normal form. *)
Lemma convert_to_hours_value (v r : cell) :
  convert_to_hours v = Ok (HVal r) -> r = CNone \/ exists x, r = CFloat x /\ float_wf x.
Proof.
  unfold convert_to_hours.
  destruct (pd_isna v || is_empty_str v); [intros H; injection H as <-; now left |].
  cbv zeta.
  set (t := strip_chars [chr 34; chr 39] (strip (py_str v))).
  assert (try_except (x <- py_float (replace "," "." t) ;; Ok (HVal (CFloat x)))
            [ValueError] (Ok (HVal CNone)) = Ok (HVal r) ->
          r = CNone \/ exists x, r = CFloat x /\ float_wf x) as K.
  { destruct (py_float (replace "," "." t)) as [x|e] eqn:E; cbn [bind try_except].
    - intros H. injection H as <-. right. exists x. split; [reflexivity |].
      exact (py_float_wf _ _ E).
    - destruct e; cbn; intros H; try discriminate H. injection H as <-. now left. }
  destruct (char_in ":" t); [| exact K].
  destruct (split_on ":" t) as [|p0 [|p1 [|p2 ps]]]; try exact K.
  destruct (py_float p0) as [h|e0]; cbn [bind try_except].
  - destruct (py_float p1) as [m|e1]; cbn [bind try_except]; [discriminate |].
    destruct e1; cbn; (exact K || discriminate).
  - destruct e0; cbn; (exact K || discriminate).
Qed.

(** X10.  A duration [convert_to_hours] has read with [float] and the
    function applied to it once more: the same value, unless the value is
    NaN, which becomes [None]. *)
Theorem convert_to_hours_on_its_result (v r : cell) :
  convert_to_hours v = Ok (HVal r) ->
  convert_to_hours r = Ok (HVal (if pd_isna r then CNone else r)).
Proof.
  intros H. destruct (convert_to_hours_value v r H) as [-> | [x [-> Hw]]].
  - reflexivity.
  - destruct x as [| neg | neg ds p]; [reflexivity | ..];
      cbn [pd_isna]; apply convert_to_hours_float; (exact Hw || discriminate).
Qed.

Lemma convert_to_hours_on_its_result_witness :
  convert_to_hours (CStr " '3,6' ") = Ok (HVal (CFloat (FDec false "36" 1)))
  /\ convert_to_hours (CFloat (FDec false "36" 1)) = Ok (HVal (CFloat (FDec false "36" 1))).
Proof.
  split; [reflexivity |].
  exact (convert_to_hours_on_its_result (CStr " '3,6' ") _ eq_refl).
Defined.

(* ================================================================= *)
(** * Dates *)

(** ** Numbers padded with zeros *)

Lemma to_uint_head (p : positive) (u : Decimal.uint) : Pos.to_uint p <> Decimal.D0 u.
Proof.
  intros E.
  assert (Decimal.unorm (Pos.to_uint p) = Pos.to_uint p) as Hn.
  { rewrite <- (DecimalPos.Unsigned.to_of (Pos.to_uint p)).
    now rewrite DecimalPos.Unsigned.of_to. }
  destruct (Decimal.nzhead (Pos.to_uint p)) as [| | | | | | | | | |] eqn:Ez.
  - apply unorm_0 in Ez. rewrite Hn in Ez.
    exact (DecimalPos.Unsigned.to_uint_nonzero p Ez).
  - exact (nzhead_nonzero _ _ Ez).
  - rewrite unorm_nzhead, E in Hn by (rewrite Ez; discriminate).
    exact (nzhead_nonzero _ _ Hn).
  - rewrite unorm_nzhead, E in Hn by (rewrite Ez; discriminate).
    exact (nzhead_nonzero _ _ Hn).
  - rewrite unorm_nzhead, E in Hn by (rewrite Ez; discriminate).
    exact (nzhead_nonzero _ _ Hn).
  - rewrite unorm_nzhead, E in Hn by (rewrite Ez; discriminate).
    exact (nzhead_nonzero _ _ Hn).
  - rewrite unorm_nzhead, E in Hn by (rewrite Ez; discriminate).
    exact (nzhead_nonzero _ _ Hn).
  - rewrite unorm_nzhead, E in Hn by (rewrite Ez; discriminate).
    exact (nzhead_nonzero _ _ Hn).
  - rewrite unorm_nzhead, E in Hn by (rewrite Ez; discriminate).
    exact (nzhead_nonzero _ _ Hn).
  - rewrite unorm_nzhead, E in Hn by (rewrite Ez; discriminate).
    exact (nzhead_nonzero _ _ Hn).
  - rewrite unorm_nzhead, E in Hn by (rewrite Ez; discriminate).
    exact (nzhead_nonzero _ _ Hn).
Qed.

(** [str(z)] for a positive [z] starts with a digit other than zero. *)
Lemma int_repr_positive (z : Z) :
  0 < z ->
  exists c t, int_repr z = c :: t /\ c <> "0"%char
    /\ all_digits (c :: t) /\ digits_to_Z (c :: t) = z.
Proof.
  intros Hz. destruct z as [|p|p]; try lia.
  unfold int_repr. cbn [Z.to_int NilEmpty.string_of_int].
  fold (uint_chars (Pos.to_uint p)).
  pose proof (uint_chars_digits (Pos.to_uint p)) as Hd.
  pose proof (uint_chars_value (Pos.to_uint p)) as Hv.
  pose proof (to_uint_head p) as Hh.
  unfold Z.of_uint in Hv. rewrite DecimalPos.Unsigned.of_to in Hv.
  change (Z.of_N (N.pos p)) with (Z.pos p) in Hv.
  pose proof (DecimalPos.Unsigned.to_uint_nonnil p) as Hnil.
  unfold uint_chars in *.
  destruct (Pos.to_uint p) as [|u|u|u|u|u|u|u|u|u|u];
    [contradiction | exfalso; exact (Hh u eq_refl) | ..];
    cbn [NilEmpty.string_of_uint list_ascii_of_string] in *;
    eexists; eexists; (split; [reflexivity | split; [discriminate | split; assumption]]).
Qed.

(** [f"{z:0wd}"] for [0 <= z < 10^w]: [w] digits that read as [z]. *)
Lemma format_0d_digits (w : nat) (z : Z) :
  (0 < w)%nat -> 0 <= z < 10 ^ Z.of_nat w ->
  length (format_0d w z) = w /\ all_digits (format_0d w z)
  /\ digits_to_Z (format_0d w z) = z.
Proof.
  intros Hw Hz. unfold format_0d.
  assert ((z <? 0) = false) as -> by (apply Z.ltb_ge; lia).
  rewrite Z.abs_eq by lia. cbn [app length list_ascii_of_string]. rewrite Nat.sub_0_r.
  assert (all_digits (int_repr z) /\ digits_to_Z (int_repr z) = z
          /\ (length (int_repr z) <= w)%nat) as [Hd [Hv Hl]].
  { destruct (Z.eq_dec z 0) as [-> | Hnz].
    - repeat split; [repeat constructor | cbn; lia].
    - destruct (int_repr_positive z ltac:(lia)) as [c [t [E [Hc [Hd Hv]]]]].
      rewrite E. repeat split; [exact Hd | exact Hv |].
      pose proof (digits_to_Z_lower c t Hd Hc) as Hlo. rewrite Hv in Hlo.
      cbn [length].
      destruct (Nat.le_gt_cases (S (length t)) w) as [L | L]; [exact L | exfalso].
      assert (10 ^ Z.of_nat w <= 10 ^ Z.of_nat (length t))
        by (apply Z.pow_le_mono_r; lia).
      lia. }
  split; [| split].
  - rewrite length_app. unfold zeros. rewrite repeat_length. lia.
  - apply Forall_app. split; [apply all_digits_zeros | exact Hd].
  - now rewrite digits_to_Z_leading_zeros.
Qed.

(** ** The regular expressions of [strptime] *)

Lemma match_classes_spec (cls : list (ascii -> bool)) (s m r : str) :
  match_classes cls s = Some (m, r) ->
  s = m ++ r /\ Forall2 (fun cl c => cl c = true) cls m.
Proof.
  revert s m r. induction cls as [|cl cls IH]; intros s m r; cbn [match_classes].
  - intros H. injection H as <- <-. split; [reflexivity | constructor].
  - destruct s as [|c t]; [discriminate |]. destruct (cl c) eqn:E; [| discriminate].
    destruct (match_classes cls t) as [[m' r']|] eqn:E'; [| discriminate].
    intros H. injection H as <- <-. destruct (IH _ _ _ E') as [-> F].
    split; [reflexivity | now constructor].
Qed.

Lemma try_alternatives_some {A} (alts : list (list (ascii -> bool)))
  (k : str -> option A) (s m : str) (a : A) :
  try_alternatives alts k s = Some (m, a) ->
  exists alt r, In alt alts /\ match_classes alt s = Some (m, r) /\ k r = Some a.
Proof.
  induction alts as [|alt alts IH]; cbn [try_alternatives]; [discriminate |].
  assert (try_alternatives alts k s = Some (m, a) ->
          exists alt0 r, In alt0 (alt :: alts)
            /\ match_classes alt0 s = Some (m, r) /\ k r = Some a) as IH'.
  { intros H. destruct (IH H) as [alt' [r [H1 H2]]]. exists alt', r.
    split; [now right | exact H2]. }
  destruct (match_classes alt s) as [[m' r']|] eqn:E; [| exact IH'].
  destruct (k r') as [a'|] eqn:Ek; [| exact IH'].
  intros H. injection H as <- <-. exists alt, r'. repeat split; [now left | assumption ..].
Qed.

Lemma try_alternatives_none {A} (alts : list (list (ascii -> bool)))
  (k : str -> option A) (s : str) :
  (forall alt m r, In alt alts -> match_classes alt s = Some (m, r) -> k r = None) ->
  try_alternatives alts k s = None.
Proof.
  induction alts as [|alt alts IH]; intros H; cbn [try_alternatives]; [reflexivity |].
  assert (try_alternatives alts k s = None) as IH'
    by (apply IH; intros alt' m r Hin; apply H; now right).
  destruct (match_classes alt s) as [[m r]|] eqn:E; [| exact IH'].
  now rewrite (H alt m r (or_introl eq_refl) E).
Qed.

(** Every capture of a match is the text of one alternative of its
    directive, and its directive is one of the format. *)
Lemma regex_match_captures (items : list fmt_item) (s : str)
  (caps : list (directive * str)) (r : str) :
  regex_match items s = Some (caps, r) ->
  forall d m, In (d, m) caps ->
    In (Dir d) items
    /\ exists alt, In alt (directive_regex d) /\ Forall2 (fun cl c => cl c = true) alt m.
Proof.
  revert s caps r. induction items as [|it items IH]; intros s caps r; cbn [regex_match].
  - intros H. injection H as <- <-. intros d m [].
  - destruct it as [d0 | c].
    + destruct (try_alternatives (directive_regex d0) (regex_match items) s)
        as [[m0 [caps0 r0]]|] eqn:E; [| discriminate].
      intros H. injection H as <- <-.
      destruct (try_alternatives_some _ _ _ _ _ E) as [alt [r1 [Hin [Hm Hk]]]].
      intros d m [Heq | Hin'].
      * injection Heq as <- <-. split; [now left |].
        exists alt. split; [exact Hin |]. now apply match_classes_spec in Hm.
      * destruct (IH _ _ _ Hk d m Hin') as [H1 H2]. split; [now right | exact H2].
    + destruct s as [|x t]; [discriminate |]. destruct (Ascii.eqb x c); [| discriminate].
      intros H d m Hin. destruct (IH _ _ _ H d m Hin) as [H1 H2].
      split; [now right | exact H2].
Qed.

Lemma captured_In (d : directive) (caps : list (directive * str)) (m : str) :
  captured d caps = Some m -> In (d, m) caps.
Proof.
  induction caps as [|[d' m'] caps IH]; cbn [captured]; [discriminate |].
  destruct d, d'; cbn [directive_eqb]; intros H;
    try (injection H as <-; now left); right; now apply IH.
Qed.

(** A directive of the format has its capture. *)
Lemma regex_match_captured (items : list fmt_item) (s : str)
  (caps : list (directive * str)) (r : str) (d : directive) :
  regex_match items s = Some (caps, r) -> In (Dir d) items ->
  exists m, captured d caps = Some m.
Proof.
  revert s caps r. induction items as [|it items IH]; intros s caps r; cbn [regex_match].
  - intros _ [].
  - destruct it as [d0 | c].
    + destruct (try_alternatives (directive_regex d0) (regex_match items) s)
        as [[m0 [caps0 r0]]|] eqn:E; [| discriminate].
      intros H. injection H as <- <-.
      destruct (try_alternatives_some _ _ _ _ _ E) as [alt [r1 [_ [_ Hk]]]].
      intros [Heq | Hin]; cbn [captured].
      * injection Heq as ->. exists m0. now destruct d.
      * destruct (directive_eqb d d0); [now exists m0 |]. exact (IH _ _ _ Hk Hin).
    + destruct s as [|x t]; [discriminate |]. destruct (Ascii.eqb x c); [| discriminate].
      intros H [Heq | Hin]; [discriminate |]. exact (IH _ _ _ H Hin).
Qed.

(** ** Digits read by [int] *)

Lemma py_int_digits (ds : str) :
  all_digits ds -> ds <> [] -> py_int ds = Ok (digits_to_Z ds).
Proof.
  intros H Hne. unfold py_int. pose proof (all_digits_numeral _ H) as Hn.
  rewrite strip_numeral_id by now apply numeral_text_space.
  rewrite remove_underscores_id by now apply numeral_text_underscore.
  destruct ds as [|c t]; [contradiction |].
  assert (split_sign (c :: t) = (false, c :: t)) as ->
    by (apply (split_sign_sign false); now inversion H).
  now rewrite span_digits_all.
Qed.

(** The date [make_date] returns, and its bounds. *)
Lemma make_date_ok (y m d : Z) (dt : date) :
  make_date y m d = Ok dt ->
  dt = {| year := y; month := m; day := d |}
  /\ 1 <= y <= 9999 /\ 1 <= m <= 12 /\ 1 <= d <= 31.
Proof.
  unfold make_date.
  destruct ((1 <=? y) && (y <=? 9999) && (1 <=? m) && (m <=? 12)
            && (1 <=? d) && (d <=? days_in_month y m)) eqn:E; [| discriminate].
  intros H. injection H as <-. split; [reflexivity |].
  repeat (apply andb_true_iff in E; destruct E as [E ?]).
  assert (days_in_month y m <= 31).
  { unfold days_in_month. destruct (m =? 2); [destruct (is_leap y); lia |].
    destruct ((m =? 4) || (m =? 6) || (m =? 9) || (m =? 11)); lia. }
  lia.
Qed.

(** ** The text of a date *)

Lemma date_text (y m d : Z) (dt : date) :
  make_date y m d = Ok dt ->
  exists a b c e p q u v,
    format_0d 2 m = [p; q] /\ format_0d 2 d = [u; v]
    /\ all_digits [a; b; c; e] /\ all_digits [p; q] /\ all_digits [u; v]
    /\ py_int [a; b; c; e] = Ok y /\ py_int [p; q] = Ok m /\ py_int [u; v] = Ok d
    /\ strftime_ymd dt = [a; b; c; e; "-"%char; p; q; "-"%char; u; v].
Proof.
  intros H. destruct (make_date_ok _ _ _ _ H) as [-> [Hy [Hm Hd]]].
  destruct (format_0d_digits 4 y) as [L4 [D4 V4]]; [lia | change (10 ^ Z.of_nat 4) with 10000; lia |].
  destruct (format_0d_digits 2 m) as [Lm [Dm' Vm]]; [lia | change (10 ^ Z.of_nat 2) with 100; lia |].
  destruct (format_0d_digits 2 d) as [Ld [Dd' Vd]]; [lia | change (10 ^ Z.of_nat 2) with 100; lia |].
  unfold strftime_ymd. cbn [year month day].
  destruct (format_0d 4 y) as [|a [|b [|c [|e [|]]]]]; try discriminate L4.
  destruct (format_0d 2 m) as [|p [|q [|]]]; try discriminate Lm.
  destruct (format_0d 2 d) as [|u [|v [|]]]; try discriminate Ld.
  exists a, b, c, e, p, q, u, v.
  repeat split; try assumption; try reflexivity.
  - rewrite py_int_digits by (assumption || discriminate). now rewrite V4.
  - rewrite py_int_digits by (assumption || discriminate). now rewrite Vm.
  - rewrite py_int_digits by (assumption || discriminate). now rewrite Vd.
Qed.

Lemma digit_not_separator (c : ascii) :
  is_digit c = true ->
  Ascii.eqb c "/" = false /\ Ascii.eqb c "." = false /\ Ascii.eqb c "-" = false.
Proof. intros H. each_digit H; repeat split. Qed.

Lemma year_alternatives {A} (k : str -> option A) (a b c e : ascii) (r : str) (x : A) :
  all_digits [a; b; c; e] -> k r = Some x ->
  try_alternatives (directive_regex DY) k (a :: b :: c :: e :: r) = Some ([a; b; c; e], x).
Proof.
  intros H Hk.
  inversion H as [|? ? Ha H1]; subst. inversion H1 as [|? ? Hb H2]; subst.
  inversion H2 as [|? ? Hc H3]; subst. inversion H3 as [|? ? He _]; subst.
  cbn [directive_regex try_alternatives match_classes].
  now rewrite Ha, Hb, Hc, He, Hk.
Qed.

(** The two digits of a month or of a day are read as a whole by the
    first alternative that matches them. *)
Lemma month_alternatives {A} (z : Z) (k : str -> option A) (r : str) (x : A) :
  1 <= z <= 12 -> k r = Some x ->
  try_alternatives (directive_regex Dm) k (format_0d 2 z ++ r) = Some (format_0d 2 z, x).
Proof.
  intros Hz Hk.
  assert (z = 1 \/ z = 2 \/ z = 3 \/ z = 4 \/ z = 5 \/ z = 6 \/ z = 7 \/ z = 8
          \/ z = 9 \/ z = 10 \/ z = 11 \/ z = 12) as Hc by lia.
  repeat (destruct Hc as [-> | Hc]); try subst z; cbv; now rewrite Hk.
Qed.

Lemma day_alternatives {A} (z : Z) (k : str -> option A) (r : str) (x : A) :
  1 <= z <= 31 -> k r = Some x ->
  try_alternatives (directive_regex Dd) k (format_0d 2 z ++ r) = Some (format_0d 2 z, x).
Proof.
  intros Hz Hk.
  assert (z = 1 \/ z = 2 \/ z = 3 \/ z = 4 \/ z = 5 \/ z = 6 \/ z = 7 \/ z = 8
          \/ z = 9 \/ z = 10 \/ z = 11 \/ z = 12 \/ z = 13 \/ z = 14 \/ z = 15
          \/ z = 16 \/ z = 17 \/ z = 18 \/ z = 19 \/ z = 20 \/ z = 21 \/ z = 22
          \/ z = 23 \/ z = 24 \/ z = 25 \/ z = 26 \/ z = 27 \/ z = 28 \/ z = 29
          \/ z = 30 \/ z = 31) as Hc by lia.
  repeat (destruct Hc as [-> | Hc]); try subst z; cbv; now rewrite Hk.
Qed.

Lemma regex_match_dir (d : directive) (items : list fmt_item) (s : str) :
  regex_match (Dir d :: items) s
  = match try_alternatives (directive_regex d) (regex_match items) s with
    | Some (m, (caps, r)) => Some ((d, m) :: caps, r)
    | None => None
    end.
Proof. reflexivity. Qed.

Lemma regex_match_lit (c : ascii) (items : list fmt_item) (x : ascii) (t : str) :
  regex_match (Lit c :: items) (x :: t)
  = if Ascii.eqb x c then regex_match items t else None.
Proof. reflexivity. Qed.

(** [strptime] with [%Y-%m-%d] reads the text of a date as that date. *)
Lemma strptime_iso (y m d : Z) (dt : date) :
  make_date y m d = Ok dt -> strptime (strftime_ymd dt) "%Y-%m-%d" = Ok dt.
Proof.
  intros H.
  destruct (date_text y m d dt H)
    as (a & b & c & e & p & q & u & v & Em & Ed & D4 & _ & _ & I4 & Im & Id & Es).
  destruct (make_date_ok _ _ _ _ H) as [_ [_ [Hm Hd]]].
  rewrite Es. unfold strptime.
  assert (regex_match [Dir Dd] [u; v] = Some ([(Dd, [u; v])], [])) as R1.
  { rewrite regex_match_dir.
    pose proof (day_alternatives d (regex_match []) [] ([], []) Hd eq_refl) as D.
    rewrite Ed in D. cbn [app] in D. now rewrite D. }
  assert (regex_match [Dir Dm; Lit "-"; Dir Dd] [p; q; "-"%char; u; v]
          = Some ([(Dm, [p; q]); (Dd, [u; v])], [])) as R3.
  { rewrite regex_match_dir.
    pose proof (month_alternatives m (regex_match [Lit "-"; Dir Dd])
                  ("-"%char :: [u; v]) ([(Dd, [u; v])], []) Hm) as M.
    rewrite Em in M. cbn [app] in M. rewrite M; [reflexivity |].
    rewrite regex_match_lit. exact R1. }
  assert (regex_match (parse_format "%Y-%m-%d")
            [a; b; c; e; "-"%char; p; q; "-"%char; u; v]
          = Some ([(DY, [a; b; c; e]); (Dm, [p; q]); (Dd, [u; v])], [])) as ->.
  { change (parse_format "%Y-%m-%d") with [Dir DY; Lit "-"; Dir Dm; Lit "-"; Dir Dd].
    rewrite regex_match_dir.
    rewrite (year_alternatives (regex_match [Lit "-"; Dir Dm; Lit "-"; Dir Dd])
               a b c e _ ([(Dm, [p; q]); (Dd, [u; v])], []) D4); [reflexivity |].
    rewrite regex_match_lit. exact R3. }
  cbn [captured directive_eqb field]. rewrite I4. cbn [bind].
  rewrite Im. cbn [bind]. rewrite Id. cbn [bind]. exact H.
Qed.

(** A format that starts with the day and a separator does not read a
    text that starts with three digits. *)
Lemma day_then_separator_fails (sep : ascii) (items : list fmt_item)
  (a b c : ascii) (r : str) :
  Ascii.eqb b sep = false -> Ascii.eqb c sep = false ->
  regex_match (Dir Dd :: Lit sep :: items) (a :: b :: c :: r) = None.
Proof.
  intros Hb Hc. rewrite regex_match_dir.
  rewrite try_alternatives_none; [reflexivity |].
  intros alt m r' Hin Hm. apply match_classes_spec in Hm. destruct Hm as [Hs HF].
  pose proof (Forall2_length HF) as L.
  assert (r' = b :: c :: r \/ r' = c :: r) as [-> | ->].
  { cbn [directive_regex In] in Hin.
    destruct Hin as [<- | [<- | [<- | [<- | [<- | []]]]]]; cbn [length] in L;
      destruct m as [|m1 [|m2 [|m3 m]]]; try discriminate L;
      injection Hs as _ <-; auto. }
  - now rewrite regex_match_lit, Hb.
  - now rewrite regex_match_lit, Hc.
Qed.

Lemma two_digit_year_format_fails (fmt : str) (a b c : ascii) (r : str) :
  In fmt two_digit_year_formats -> is_digit b = true -> is_digit c = true ->
  parse_with_format (a :: b :: c :: r) fmt = Raise ValueError.
Proof.
  intros Hin Hb Hc.
  destruct (digit_not_separator b Hb) as [B1 [B2 B3]].
  destruct (digit_not_separator c Hc) as [C1 [C2 C3]].
  unfold two_digit_year_formats, strs in Hin. cbn [map In] in Hin.
  unfold parse_with_format, strptime.
  destruct Hin as [<- | [<- | [<- | []]]].
  - change (parse_format "%d/%m/%y") with (Dir Dd :: Lit "/" :: [Dir Dm; Lit "/"; Dir Dy]).
    now rewrite day_then_separator_fails.
  - change (parse_format "%d.%m.%y") with (Dir Dd :: Lit "." :: [Dir Dm; Lit "."; Dir Dy]).
    now rewrite day_then_separator_fails.
  - change (parse_format "%d-%m-%y") with (Dir Dd :: Lit "-" :: [Dir Dm; Lit "-"; Dir Dy]).
    now rewrite day_then_separator_fails.
Qed.

Lemma remove_separators_digits (ds : str) :
  all_digits ds -> remove_separators ds = ds /\ remove_separators (ds ++ "-") = ds.
Proof.
  intros H. unfold remove_separators.
  assert (forall sep : ascii, In sep (list_ascii_of_string "/.-") ->
            Forall (fun c => Ascii.eqb c sep = false) ds) as Habs.
  { intros sep Hs. revert H. apply Forall_impl. intros c Hc.
    apply digit_not_separator in Hc. cbn in Hs.
    destruct Hs as [<- | [<- | [<- | []]]]; tauto. }
  assert (replace "-" "" (ds ++ "-") = ds) as ->.
  { unfold replace. rewrite flat_map_app. fold (replace "-" "" ds).
    rewrite replace_absent by (apply Habs; cbn; tauto). cbn. apply List.app_nil_r. }
  rewrite !(replace_absent "-"%char) by (apply Habs; cbn; tauto).
  rewrite !(replace_absent "."%char) by (apply Habs; cbn; tauto).
  rewrite !(replace_absent "/"%char) by (apply Habs; cbn; tauto).
  now split.
Qed.

(** The heuristic for year-day-month leaves the text of a date alone. *)
Lemma date_heuristic_iso (a b c e p q u v : ascii) (y m d : Z) :
  all_digits [p; q] -> all_digits [u; v] ->
  py_int [a; b; c; e] = Ok y -> py_int [p; q] = Ok m -> py_int [u; v] = Ok d ->
  m <= 12 ->
  date_heuristic [a; b; c; e; "-"%char; p; q; "-"%char; u; v]
  = Ok [a; b; c; e; "-"%char; p; q; "-"%char; u; v].
Proof.
  intros Dp Du Iy Im Id Hm. unfold date_heuristic.
  cbn [length Nat.eqb index nth_error bind slice Nat.sub skipn firstn].
  change (char_in "-" "-./") with true. cbv iota.
  destruct (remove_separators_digits [p; q] Dp) as [_ Rp].
  cbn [app list_ascii_of_string] in Rp. rewrite Rp.
  destruct (remove_separators_digits [u; v] Du) as [-> _].
  rewrite Iy. cbn [bind]. rewrite Im. cbn [bind]. rewrite Id. cbn [bind].
  assert ((m >? 12) = false) as -> by (rewrite Z.gtb_ltb; apply Z.ltb_ge; lia).
  reflexivity.
Qed.

Lemma standardize_date_iso (y m d : Z) (dt : date) :
  make_date y m d = Ok dt ->
  standardize_date (CStr (strftime_ymd dt)) = Ok (CStr (strftime_ymd dt)).
Proof.
  intros H. pose proof (strptime_iso y m d dt H) as P.
  destruct (date_text y m d dt H)
    as (a & b & c & e & p & q & u & v & _ & _ & D4 & Dp & Du & I4 & Im & Id & Es).
  destruct (make_date_ok _ _ _ _ H) as [_ [_ [Hm _]]].
  unfold standardize_date.
  rewrite long_not_nullish by (rewrite Es; cbn [length]; lia).
  cbn [py_str]. rewrite strip_id.
  - rewrite Es at 1. rewrite (date_heuristic_iso a b c e p q u v y m d) by (assumption || lia).
    cbn [bind]. unfold formats_to_try, strs. cbn [map try_formats].
    assert (is_digit b = true /\ is_digit c = true) as [Hb Hc]
      by (inversion D4 as [|? ? _ D3]; inversion D3 as [|? ? ? D2]; inversion D2; auto).
    rewrite !two_digit_year_format_fails
      by (assumption || (unfold two_digit_year_formats, strs; cbn [map In]; tauto)).
    cbn [try_except existsb exn_eqb orb].
    unfold parse_with_format at 1. rewrite <- Es, P. cbn [bind].
    change (endswith "%Y-%m-%d" "%y") with false. cbv iota. cbn [bind try_except].
    reflexivity.
  - rewrite Es. apply numeral_text_space.
    assert (forall s t, all_digits s -> numeral_text t -> numeral_text (s ++ "-"%char :: t)) as K.
    { intros s t Hs Ht. apply Forall_app. split; [now apply all_digits_numeral |].
      constructor; [reflexivity | exact Ht]. }
    apply (K [a; b; c; e]); [exact D4 |]. apply (K [p; q]); [exact Dp |].
    now apply all_digits_numeral.
Qed.

(** A format that reads a string gives a date of the calendar. *)
Lemma strptime_date (s fmt : str) (dt : date) :
  strptime s fmt = Ok dt -> exists y m d, make_date y m d = Ok dt.
Proof.
  unfold strptime. destruct (regex_match (parse_format fmt) s) as [[caps [|? ?]]|];
    try discriminate.
  destruct (match captured DY caps with
            | Some m => py_int m
            | None => match captured Dy caps with
                      | Some m => yy <- py_int m ;; Ok (if yy <=? 68 then yy + 2000 else yy + 1900)
                      | None => Ok 1900
                      end
            end) as [y|]; [| discriminate].
  cbn [bind]. destruct (field Dm caps 1) as [m|]; [| discriminate].
  cbn [bind]. destruct (field Dd caps 1) as [d|]; [| discriminate].
  cbn [bind]. eauto.
Qed.

Lemma parse_with_format_date (s fmt t : str) :
  parse_with_format s fmt = Ok (CStr t) ->
  exists y m d dt, make_date y m d = Ok dt /\ t = strftime_ymd dt.
Proof.
  unfold parse_with_format. destruct (strptime s fmt) as [dt|] eqn:E; [| discriminate].
  cbn [bind]. destruct (strptime_date _ _ _ E) as [y [m [d H]]].
  assert (forall r : result date, r = Ok dt \/ (exists y', r = replace_year dt y') ->
            (date_obj <- r ;; Ok (CStr (strftime_ymd date_obj))) = Ok (CStr t) ->
            exists y m d dt, make_date y m d = Ok dt /\ t = strftime_ymd dt) as K.
  { intros r [-> | [y' ->]]; cbn [bind].
    - intros H'. injection H' as <-. now exists y, m, d, dt.
    - unfold replace_year. destruct (make_date y' (month dt) (day dt)) as [dt'|] eqn:E';
        [| discriminate].
      cbn [bind]. intros H'. injection H' as <-. now exists y', (month dt), (day dt), dt'. }
  apply K. destruct (endswith fmt "%y"); [| now left].
  destruct (year dt <? 100); [| now left].
  destruct (year dt <? 50); right; eauto.
Qed.

(** X11.  A date [standardize_date] returns, other than '', is the text
    [YYYY-MM-DD] of a date of the calendar: ten characters that
    [strptime] reads with [%Y-%m-%d] as that date. *)
Theorem standardize_date_gives_iso_date (v : cell) (s : str) :
  standardize_date v = Ok (CStr s) -> s <> [] ->
  exists dt,
    make_date (year dt) (month dt) (day dt) = Ok dt
    /\ s = strftime_ymd dt /\ length s = 10%nat
    /\ separator_at 4 s = true /\ separator_at 7 s = true
    /\ strptime s "%Y-%m-%d" = Ok dt.
Proof.
  intros H Hne.
  destruct (standardize_date_result v) as [E | [d0 [fmt [t [_ [_ [Hp E]]]]]]];
    rewrite E in H; injection H as <-; [contradiction |].
  destruct (parse_with_format_date _ _ _ Hp) as [y [m [d [dt [Hd ->]]]]].
  exists dt. destruct (make_date_ok _ _ _ _ Hd) as [Edt _].
  assert (make_date (year dt) (month dt) (day dt) = Ok dt) as Hv by (now subst dt).
  split; [exact Hv |]. split; [reflexivity |].
  destruct (date_text y m d dt Hd)
    as (a & b & c & e & p & q & u & w & _ & _ & _ & _ & _ & _ & _ & _ & Es).
  split; [rewrite Es; reflexivity |]. split; [rewrite Es; reflexivity |].
  split; [rewrite Es; reflexivity |].
  exact (strptime_iso y m d dt Hd).
Qed.

Lemma standardize_date_gives_iso_date_witness :
  standardize_date (CStr " 05/03/24 ") = Ok (CStr "2024-03-05")
  /\ exists dt, strptime "2024-03-05" "%Y-%m-%d" = Ok dt.
Proof.
  split; [reflexivity |].
  destruct (standardize_date_gives_iso_date (CStr " 05/03/24 ") "2024-03-05" eq_refl)
    as [dt [_ [_ [_ [_ [_ H]]]]]]; [discriminate |].
  now exists dt.
Defined.

(** ** The year as the C library writes it *)

Lemma parse_with_format_padded (s fmt : str) :
  parse_with_format_on Padded s fmt = parse_with_format s fmt.
Proof. reflexivity. Qed.

Lemma try_formats_padded (fmts : list str) (s : str) :
  try_formats_on Padded fmts s = try_formats fmts s.
Proof.
  induction fmts as [|fmt rest IH]; [reflexivity |].
  cbn [try_formats_on try_formats]. now rewrite IH, parse_with_format_padded.
Qed.

Lemma standardize_date_padded (v : cell) :
  standardize_date_on Padded v = standardize_date v.
Proof.
  unfold standardize_date_on, standardize_date.
  destruct (is_nullish v); [reflexivity |].
  destruct (date_heuristic (strip (py_str v))); [| reflexivity].
  cbn [bind]. apply try_formats_padded.
Qed.

(** Whatever the C library, a format reads the same date or fails the
    same way; only the text of the date differs. *)
Lemma parse_with_format_on_result (c : year_digits) (s fmt : str) :
  (exists e, parse_with_format s fmt = Raise e /\ parse_with_format_on c s fmt = Raise e)
  \/ exists y m d dt,
       make_date y m d = Ok dt
       /\ parse_with_format s fmt = Ok (CStr (strftime_ymd dt))
       /\ parse_with_format_on c s fmt = Ok (CStr (strftime_ymd_on c dt)).
Proof.
  unfold parse_with_format, parse_with_format_on.
  destruct (strptime s fmt) as [dt | e] eqn:E; [| left; now exists e].
  cbn [bind]. destruct (strptime_date _ _ _ E) as [y [m [d H]]].
  assert (forall r : result date,
            r = Ok dt \/ (exists y', r = replace_year dt y') ->
            (exists e, (date_obj <- r ;; Ok (CStr (strftime_ymd date_obj))) = Raise e
                       /\ (date_obj <- r ;; Ok (CStr (strftime_ymd_on c date_obj))) = Raise e)
            \/ exists y m d dt,
                 make_date y m d = Ok dt
                 /\ (date_obj <- r ;; Ok (CStr (strftime_ymd date_obj)))
                    = Ok (CStr (strftime_ymd dt))
                 /\ (date_obj <- r ;; Ok (CStr (strftime_ymd_on c date_obj)))
                    = Ok (CStr (strftime_ymd_on c dt))) as K.
  { intros r [-> | [y' ->]]; cbn [bind].
    - right. now exists y, m, d, dt.
    - unfold replace_year.
      destruct (make_date y' (month dt) (day dt)) as [dt' | e] eqn:E'; cbn [bind].
      + right. now exists y', (month dt), (day dt), dt'.
      + left. now exists e. }
  apply K. destruct (endswith fmt "%y"); [| now left].
  destruct (year dt <? 100); [| now left].
  destruct (year dt <? 50); right; eauto.
Qed.

Lemma try_formats_on_result (c : year_digits) (fmts : list str) (s : str) :
  (try_formats fmts s = Ok (CStr "") /\ try_formats_on c fmts s = Ok (CStr ""))
  \/ exists y m d dt,
       make_date y m d = Ok dt
       /\ try_formats fmts s = Ok (CStr (strftime_ymd dt))
       /\ try_formats_on c fmts s = Ok (CStr (strftime_ymd_on c dt)).
Proof.
  induction fmts as [|fmt rest IH]; cbn [try_formats try_formats_on]; [now left |].
  destruct (parse_with_format_on_result c s fmt)
    as [[e [E1 E2]] | [y [m [d [dt [H [E1 E2]]]]]]]; rewrite E1, E2; run.
  - rewrite (parse_with_format_raises_only s fmt e E1). run. exact IH.
  - right. now exists y, m, d, dt.
Qed.

Lemma standardize_date_on_result (c : year_digits) (v : cell) :
  (standardize_date v = Ok (CStr "") /\ standardize_date_on c v = Ok (CStr ""))
  \/ exists y m d dt,
       make_date y m d = Ok dt
       /\ standardize_date v = Ok (CStr (strftime_ymd dt))
       /\ standardize_date_on c v = Ok (CStr (strftime_ymd_on c dt)).
Proof.
  unfold standardize_date, standardize_date_on.
  destruct (is_nullish v); [now left |].
  destruct (date_heuristic_total (strip (py_str v))) as [d Hd]. rewrite Hd. run.
  apply try_formats_on_result.
Qed.

(** A year written with four digits is written the same with and without
    padding. *)
Lemma strftime_unpadded_four_digits (y m d : Z) (dt : date) :
  make_date y m d = Ok dt ->
  length (strftime_ymd_on Unpadded dt) = 10%nat ->
  strftime_ymd_on Unpadded dt = strftime_ymd dt.
Proof.
  intros H L.
  destruct (date_text y m d dt H)
    as (a & b & c & e & p & q & u & v & Em & Ed & _).
  destruct (make_date_ok _ _ _ _ H) as [-> [Hy _]].
  unfold strftime_ymd_on, strftime_ymd in *. cbn [year month day] in *.
  rewrite Em, Ed in L. rewrite !length_app in L. cbn [length list_ascii_of_string] in L.
  f_equal. unfold format_0d.
  assert ((y <? 0) = false) as -> by (apply Z.ltb_ge; lia).
  rewrite Z.abs_eq by lia. cbn [app length list_ascii_of_string].
  replace (4 - 0 - length (int_repr y))%nat with 0%nat by lia. reflexivity.
Qed.

(** The text of a date tells the date. *)
Lemma strftime_ymd_inj (y m d y' m' d' : Z) (dt dt' : date) :
  make_date y m d = Ok dt -> make_date y' m' d' = Ok dt' ->
  strftime_ymd dt = strftime_ymd dt' -> dt = dt'.
Proof.
  intros H H' E. pose proof (strptime_iso y m d dt H) as P.
  pose proof (strptime_iso y' m' d' dt' H') as P'.
  rewrite E, P' in P. now injection P.
Qed.

(** A date text with a four-digit year is read back as itself. *)
Lemma standardize_date_on_fixed (c : year_digits) (v : cell) (s : str) :
  standardize_date_on c v = Ok (CStr s) ->
  c = Padded \/ s = [] \/ length s = 10%nat ->
  standardize_date_on c (CStr s) = Ok (CStr s).
Proof.
  intros H Hc.
  destruct (standardize_date_on_result c v)
    as [[_ E] | [y [m [d [dt [Hd [_ E]]]]]]];
    rewrite E in H; injection H as <-; [reflexivity |].
  assert (strftime_ymd_on c dt = strftime_ymd dt) as Es.
  { destruct c; [reflexivity |]. destruct Hc as [Hc | [Hc | Hc]]; [discriminate | |].
    - exfalso. destruct (date_text y m d dt Hd)
        as (a & b & c0 & e & p & q & u & w & Em & Ed & _).
      unfold strftime_ymd_on in Hc. now destruct (int_repr (year dt)).
    - exact (strftime_unpadded_four_digits y m d dt Hd Hc). }
  rewrite Es. pose proof (standardize_date_iso y m d dt Hd) as Hi.
  destruct (standardize_date_on_result c (CStr (strftime_ymd dt)))
    as [[E1 _] | [y' [m' [d' [dt' [Hd' [E1 E2]]]]]]]; rewrite E1 in Hi.
  - exfalso. injection Hi as Hi.
    destruct (date_text y m d dt Hd)
      as (a & b & c0 & e & p & q & u & w & _ & _ & _ & _ & _ & _ & _ & _ & Et).
    rewrite Et in Hi. discriminate Hi.
  - injection Hi as Hi.
    pose proof (strftime_ymd_inj _ _ _ _ _ _ _ _ Hd' Hd Hi) as ->.
    now rewrite E2, Es.
Qed.

(** X12.  A date [standardize_date] has returned with a four-digit year
    (a text of ten characters), or '', is returned unchanged when the
    function is applied to it, whether the C library pads the year or
    not.  Where it pads the year every date returned has ten characters
    and the function is idempotent; where it does not, a year below 1000
    is written short and read as another date the second time. *)
Theorem standardize_date_idempotent (c : year_digits) (v : cell) (s : str) :
  standardize_date_on c v = Ok (CStr s) ->
  c = Padded \/ s = [] \/ length s = 10%nat ->
  standardize_date_on c (CStr s) = Ok (CStr s).
Proof. exact (standardize_date_on_fixed c v s). Qed.

Lemma standardize_date_idempotent_witness :
  (standardize_date_on Unpadded (CStr "2026-25-01") = Ok (CStr "2026-01-25")
   /\ standardize_date_on Unpadded (CStr "2026-01-25") = Ok (CStr "2026-01-25"))
  /\ (standardize_date_on Padded (CStr "0026-25-01") = Ok (CStr "0026-01-25")
      /\ standardize_date_on Padded (CStr "0026-01-25") = Ok (CStr "0026-01-25"))
  /\ (standardize_date_on Unpadded (CStr "0026-25-01") = Ok (CStr "26-01-25")
      /\ standardize_date_on Unpadded (CStr "26-01-25") = Ok (CStr "2025-01-26")).
Proof.
  split; [split; [reflexivity |] | split; [split; [reflexivity |] | split; reflexivity]].
  - exact (standardize_date_idempotent Unpadded (CStr "2026-25-01") "2026-01-25" eq_refl
             (or_intror (or_intror eq_refl))).
  - exact (standardize_date_idempotent Padded (CStr "0026-25-01") "0026-01-25" eq_refl
             (or_introl eq_refl)).
Defined.

(** ** Two-digit years *)

Lemma two_digit_year_items (fmt : str) :
  In fmt two_digit_year_formats ->
  endswith fmt "%y" = true /\ In (Dir Dy) (parse_format fmt)
  /\ ~ In (Dir DY) (parse_format fmt).
Proof.
  unfold two_digit_year_formats, strs. cbn [map In].
  intros [<- | [<- | [<- | []]]];
    (split; [reflexivity |]; split;
     [vm_compute; tauto
     | vm_compute; intros H; repeat (destruct H as [H | H]; [discriminate H |]); exact H]).
Qed.

(** The year [strptime] gives for a two-digit year: from 1969 to 2068. *)
Lemma strptime_two_digit_year (s fmt : str) (dt : date) :
  In fmt two_digit_year_formats -> strptime s fmt = Ok dt -> 1969 <= year dt <= 2068.
Proof.
  intros Hin. destruct (two_digit_year_items fmt Hin) as [_ [Hy HY]].
  unfold strptime.
  destruct (regex_match (parse_format fmt) s) as [[caps [|? ?]]|] eqn:R; try discriminate.
  destruct (captured DY caps) as [m0|] eqn:CY.
  { exfalso. apply captured_In in CY.
    destruct (regex_match_captures _ _ _ _ R _ _ CY) as [Hc _]. contradiction. }
  destruct (regex_match_captured _ _ _ _ Dy R Hy) as [m Cm]. rewrite Cm.
  apply captured_In in Cm.
  destruct (regex_match_captures _ _ _ _ R _ _ Cm) as [_ [alt [Halt HF]]].
  cbn [directive_regex In] in Halt. destruct Halt as [<- | []].
  inversion HF as [|? c1 ? m1 H1 HF1]; subst.
  inversion HF1 as [|? c2 ? m2 H2 HF2]; subst. inversion HF2; subst.
  assert (all_digits [c1; c2]) as Hd by (repeat constructor; assumption).
  rewrite py_int_digits by (assumption || discriminate).
  pose proof (digits_to_Z_bound _ Hd) as Hb. cbn [length] in Hb.
  change (10 ^ Z.of_nat 2) with 100 in Hb.
  cbn [bind]. destruct (field Dm caps 1) as [mo|]; [| discriminate].
  cbn [bind]. destruct (field Dd caps 1) as [da|]; [| discriminate].
  cbn [bind]. intros H. apply make_date_ok in H. destruct H as [-> _].
  cbn [year]. destruct (Z.leb_spec (digits_to_Z [c1; c2]) 68); lia.
Qed.

(** X13.  With a format that ends in a two-digit year, the date returned
    is the one [strptime] has read, with its year between 1969 and 2068
    (00 to 68 are years of the 2000s, 69 to 99 of the 1900s): the
    correction of years below 100 that follows in [standardize_date]
    never changes it. *)
Theorem two_digit_year_window (s fmt t : str) :
  In fmt two_digit_year_formats -> parse_with_format s fmt = Ok (CStr t) ->
  exists dt, strptime s fmt = Ok dt /\ t = strftime_ymd dt /\ 1969 <= year dt <= 2068.
Proof.
  intros Hin. destruct (two_digit_year_items fmt Hin) as [He _].
  unfold parse_with_format. destruct (strptime s fmt) as [dt|] eqn:E; [| discriminate].
  pose proof (strptime_two_digit_year s fmt dt Hin E) as Hy.
  cbn [bind]. rewrite He.
  assert ((year dt <? 100) = false) as -> by (apply Z.ltb_ge; lia).
  cbn [bind]. intros H. injection H as <-. now exists dt.
Qed.

Lemma two_digit_year_window_witness :
  parse_with_format "01/02/60" "%d/%m/%y" = Ok (CStr "2060-02-01")
  /\ exists dt, strptime "01/02/60" "%d/%m/%y" = Ok dt /\ 1969 <= year dt <= 2068.
Proof.
  split; [reflexivity |].
  destruct (two_digit_year_window "01/02/60" "%d/%m/%y" "2060-02-01") as [dt [H1 [_ H2]]].
  - unfold two_digit_year_formats, strs. cbn [map In]. now left.
  - reflexivity.
  - now exists dt.
Defined.

(* ================================================================= *)
(** * Every normaliser on its own result *)

(** ** Percentages under both interpreters *)










(* ================================================================= *)
(** * The join: which rows, and how many *)

(** X14.  No source row is lost and none is moved: every row of the three
    tables is carried by a joined row under its own key, and every joined
    row that carries it has that key. *)
Theorem full_outer_join_keeps_every_row
  (projetos horas custos : list source_row) (r : source_row) :
  In r projetos \/ In r horas \/ In r custos ->
  (exists j, In j (full_outer_join_data projetos horas custos)
             /\ match_key j = match_project_key (project_id r) (projeto r)
             /\ carries j r)
  /\ (forall j, In j (full_outer_join_data projetos horas custos) ->
                carries j r ->
                match_key j = match_project_key (project_id r) (projeto r)).
Proof.
  intros Hin.
  set (p := add_keys projetos). set (h := add_keys horas). set (c := add_keys custos).
  assert (forall df kr, In kr (add_keys df) -> k_row kr = r ->
            k_key kr = match_project_key (project_id r) (projeto r)) as Hk.
  { intros df kr Hkr <-. apply add_keys_from_In in Hkr. now destruct Hkr as [_ ->]. }
  split.
  - assert (forall kr, In kr p \/ In kr h \/ In kr c -> In (k_key kr) (all_keys p h c)) as Hbase.
    { intros kr Hkr. unfold all_keys. apply unique_In. rewrite !in_app_iff, !in_map_iff.
      destruct Hkr as [H | [H | H]]; [left | right; left | right; right];
        exists kr; split; auto. }
    unfold full_outer_join_data, carries. fold p h c.
    destruct Hin as [H | [H | H]];
      destruct (add_keys_from_complete 0 _ _ H) as [kr [H1 H2]];
      pose proof (Hk _ _ H1 H2) as Hkr.
    + destruct (merge_all_projeto (all_keys p h c) p h c kr) as [j [Hj [Hm Hs]]];
        [apply Hbase; now left | exact H1 |].
      exists j. rewrite Hm, Hkr. repeat split; [exact Hj |]. exists kr. auto.
    + destruct (merge_all_horas (all_keys p h c) p h c kr) as [j [Hj [Hm Hs]]];
        [apply Hbase; right; now left | exact H1 |].
      exists j. rewrite Hm, Hkr. repeat split; [exact Hj |]. exists kr. auto.
    + destruct (merge_all_custo (all_keys p h c) p h c kr) as [j [Hj [Hm Hs]]];
        [apply Hbase; right; now right | exact H1 |].
      exists j. rewrite Hm, Hkr. repeat split; [exact Hj |]. exists kr. auto.
  - intros j Hj [kr [Hr Hs]]. unfold full_outer_join_data in Hj.
    apply merge_all_key in Hj. destruct Hj as [_ [Hp [Hh Hc]]].
    destruct Hs as [Hs | [Hs | Hs]];
      [apply Hp in Hs | apply Hh in Hs | apply Hc in Hs];
      destruct Hs as [Hs <-]; eapply Hk; eauto.
Qed.

Lemma full_outer_join_keeps_every_row_witness :
  exists j,
    In j (full_outer_join_data
            [ {| project_id := CStr "P1"; projeto := CStr "Alfa"; payload := [] |} ]
            [ {| project_id := CNone; projeto := CStr "Projeto Beta!"; payload := [] |} ]
            [])
    /\ match_key j = "projeto beta".
Proof.
  destruct (full_outer_join_keeps_every_row
              [ {| project_id := CStr "P1"; projeto := CStr "Alfa"; payload := [] |} ]
              [ {| project_id := CNone; projeto := CStr "Projeto Beta!"; payload := [] |} ]
              []
              {| project_id := CNone; projeto := CStr "Projeto Beta!"; payload := [] |})
    as [[j [H1 [H2 _]]] _].
  - right. left. now left.
  - exists j. split; [exact H1 | exact H2].
Defined.

(** ** How often a key and a record occur in the joined table *)

Section MergeCount.
Context {A : Type} (key_of : A -> str).

Lemma merge_block_length {B} (l : A) (f : keyed_row -> B) (b : B) (ms : list keyed_row) :
  length (match ms with [] => [b] | m :: t => map f (m :: t) end) = Nat.max 1 (length ms).
Proof. destruct ms as [|m ms]; [reflexivity |]. rewrite length_map. cbn [length]. lia. Qed.

Lemma merge_block_filter (k : str) (l : A) (ms : list keyed_row) :
  filter (fun x : A * option keyed_row => str_eqb (key_of (fst x)) k)
    (match ms with [] => [(l, None)] | m :: t => map (fun r => (l, Some r)) (m :: t) end)
  = if str_eqb (key_of l) k
    then match ms with [] => [(l, None)] | m :: t => map (fun r => (l, Some r)) (m :: t) end
    else [].
Proof.
  assert (forall ms', filter (fun x : A * option keyed_row => str_eqb (key_of (fst x)) k)
                        (map (fun r => (l, Some r)) ms')
                      = if str_eqb (key_of l) k
                        then map (fun r => (l, Some r)) ms' else []) as K.
  { induction ms' as [|m ms' IH]; [now destruct (str_eqb (key_of l) k) |].
    cbn [map filter fst]. rewrite IH. now destruct (str_eqb (key_of l) k). }
  destruct ms as [|m ms];
    [cbn [filter fst]; now destruct (str_eqb (key_of l) k) | apply K].
Qed.

(** The rows of a left merge whose left part has the key [k]: one for
    every right row of that key, and at least one, per left row. *)
Lemma merge_left_count (k : str) (left : list A) (right : list keyed_row) :
  length (filter (fun x => str_eqb (key_of (fst x)) k) (merge_left key_of left right))
  = (length (filter (fun l => str_eqb (key_of l) k) left)
     * Nat.max 1 (count_key k right))%nat.
Proof.
  unfold merge_left. induction left as [|l left IH]; [reflexivity |].
  cbn [flat_map filter]. rewrite filter_app, length_app, IH.
  rewrite merge_block_filter.
  destruct (str_eqb (key_of l) k) eqn:E.
  - apply str_eqb_eq in E. rewrite E.
    rewrite (merge_block_length l). fold (count_key k right). cbn [length]. lia.
  - reflexivity.
Qed.
End MergeCount.

Lemma filter_map_length {A B} (f : A -> B) (g : B -> bool) (l : list A) :
  length (filter g (map f l)) = length (filter (fun a => g (f a)) l).
Proof.
  induction l as [|a l IH]; [reflexivity |].
  cbn [map filter]. destruct (g (f a)); cbn [length]; now rewrite IH.
Qed.

Lemma filter_none {A} (g : A -> bool) (l : list A) :
  (forall a, In a l -> g a = false) -> filter g l = [].
Proof.
  induction l as [|a l IH]; intros H; [reflexivity |].
  cbn [filter]. rewrite (H a (or_introl eq_refl)). apply IH.
  intros b Hb. apply H. now right.
Qed.

Lemma str_eqb_sym (s t : str) : str_eqb s t = str_eqb t s.
Proof.
  revert t. induction s as [|a s IH]; intros [|b t]; try reflexivity.
  cbn [str_eqb]. now rewrite IH, Ascii.eqb_sym.
Qed.

Lemma count_in_NoDup (k : str) (base : list str) :
  NoDup base -> In k base -> length (filter (fun b => str_eqb b k) base) = 1%nat.
Proof.
  induction 1 as [|b base Hb Hn IH]; intros Hin; [destruct Hin |].
  cbn [filter]. destruct (str_eqb b k) eqn:E.
  - apply str_eqb_eq in E. subst b. rewrite filter_none; [reflexivity |].
    intros a Ha. destruct (str_eqb a k) eqn:E'; [| reflexivity].
    apply str_eqb_eq in E'. now subst a.
  - destruct Hin as [-> | Hin]; [now rewrite str_eqb_refl in E | now apply IH].
Qed.

(** The joined rows of a key: the rows of the three tables with that
    key, multiplied, a table without such a row counting as one. *)
Lemma merge_all_count (k : str) (base : list str) (p h c : list keyed_row) :
  length (filter (fun j => str_eqb (match_key j) k) (merge_all base p h c))
  = (length (filter (fun b => str_eqb b k) base)
     * Nat.max 1 (count_key k p) * Nat.max 1 (count_key k h)
     * Nat.max 1 (count_key k c))%nat.
Proof.
  unfold merge_all. cbv zeta. rewrite filter_map_length. cbn [match_key].
  rewrite (merge_left_count (fun x : str * option keyed_row * option keyed_row => fst (fst x))).
  rewrite (merge_left_count (fun x : str * option keyed_row => fst x)).
  rewrite (merge_left_count (fun b : str => b)).
  reflexivity.
Qed.

(** X15.  The joined table has, for every key, as many rows as the product
    of the numbers of rows with that key in the three tables, a table
    without such a row counting as one: rows of one key are combined in
    all ways. *)
Theorem joined_rows_per_key (projetos horas custos : list source_row) (k : str) :
  In k (all_keys (add_keys projetos) (add_keys horas) (add_keys custos)) ->
  length (filter (fun j => str_eqb (match_key j) k)
            (full_outer_join_data projetos horas custos))
  = (Nat.max 1 (count_key k (add_keys projetos))
     * Nat.max 1 (count_key k (add_keys horas))
     * Nat.max 1 (count_key k (add_keys custos)))%nat.
Proof.
  intros Hin. unfold full_outer_join_data. cbv zeta. rewrite merge_all_count.
  rewrite count_in_NoDup by (apply unique_NoDup || exact Hin). lia.
Qed.

Lemma joined_rows_per_key_witness :
  length (filter (fun j => str_eqb (match_key j) "P1")
            (full_outer_join_data
               [ {| project_id := CStr "P1"; projeto := CStr "Alfa"; payload := [] |} ]
               [ {| project_id := CStr "P1"; projeto := CNone; payload := [CStr "3:30"] |};
                 {| project_id := CStr "P1"; projeto := CNone; payload := [CStr "2.5"] |} ]
               [ {| project_id := CStr "P1"; projeto := CNone; payload := [CStr "10"] |};
                 {| project_id := CStr "P1"; projeto := CNone; payload := [CStr "20"] |};
                 {| project_id := CStr "P1"; projeto := CNone; payload := [CStr "30"] |} ]))
  = 6%nat.
Proof.
  rewrite joined_rows_per_key; [reflexivity |].
  vm_compute. now left.
Defined.

(** ** How often a cost record occurs *)

Lemma add_keys_from_source_ge (i0 i : nat) (df : list source_row) (g : keyed_row -> bool) :
  (i < i0)%nat ->
  filter (fun x => g x && Nat.eqb (k_source_id x) i) (add_keys_from i0 df) = [].
Proof.
  intros Hlt. apply filter_none. intros x Hx.
  assert (i0 <= k_source_id x)%nat as Hge.
  { revert i0 Hx Hlt. induction df as [|r df IH]; intros i0 Hx Hlt; [destruct Hx |].
    cbn [add_keys_from] in Hx. destruct Hx as [<- | Hx]; [cbn; lia |].
    apply IH in Hx; lia. }
  assert (Nat.eqb (k_source_id x) i = false) as -> by (apply Nat.eqb_neq; lia).
  apply andb_false_r.
Qed.

(** One row of a table with keys has the index [i], and it has the key of
    the [i]-th row. *)
Lemma add_keys_count_source (df : list source_row) (n i0 : nat) (r : source_row) (k : str) :
  nth_error df n = Some r ->
  length (filter (fun x => str_eqb (k_key x) k && Nat.eqb (k_source_id x) (i0 + n))
            (add_keys_from i0 df))
  = if str_eqb (match_project_key (project_id r) (projeto r)) k then 1%nat else 0%nat.
Proof.
  revert n i0. induction df as [|r0 df IH]; intros n i0 Hn; [now destruct n |].
  cbn [add_keys_from filter k_key k_source_id]. destruct n as [|n].
  - injection Hn as ->. rewrite Nat.add_0_r, Nat.eqb_refl, andb_true_r.
    rewrite add_keys_from_source_ge by lia.
    now destruct (str_eqb (match_project_key (project_id r) (projeto r)) k).
  - cbn [nth_error] in Hn.
    assert (Nat.eqb i0 (i0 + S n) = false) as -> by (apply Nat.eqb_neq; lia).
    rewrite andb_false_r. replace (i0 + S n)%nat with (S i0 + n)%nat by lia.
    now apply IH.
Qed.

Lemma filter_filter {A} (f g : A -> bool) (l : list A) :
  filter f (filter g l) = filter (fun a => g a && f a) l.
Proof.
  induction l as [|a l IH]; [reflexivity |].
  cbn [filter]. destruct (g a); cbn [filter andb]; [destruct (f a) |]; now rewrite IH.
Qed.

Section MergeSource.
Context {A : Type} (key_of : A -> str).

(** The rows of a left merge that hold the right row of index [i], when
    one right row has that index and its key is [k0]: one per left row of
    that key. *)
Lemma merge_left_count_source (i : nat) (k0 : str) (left : list A) (right : list keyed_row) :
  (forall k, length (filter (fun r => str_eqb (k_key r) k && Nat.eqb (k_source_id r) i) right)
             = if str_eqb k0 k then 1%nat else 0%nat) ->
  length (filter (fun x : A * option keyed_row =>
                    match snd x with
                    | Some r => Nat.eqb (k_source_id r) i
                    | None => false
                    end) (merge_left key_of left right))
  = length (filter (fun l => str_eqb (key_of l) k0) left).
Proof.
  intros Hc. unfold merge_left. induction left as [|l left IH]; [reflexivity |].
  cbn [flat_map filter]. rewrite filter_app, length_app, IH.
  specialize (Hc (key_of l)). rewrite <- filter_filter in Hc.
  rewrite (str_eqb_sym (key_of l) k0).
  destruct (filter (fun r => str_eqb (k_key r) (key_of l)) right) as [|m ms].
  - cbn [filter length snd] in *. destruct (str_eqb k0 (key_of l)); [discriminate | reflexivity].
  - assert (forall ms', length (filter (fun x : A * option keyed_row =>
                                    match snd x with
                                    | Some r => Nat.eqb (k_source_id r) i
                                    | None => false
                                    end) (map (fun r => (l, Some r)) ms'))
                        = length (filter (fun r => Nat.eqb (k_source_id r) i) ms')) as K.
    { intros ms'. now rewrite filter_map_length. }
    rewrite K, Hc. destruct (str_eqb k0 (key_of l)); reflexivity.
Qed.
End MergeSource.

(** X16.  A cost record occurs in the joined table once for every pair of
    a project row and an hours row with its key, a table without such a
    row counting as one: its value is repeated that often in the column
    the dashboard adds up. *)
Theorem cost_record_fan_out (projetos horas custos : list source_row)
  (i : nat) (r : source_row) :
  nth_error custos i = Some r ->
  length (filter (has_custo_source i) (full_outer_join_data projetos horas custos))
  = (Nat.max 1 (count_key (match_project_key (project_id r) (projeto r)) (add_keys projetos))
     * Nat.max 1 (count_key (match_project_key (project_id r) (projeto r)) (add_keys horas)))%nat.
Proof.
  intros Hn. set (k := match_project_key (project_id r) (projeto r)).
  set (p := add_keys projetos). set (h := add_keys horas). set (c := add_keys custos).
  assert (In k (all_keys p h c)) as Hin.
  { unfold all_keys. apply unique_In. rewrite !in_app_iff, !in_map_iff. right. right.
    destruct (add_keys_from_complete 0 _ _ (nth_error_In _ _ Hn)) as [kr [H1 H2]].
    exists kr. split; [| exact H1]. apply add_keys_from_In in H1. destruct H1 as [_ ->].
    now rewrite H2. }
  unfold full_outer_join_data, merge_all. cbv zeta. fold p h c.
  rewrite filter_map_length. unfold has_custo_source, custo_source_id. cbn [j_custo].
  rewrite (filter_ext _
             (fun x : str * option keyed_row * option keyed_row * option keyed_row =>
                match snd x with
                | Some r => Nat.eqb (k_source_id r) i
                | None => false
                end))
    by (intros [x [y|]]; reflexivity).
  rewrite (merge_left_count_source
             (fun x : str * option keyed_row * option keyed_row => fst (fst x)) i k).
  - rewrite (merge_left_count (fun x : str * option keyed_row => fst x)).
    rewrite (merge_left_count (fun b : str => b)).
    rewrite count_in_NoDup by (apply unique_NoDup || exact Hin). lia.
  - intros k'. exact (add_keys_count_source custos i 0 r k' Hn).
Qed.

Lemma cost_record_fan_out_witness :
  length (filter (has_custo_source 0)
            (full_outer_join_data
               [ {| project_id := CStr "P1"; projeto := CStr "Alfa"; payload := [] |} ]
               [ {| project_id := CStr "P1"; projeto := CNone; payload := [CStr "3:30"] |};
                 {| project_id := CStr "P1"; projeto := CNone; payload := [CStr "2.5"] |} ]
               [ {| project_id := CStr "P1"; projeto := CNone; payload := [CStr "10"] |} ]))
  = 2%nat.
Proof.
  rewrite (cost_record_fan_out _ _ _ 0
             {| project_id := CStr "P1"; projeto := CNone; payload := [CStr "10"] |});
    reflexivity.
Defined.

(* ================================================================= *)
(** * The dashboard: cost comparison and status colours *)

(** ** Sums *)

Lemma sumQ_acc (l : list Q) (a : Q) : (fold_left Qplus l a == a + sumQ l)%Q.
Proof.
  unfold sumQ. revert a. induction l as [|x l IH]; intros a; cbn [fold_left].
  - ring.
  - rewrite (IH (a + x)%Q), (IH (0 + x)%Q). ring.
Qed.

Lemma sumQ_cons (x : Q) (l : list Q) : (sumQ (x :: l) == x + sumQ l)%Q.
Proof.
  unfold sumQ at 1. cbn [fold_left]. rewrite sumQ_acc. ring.
Qed.

(** ** The merge of planned and actual cost *)

Lemma actual_row_of (df : list kpi_row) (U : list str) (i : str) :
  NoDup U -> In i U ->
  filter (fun a : str * Q => opt_str_eqb (Some i) (Some (fst a)))
    (map (fun j => (j, group_sum df j)) U)
  = [(i, group_sum df i)].
Proof.
  induction 1 as [|j U Hj Hn IH]; intros Hin; [destruct Hin |].
  cbn [map filter fst opt_str_eqb]. destruct (str_eqb i j) eqn:E.
  - apply str_eqb_eq in E. subst j. f_equal.
    apply filter_none. intros a Ha. apply in_map_iff in Ha.
    destruct Ha as [j [<- Hj']]. cbn [fst opt_str_eqb].
    destruct (str_eqb i j) eqn:E'; [| reflexivity].
    apply str_eqb_eq in E'. now subst j.
  - destruct Hin as [-> | Hin]; [now rewrite str_eqb_refl in E | now apply IH].
Qed.

Lemma flat_map_singletons {A B} (f : A -> list B) (g : A -> B) (l : list A) :
  (forall a, In a l -> f a = [g a]) -> flat_map f l = map g l.
Proof.
  induction l as [|a l IH]; intros H; [reflexivity |].
  cbn [flat_map map]. rewrite (H a (or_introl eq_refl)), IH; [reflexivity |].
  intros b Hb. apply H. now right.
Qed.

(** Every planned row gives one row of the comparison, with the sum of
    the cost values of its project. *)
Lemma prepare_cost_comparison_rows (df : list kpi_row) :
  prepare_cost_comparison_data df
  = map (fun r =>
           {| c_project_id := d_project_id r;
              c_custo_previsto := custo_previsto_clean r;
              custo_real_total := real_cost_of df (d_project_id r) |})
        (drop_duplicates df).
Proof.
  unfold prepare_cost_comparison_data. cbv zeta.
  apply flat_map_singletons. intros r Hr.
  assert (In (d_project_id r) (map d_project_id df)) as Hin.
  { apply (in_map d_project_id) in Hr.
    unfold drop_duplicates in Hr. now apply drop_duplicates_from_In in Hr. }
  destruct (d_project_id r) as [i|] eqn:Ei; cbn [real_cost_of].
  - unfold actual_by_project. rewrite actual_row_of.
    + reflexivity.
    + apply unique_NoDup.
    + apply unique_In. now apply dropna_In.
  - rewrite filter_none; [reflexivity |]. intros a _. reflexivity.
Qed.

(** ** The sums of the comparison *)

Lemma id_in_cons_other (i j : option str) (ids : list (option str)) :
  opt_str_eqb i j = false -> id_in i (j :: ids) = id_in i ids.
Proof. intros H. unfold id_in. cbn [existsb]. now rewrite H. Qed.

(** The rows of the projects [i :: ids] are the rows of [i] and the rows
    of [ids], when [i] is not one of [ids]. *)
Lemma sum_identified_cons (df : list kpi_row) (i : option str) (ids : list (option str)) :
  ~ In i ids ->
  (sumQ (map valor_clean (filter (identified_in (i :: ids)) df))
   == real_cost_of df i + sumQ (map valor_clean (filter (identified_in ids) df)))%Q.
Proof.
  intros Hi. destruct i as [i|].
  - cbn [real_cost_of]. unfold group_sum.
    induction df as [|r df IH]; [cbn; ring |].
    assert (identified_in (Some i :: ids) r
            = opt_str_eqb (d_project_id r) (Some i) || identified_in ids r) as HA.
    { unfold identified_in, id_in. destruct (d_project_id r); reflexivity. }
    assert (opt_str_eqb (d_project_id r) (Some i) && identified_in ids r = false) as HB.
    { destruct (opt_str_eqb (d_project_id r) (Some i)) eqn:E; [| reflexivity].
      apply opt_str_eqb_eq in E. unfold identified_in. rewrite E. cbn [andb].
      destruct (id_in (Some i) ids) eqn:E'; [| reflexivity].
      apply id_in_In in E'. contradiction. }
    cbn [filter]. rewrite HA.
    destruct (opt_str_eqb (d_project_id r) (Some i)), (identified_in ids r);
      try discriminate HB; cbn [orb map]; rewrite ?sumQ_cons, IH; ring.
  - cbn [real_cost_of].
    assert (filter (identified_in (None :: ids)) df = filter (identified_in ids) df) as ->.
    { apply filter_ext. intros r. unfold identified_in.
      destruct (d_project_id r); [| reflexivity]. now apply id_in_cons_other. }
    ring.
Qed.

Lemma sum_real_costs (df : list kpi_row) (ids : list (option str)) :
  NoDup ids ->
  (sumQ (map (real_cost_of df) ids)
   == sumQ (map valor_clean (filter (identified_in ids) df)))%Q.
Proof.
  induction 1 as [|i ids Hi Hn IH].
  - rewrite filter_none; [reflexivity |]. intros r _. unfold identified_in.
    now destruct (d_project_id r).
  - cbn [map]. rewrite sumQ_cons, IH, sum_identified_cons by exact Hi. reflexivity.
Qed.

Lemma select_identified_some (df : list kpi_row) (r : kpi_row) :
  In r (select_identified df) -> exists i, d_project_id r = Some i.
Proof.
  unfold select_identified. intros H. apply filter_In in H. destruct H as [_ H].
  destruct (d_project_id r) as [i|]; [now exists i | discriminate].
Qed.

Lemma NoDup_map_Some {A} (l : list A) : NoDup l -> NoDup (map Some l).
Proof.
  induction 1 as [|a l Ha Hn IH]; cbn [map]; constructor; [| exact IH].
  intros H. apply in_map_iff in H. destruct H as [b [E Hb]]. injection E as ->.
  contradiction.
Qed.

(** X17.  On a table as [load_and_clean_data] returns it, the cost
    comparison has one row per project of [total_projects], its planned
    costs add up to [planned_costs] and its real costs to
    [actual_costs] of [calculate_kpis]. *)
Theorem cost_comparison_agrees_with_kpis (raw : list kpi_row) :
  let df := select_identified raw in
  let t := prepare_cost_comparison_data df in
  map c_project_id t = map d_project_id (drop_duplicates df)
  /\ NoDup (map c_project_id t)
  /\ length t = total_projects (calculate_kpis df)
  /\ sumQ (map c_custo_previsto t) = planned_costs (calculate_kpis df)
  /\ (sumQ (map custo_real_total t) == actual_costs (calculate_kpis df))%Q.
Proof.
  cbv zeta. set (df := select_identified raw).
  rewrite prepare_cost_comparison_rows. rewrite !map_map. cbn [c_project_id
    c_custo_previsto custo_real_total].
  assert (NoDup (map d_project_id (drop_duplicates df))) as Hn
    by apply drop_duplicates_from_NoDup.
  assert (forall i, In i (map d_project_id (drop_duplicates df))
                    <-> In i (map d_project_id df)) as Hin.
  { intros i. unfold drop_duplicates. rewrite drop_duplicates_from_In. cbn. tauto. }
  split; [reflexivity |]. split; [exact Hn |]. split; [| split; [reflexivity |]].
  - rewrite length_map. cbn [calculate_kpis total_projects]. unfold nunique.
    rewrite <- (length_map d_project_id (drop_duplicates df)).
    rewrite <- (length_map Some (unique (dropna (map d_project_id df)))).
    apply Nat.le_antisymm; apply NoDup_incl_length;
      try exact Hn; try (apply NoDup_map_Some, unique_NoDup).
    + intros i Hi. apply Hin in Hi. apply in_map_iff in Hi as Hr.
      destruct Hr as [r [<- Hr]]. destruct (select_identified_some _ _ Hr) as [s Es].
      rewrite Es in *. apply in_map. apply unique_In. now apply dropna_In.
    + intros i Hi. apply in_map_iff in Hi. destruct Hi as [s [<- Hs]].
      apply Hin. apply (proj1 (unique_In _ _)) in Hs.
      now apply (proj1 (dropna_In _ _)) in Hs.
  - cbn [calculate_kpis actual_costs].
    rewrite <- (map_map d_project_id (real_cost_of df)).
    rewrite sum_real_costs by exact Hn.
    assert (filter (identified_in (map d_project_id (drop_duplicates df))) df = df) as ->;
      [| reflexivity].
    apply filter_id. apply Forall_forall. intros r Hr.
    destruct (select_identified_some _ _ Hr) as [s Es].
    unfold identified_in. rewrite Es. apply id_in_In. apply Hin.
    rewrite <- Es. now apply in_map.
Qed.

(** ** Colours *)

Lemma lookup_app (k : str) (d1 d2 : list (str * str)) :
  lookup k (d1 ++ d2)
  = match lookup k d1 with
    | Some v => Some v
    | None => lookup k d2
    end.
Proof.
  induction d1 as [|[k' v] d1 IH]; [reflexivity |].
  cbn [app lookup]. now destruct (str_eqb k k').
Qed.

(** The colours after the loop: those there were, and the default colour
    for the statuses that had none. *)
Lemma add_default_colors_lookup (statuses : list str) (colors : list (str * str))
  (k : str) :
  lookup k (add_default_colors statuses colors)
  = match lookup k colors with
    | Some v => Some v
    | None => if str_in k statuses then Some default_color else None
    end.
Proof.
  revert colors. induction statuses as [|s rest IH]; intros colors;
    cbn [add_default_colors str_in existsb].
  - now destruct (lookup k colors).
  - rewrite IH. destruct (lookup s colors) as [c|] eqn:Es.
    + destruct (lookup k colors) as [v|] eqn:Ek; [reflexivity |].
      destruct (str_eqb k s) eqn:E; [| reflexivity].
      apply str_eqb_eq in E. subst s. congruence.
    + rewrite lookup_app. destruct (lookup k colors) as [v|]; [reflexivity |].
      cbn [lookup]. fold (str_in k rest).
      destruct (str_eqb k s); [reflexivity | reflexivity].
Qed.

(** X18.  [get_status_distribution] returns the status counts of
    [calculate_kpis] and a colour for every status counted: the colour
    the function defines for it, or the default colour; a status that is
    neither defined nor counted has no colour. *)
Theorem status_colors_cover_counts (df : list kpi_row) (k : str) :
  fst (get_status_distribution df) = status_counts (calculate_kpis df)
  /\ lookup k (snd (get_status_distribution df))
     = match lookup k status_colors with
       | Some v => Some v
       | None =>
           if str_in k (map fst (status_counts (calculate_kpis df)))
           then Some default_color else None
       end.
Proof.
  split; [reflexivity |].
  unfold get_status_distribution. cbv zeta. cbn [snd].
  apply add_default_colors_lookup.
Qed.

(* ================================================================= *)
(** * The cleaning of a table and its report *)

Lemma series_apply_total {A} (f : cell -> result A) (P : A -> Prop) (col : list cell) :
  (forall v, exists a, f v = Ok a /\ P a) ->
  exists l, series_apply f col = Ok l /\ length l = length col /\ Forall P l.
Proof.
  intros Hf. induction col as [|v col [l [E [L F]]]].
  - exists []. repeat split. constructor.
  - destruct (Hf v) as [a [Ea Pa]]. exists (a :: l).
    cbn [series_apply]. rewrite Ea. cbn [bind]. rewrite E. cbn [bind length].
    repeat split; [now rewrite L | now constructor].
Qed.

Lemma notna_sum_all (col : list cell) :
  Forall (fun v => pd_isna v = false) col -> notna_sum col = length col.
Proof.
  intros H. unfold notna_sum. rewrite filter_id; [reflexivity |].
  revert H. apply Forall_impl. now intros v ->.
Qed.

Lemma notna_sum_le (col : list cell) : (notna_sum col <= length col)%nat.
Proof. apply filter_length_le. Qed.

(** What the normalisers return is never a missing value, except for an
    amount that [float] has read as NaN. *)
Lemma standardize_date_notna (v : cell) :
  exists r, standardize_date v = Ok r /\ pd_isna r = false.
Proof.
  destruct (standardize_date_result v) as [E | [d [fmt [t [_ [_ [_ E]]]]]]];
    rewrite E; eauto.
Qed.

Lemma standardize_conclusao_notna (v : cell) :
  exists r, standardize_conclusao v = Ok r /\ pd_isna r = false.
Proof.
  destruct (standardize_conclusao_result v) as [E | [x [t [_ E]]]]; rewrite E; eauto.
Qed.

Lemma standardize_prioridade_notna (v : cell) :
  exists r, standardize_prioridade v = Ok r /\ pd_isna r = false.
Proof. unfold standardize_prioridade. destruct (is_nullish v); eauto. Qed.

Lemma standardize_status_notna (v : cell) :
  exists r, standardize_status v = Ok r /\ pd_isna r = false.
Proof.
  unfold standardize_status. destruct (is_nullish v); [eauto |]. cbv zeta.
  destruct (lookup _ status_mapping); eauto.
Qed.

Lemma standardize_approval_notna (v : cell) :
  exists r, standardize_approval v = Ok r /\ pd_isna r = false.
Proof.
  unfold standardize_approval. destruct (is_nullish v); [eauto |]. cbv zeta.
  repeat match goal with
         | |- context [if ?b then _ else _] => destruct b; [eauto |]
         end.
  eauto.
Qed.

Lemma standardize_currency_returns (v : cell) :
  exists r, standardize_currency v = Ok r /\ True.
Proof.
  destruct (standardize_currency_result v) as [E | [x [_ E]]]; rewrite E; eauto.
Qed.

(** X19.  [clean_projetos_raw] never fails on a value of the table: with
    [n] rows it reports [n] records, [2 n] standardised dates and [n]
    standardised percentages, priorities and statuses, whatever the
    cells hold, because an unreadable cell becomes '' and is counted by
    [notna]; the amounts counted are at most [n]; the success rate is
    always "100.0%".  For a table without rows the table is written and
    the report raises [ZeroDivisionError]. *)
Theorem clean_projetos_raw_report (df : projetos_df) :
  projetos_wf df ->
  (n_rows df = 0%nat ->
   exists cleaned, clean_projetos_raw (Some df) = DivisionByZero cleaned)
  /\ ((0 < n_rows df)%nat ->
      exists cleaned report,
        clean_projetos_raw (Some df) = Done cleaned report
        /\ projetos_wf cleaned /\ n_rows cleaned = n_rows df
        /\ total_records report = n_rows df
        /\ dates_standardized report = (2 * n_rows df)%nat
        /\ conclusao_standardized report = n_rows df
        /\ priority_lowercase report = n_rows df
        /\ status_lowercase report = n_rows df
        /\ (currency_cleaned report <= n_rows df)%nat
        /\ success_rate report = "100.0%").
Proof.
  intros (H1 & H2 & H3 & H4 & H5 & H6).
  destruct (series_apply_total _ _ (prioridade df) standardize_prioridade_notna)
    as [c1 [E1 [L1 F1]]].
  destruct (series_apply_total _ _ (status df) standardize_status_notna)
    as [c2 [E2 [L2 F2]]].
  destruct (series_apply_total _ _ (inicio df) standardize_date_notna)
    as [c3 [E3 [L3 F3]]].
  destruct (series_apply_total _ _ (prazo df) standardize_date_notna)
    as [c4 [E4 [L4 F4]]].
  destruct (series_apply_total _ _ (conclusao df) standardize_conclusao_notna)
    as [c5 [E5 [L5 F5]]].
  destruct (series_apply_total _ _ (custo_previsto df) standardize_currency_returns)
    as [c6 [E6 [L6 _]]].
  unfold clean_projetos_raw, transform_projetos.
  rewrite E1. cbn [bind]. rewrite E2. cbn [bind]. rewrite E3. cbn [bind].
  rewrite E4. cbn [bind]. rewrite E5. cbn [bind]. rewrite E6. cbn [bind].
  cbv zeta. cbn [inicio prazo conclusao custo_previsto prioridade status].
  unfold success_rate_text. split; intros Hn.
  - rewrite Hn. cbn [Nat.eqb]. eauto.
  - assert (Nat.eqb (n_rows df) 0 = false) as -> by (apply Nat.eqb_neq; lia).
    eexists. eexists. split; [reflexivity |].
    cbn [total_records dates_standardized conclusao_standardized priority_lowercase
         status_lowercase currency_cleaned success_rate n_rows].
    rewrite !notna_sum_all by assumption.
    pose proof (notna_sum_le c6).
    unfold projetos_wf. cbn [n_rows prioridade status inicio prazo conclusao custo_previsto].
    repeat split; try lia; reflexivity.
Qed.

Lemma clean_projetos_raw_report_witness :
  exists cleaned report,
    clean_projetos_raw
      (Some {| n_rows := 1;
               prioridade := [CStr " Alta "];
               status := [CStr "On Hold"];
               inicio := [CStr "not a date"];
               prazo := [CNone];
               conclusao := [CStr "abc"];
               custo_previsto := [CStr "R$ 1.000,00"] |}) = Done cleaned report
    /\ dates_standardized report = 2%nat.
Proof.
  destruct (clean_projetos_raw_report
              {| n_rows := 1;
                 prioridade := [CStr " Alta "];
                 status := [CStr "On Hold"];
                 inicio := [CStr "not a date"];
                 prazo := [CNone];
                 conclusao := [CStr "abc"];
                 custo_previsto := [CStr "R$ 1.000,00"] |})
    as [_ H]; [repeat split |].
  destruct H as [cleaned [report [E [_ [_ [_ [D _]]]]]]]; [cbn; lia |].
  exists cleaned, report. split; [exact E | exact D].
Defined.

Lemma astype_str_lower_length (pd : pandas) (col : list cell) :
  length (astype_str_lower pd col) = length col.
Proof. apply length_map. Qed.

(** Up to pandas 2 no cost centre is missing after [astype(str)]; from
    pandas 3 on the missing ones are those that were missing. *)
Lemma astype_str_lower_notna (pd : pandas) (col : list cell) :
  notna_sum (astype_str_lower pd col)
  = match pd with
    | Pandas_2 => length col
    | Pandas_3 => notna_sum col
    end.
Proof.
  unfold notna_sum, astype_str_lower.
  induction col as [|v col IH]; [now destruct pd |].
  cbn [map filter]. destruct pd.
  - cbn [pd_isna negb length]. now rewrite IH.
  - destruct (pd_isna v) eqn:E; cbn [pd_isna negb length]; now rewrite IH.
Qed.

(** X20.  [clean_custos_raw] never fails on a value of the table: with
    [n] rows it reports [n] records, [n] standardised dates and [n]
    standardised approvals, whatever the cells hold; the amounts counted
    are at most [n]; the success rate is always "100.0%".  The cost
    centres counted are [n] up to pandas 2, where a missing cost centre
    becomes text, and the cost centres that were not missing from pandas
    3 on.  For a table without rows the table is written and the report
    raises [ZeroDivisionError]. *)
Theorem clean_custos_raw_report (pd : pandas) (df : custos_df) :
  custos_wf df ->
  (c_rows df = 0%nat ->
   exists cleaned, clean_custos_raw pd (Some df) = DivisionByZero cleaned)
  /\ ((0 < c_rows df)%nat ->
      exists cleaned report,
        clean_custos_raw pd (Some df) = Done cleaned report
        /\ custos_wf cleaned /\ c_rows cleaned = c_rows df
        /\ c_total_records report = c_rows df
        /\ c_dates_standardized report = c_rows df
        /\ centro_custo_lowercase report
           = match pd with
             | Pandas_2 => c_rows df
             | Pandas_3 => notna_sum (centro_custo df)
             end
        /\ aprovado_standardized report = c_rows df
        /\ (c_currency_cleaned report <= c_rows df)%nat
        /\ c_success_rate report = "100.0%").
Proof.
  intros (H1 & H2 & H3 & H4).
  destruct (series_apply_total _ _ (data df) standardize_date_notna)
    as [c1 [E1 [L1 F1]]].
  destruct (series_apply_total _ _ (valor df) standardize_currency_returns)
    as [c2 [E2 [L2 _]]].
  destruct (series_apply_total _ _ (aprovado df) standardize_approval_notna)
    as [c3 [E3 [L3 F3]]].
  pose proof (astype_str_lower_length pd (centro_custo df)) as L4.
  pose proof (astype_str_lower_notna pd (centro_custo df)) as N4.
  unfold clean_custos_raw, transform_custos.
  rewrite E1. cbn [bind]. rewrite E2. cbn [bind]. cbv zeta. rewrite E3. cbn [bind].
  cbv zeta. cbn [data valor centro_custo aprovado].
  unfold success_rate_text. split; intros Hn.
  - rewrite Hn. cbn [Nat.eqb]. eauto.
  - assert (Nat.eqb (c_rows df) 0 = false) as -> by (apply Nat.eqb_neq; lia).
    eexists. eexists. split; [reflexivity |].
    cbn [c_total_records c_dates_standardized centro_custo_lowercase
         aprovado_standardized c_currency_cleaned c_success_rate c_rows].
    rewrite N4, (notna_sum_all c1 F1), (notna_sum_all c3 F3).
    pose proof (notna_sum_le c2).
    unfold custos_wf. cbn [c_rows data valor centro_custo aprovado].
    repeat split; try lia; try reflexivity.
    destruct pd; [lia | reflexivity].
Qed.

Lemma clean_custos_raw_report_witness :
  exists cleaned report,
    clean_custos_raw Pandas_3
      (Some {| c_rows := 2;
               data := [CStr "2024-01-15"; CStr "soon"];
               valor := [CStr "R$ 1.000,00"; CStr "abc"];
               centro_custo := [CStr "TI"; CFloat FNan];
               aprovado := [CStr "sim"; CNone] |}) = Done cleaned report
    /\ c_dates_standardized report = 2%nat
    /\ centro_custo_lowercase report = 1%nat
    /\ aprovado_standardized report = 2%nat.
Proof.
  destruct (clean_custos_raw_report Pandas_3
              {| c_rows := 2;
                 data := [CStr "2024-01-15"; CStr "soon"];
                 valor := [CStr "R$ 1.000,00"; CStr "abc"];
                 centro_custo := [CStr "TI"; CFloat FNan];
                 aprovado := [CStr "sim"; CNone] |})
    as [_ H]; [repeat split |].
  destruct H as [cleaned [report [E [_ [_ [_ [D [C [A _]]]]]]]]]; [cbn; lia |].
  exists cleaned, report. repeat split; assumption.
Defined.

(* ================================================================= *)
(** * Standardised project names *)

Lemma collapse_ws_cons (c : ascii) (t : str) :
  isspace c = false -> collapse_ws (c :: t) = c :: collapse_ws t.
Proof. intros H. cbn [collapse_ws]. now rewrite H. Qed.

Lemma collapse_ws_single_spaced (s : str) : single_spaced (collapse_ws s) = true.
Proof.
  induction s as [|c t IH]; [reflexivity |].
  cbn [collapse_ws]. destruct (isspace c) eqn:Ec.
  - destruct t as [|c' t']; [reflexivity |].
    destruct (isspace c') eqn:Ec'; [exact IH |].
    rewrite (collapse_ws_cons c' t' Ec') in *.
    cbn [single_spaced] in *. change (isspace " ") with true. cbv iota.
    rewrite Ec' in *. exact IH.
  - cbn [single_spaced]. now rewrite Ec.
Qed.

Lemma collapse_ws_id (s : str) : single_spaced s = true -> collapse_ws s = s.
Proof.
  induction s as [|c t IH]; [reflexivity |].
  cbn [single_spaced collapse_ws]. intros H. apply andb_true_iff in H.
  destruct H as [Hc Ht]. rewrite (IH Ht). destruct (isspace c); [| reflexivity].
  apply andb_true_iff in Hc. destruct Hc as [Hc Hn].
  apply Ascii.eqb_eq in Hc. subst c.
  destruct t as [|c' t']; [reflexivity |].
  apply negb_true_iff in Hn. now rewrite Hn.
Qed.

Lemma collapse_ws_chars (P : ascii -> Prop) (s : str) :
  P " "%char -> Forall P s -> Forall P (collapse_ws s).
Proof.
  intros Hsp. induction 1 as [|c t Hc Ht IH]; [constructor |].
  cbn [collapse_ws]. destruct (isspace c); [| now constructor].
  destruct t as [|c' t']; [now repeat constructor |].
  destruct (isspace c'); [exact IH | now constructor].
Qed.

Lemma lstrip_chars_of (P : ascii -> Prop) (s : str) : Forall P s -> Forall P (lstrip s).
Proof.
  induction 1 as [|c t Hc Ht IH]; [constructor |].
  cbn [lstrip]. destruct (isspace c); [exact IH | now constructor].
Qed.

Lemma rstrip_chars_of (P : ascii -> Prop) (s : str) : Forall P s -> Forall P (rstrip s).
Proof.
  induction 1 as [|c t Hc Ht IH]; [constructor |].
  cbn [rstrip]. destruct (rstrip t) as [|x r].
  - destruct (isspace c); now repeat constructor.
  - now constructor.
Qed.

Lemma strip_chars_of (P : ascii -> Prop) (s : str) : Forall P s -> Forall P (strip s).
Proof. intros H. unfold strip. now apply rstrip_chars_of, lstrip_chars_of. Qed.

Lemma lstrip_single_spaced (s : str) :
  single_spaced s = true -> single_spaced (lstrip s) = true.
Proof.
  induction s as [|c t IH]; [reflexivity |].
  intros H. cbn [lstrip]. destruct (isspace c); [| exact H].
  apply IH. cbn [single_spaced] in H. now apply andb_true_iff in H.
Qed.

Lemma rstrip_head (t : str) (x : ascii) (r : str) :
  rstrip t = x :: r -> exists t', t = x :: t'.
Proof.
  destruct t as [|c t]; [discriminate |]. cbn [rstrip].
  destruct (rstrip t) as [|y r'].
  - destruct (isspace c); [discriminate |]. intros H. injection H as <- <-. eauto.
  - intros H. injection H as <- <-. eauto.
Qed.

Lemma rstrip_single_spaced (s : str) :
  single_spaced s = true -> single_spaced (rstrip s) = true.
Proof.
  induction s as [|c t IH]; [reflexivity |].
  cbn [single_spaced rstrip]. intros H. apply andb_true_iff in H.
  destruct H as [Hc Ht]. specialize (IH Ht).
  destruct (rstrip t) as [|x r] eqn:E.
  - destruct (isspace c) eqn:Ec; [reflexivity |]. cbn [single_spaced]. now rewrite Ec.
  - destruct (rstrip_head _ _ _ E) as [t' ->].
    change (single_spaced (c :: x :: r))
      with ((if isspace c then Ascii.eqb c " " && negb (isspace x) else true)
            && single_spaced (x :: r)).
    rewrite IH, andb_true_r. exact Hc.
Qed.

Lemma filter_chars_of {A} (p : A -> bool) (P : A -> Prop) (l : list A) :
  Forall P l -> Forall P (filter p l).
Proof.
  induction 1 as [|a l Ha Hl IH]; [constructor |].
  cbn [filter]. destruct (p a); [now constructor | exact IH].
Qed.

Lemma filter_true {A} (p : A -> bool) (l : list A) :
  Forall (fun a => p a = true) (filter p l).
Proof.
  apply Forall_forall. intros a Ha. now apply filter_In in Ha.
Qed.

(** X21.  A standardised project name is in lower case, consists of word
    characters and spaces only, and has no whitespace other than single
    spaces; standardising it once more strips it and changes nothing
    else: a name that starts or ends with punctuation can leave a space
    at an end of the key, which only a second pass removes. *)
Theorem standardize_project_name_form (s : str) :
  let k := standardize_project_name (CStr s) in
  lower k = k
  /\ Forall (fun c => name_char c = true) k
  /\ single_spaced k = true
  /\ standardize_project_name (CStr k) = strip k
  /\ standardize_project_name (CStr "- Alfa") = " alfa"
  /\ standardize_project_name (CStr " alfa") = "alfa".
Proof.
  cbv zeta. unfold standardize_project_name. cbv zeta.
  set (p := fun c => is_word c || isspace c).
  set (k := collapse_ws (filter p (strip (lower s)))).
  assert (Forall (fun c => lower_char c = c) k) as Hl.
  { apply collapse_ws_chars; [reflexivity |]. apply filter_chars_of, strip_chars_of.
    unfold lower. apply Forall_forall. intros c Hc. apply in_map_iff in Hc.
    destruct Hc as [c0 [<- _]]. apply lower_char_idem. }
  assert (Forall (fun c => name_char c = true) k) as Hc
    by (apply collapse_ws_chars; [reflexivity | apply (filter_true p)]).
  assert (single_spaced k = true) as Hs by apply collapse_ws_single_spaced.
  split; [now apply lower_id |]. split; [exact Hc |]. split; [exact Hs |].
  split; [| split; reflexivity].
  rewrite (lower_id k Hl).
  rewrite filter_id by (apply strip_chars_of; exact Hc).
  apply collapse_ws_id. unfold strip.
  now apply rstrip_single_spaced, lstrip_single_spaced.
Qed.
